(** * TransformerX dashboard: event coordination core

    A shallow embedding of the dashboard's client-side coordination code
    ([neuro-llama.js], [dashboard.js], [neural-signal-processor.js],
    [bci-status.js] and the decoder visualization module) together with the
    properties of its specification.

    JavaScript numbers are idealised as exact rationals ([Q]): products,
    sums, comparisons, [Math.max] and [Math.min] are the exact ones, and a
    division whose divisor is zero has no finite result ([None]).  Where a
    sign, an integer reading or a colour depends on how a result is rounded
    to a double, the rounding is written out (module [Float]).  Calls of
    [Math.random()] read successive cells of an oracle [nat -> Q];
    [Date.now()] is an integer number of milliseconds handed to the handler
    that reads it. *)

From Stdlib Require Import QArith Qminmax Qpower Qabs Qround Lqa ZArith Lia Bool.
From Stdlib Require Import DecimalString String List.
Import ListNotations.
Open Scope Q_scope.

(** ** JavaScript number helpers *)

Module JS.

(** [a > b] *)
Definition gt (a b : Q) : bool := negb (Qle_bool a b).

(** [a < b] *)
Definition lt (a b : Q) : bool := negb (Qle_bool b a).

(** [a >= b] *)
Definition ge (a b : Q) : bool := Qle_bool b a.

(** [a / b]; [None] when the result is not a finite number
    (division by zero gives [NaN] or an infinity). *)
Definition div (a b : Q) : option Q :=
  if Qeq_bool b 0 then None else Some (a / b).

(** [x || 0] on a possibly missing number. *)
Definition or0 (x : option Q) : Q :=
  match x with Some q => q | None => 0 end.

(** Sum of finite numbers, [row.reduce((a, b) => a + b, 0)]. *)
Definition sum (l : list Q) : Q := fold_left Qplus l 0.

(** The same reduction over possibly non-finite numbers: one operand
    that is not finite makes the total not finite. *)
Definition osum (l : list (option Q)) : option Q :=
  fold_left (fun acc v =>
               match acc, v with
               | Some a, Some b => Some (a + b)
               | _, _ => None
               end) l (Some 0).

End JS.

(** ** Action-State Engine ([neuro-llama.js]) *)

Module Engine.

(** Keys of [ACTION_VERBS], in insertion order. *)
Inductive action := navigate | select | modify | create | delete.

Definition action_names : list action :=
  [navigate; select; modify; create; delete].

(** One entry of [ACTION_VERBS].  [triggered] is absent until the first
    trigger, and only ever tested for truthiness, so absent reads as
    [false]; [lastTriggered] is absent until the first trigger. *)
Record ActionState := mkAction {
  confidence : Q;
  direction : option string;
  topic : option string;
  active : bool;
  triggered : bool;
  lastTriggered : option Z
}.

Definition set_confidence (c : Q) (s : ActionState) : ActionState :=
  mkAction c (direction s) (topic s) (active s) (triggered s) (lastTriggered s).
Definition set_direction (d : option string) (s : ActionState) : ActionState :=
  mkAction (confidence s) d (topic s) (active s) (triggered s) (lastTriggered s).
Definition set_active (b : bool) (s : ActionState) : ActionState :=
  mkAction (confidence s) (direction s) (topic s) b (triggered s) (lastTriggered s).
Definition set_triggered (b : bool) (s : ActionState) : ActionState :=
  mkAction (confidence s) (direction s) (topic s) (active s) b (lastTriggered s).
Definition set_lastTriggered (t : option Z) (s : ActionState) : ActionState :=
  mkAction (confidence s) (direction s) (topic s) (active s) (triggered s) t.

(** The object [ACTION_VERBS]. *)
Record ActionVerbs := mkVerbs {
  v_navigate : ActionState;
  v_select : ActionState;
  v_modify : ActionState;
  v_create : ActionState;
  v_delete : ActionState
}.

(** [ACTION_VERBS[a]] *)
Definition get (a : action) (v : ActionVerbs) : ActionState :=
  match a with
  | navigate => v_navigate v
  | select => v_select v
  | modify => v_modify v
  | create => v_create v
  | delete => v_delete v
  end.

(** [ACTION_VERBS[a] = s] *)
Definition put (a : action) (s : ActionState) (v : ActionVerbs) : ActionVerbs :=
  match a with
  | navigate => mkVerbs s (v_select v) (v_modify v) (v_create v) (v_delete v)
  | select => mkVerbs (v_navigate v) s (v_modify v) (v_create v) (v_delete v)
  | modify => mkVerbs (v_navigate v) (v_select v) s (v_create v) (v_delete v)
  | create => mkVerbs (v_navigate v) (v_select v) (v_modify v) s (v_delete v)
  | delete => mkVerbs (v_navigate v) (v_select v) (v_modify v) (v_create v) s
  end.

(** In-place update of one entry. *)
Definition update (a : action) (f : ActionState -> ActionState)
           (v : ActionVerbs) : ActionVerbs :=
  put a (f (get a v)) v.

(** [for (const action in ACTION_VERBS) { ACTION_VERBS[action] = f ... }] *)
Definition for_in (f : ActionState -> ActionState) (v : ActionVerbs) : ActionVerbs :=
  fold_left (fun acc a => update a f acc) action_names v.

(** Initial value of [ACTION_VERBS]. *)
Definition ACTION_VERBS : ActionVerbs :=
  let plain := mkAction 0 None None false false None in
  mkVerbs plain plain plain plain plain.

(** [updateActionStates(classification, confidence)]; a call without
    arguments passes [None] for the class, which matches no [case]. *)
Definition updateActionStates (classification : option string) (conf : Q)
           (v : ActionVerbs) : ActionVerbs :=
  let v := for_in (fun s => set_confidence (confidence s * (9#10)) s) v in
  let v :=
    match classification with
    | Some c =>
        if String.eqb c "Left Hand" then
          update navigate (fun s =>
            set_direction (Some "backward"%string)
              (set_confidence (Qmax (confidence s) conf) s)) v
        else if String.eqb c "Right Hand" then
          update navigate (fun s =>
            set_direction (Some "forward"%string)
              (set_confidence (Qmax (confidence s) conf) s)) v
        else if String.eqb c "Feet" then
          update modify (fun s =>
            set_direction (Some "decrease"%string)
              (set_confidence (Qmax (confidence s) conf) s)) v
        else if String.eqb c "Tongue" then
          let v := update select (fun s =>
            set_confidence (Qmax (confidence s) conf) s) v in
          update modify (fun s =>
            set_direction (Some "increase"%string)
              (set_confidence (Qmax (confidence s) (conf * (8#10))) s)) v
        else if String.eqb c "Rest" then
          for_in (fun s => set_confidence (confidence s * (8#10)) s) v
        else v
    | None => v
    end in
  for_in (fun s => set_active (JS.gt (confidence s) (6#10)) s) v.

(** [neuroLLaMA.threshold], never reassigned. *)
Definition threshold : Q := 75#100.

(** The part of the feature bundle the engine looks at. *)
Record FeatureBundle := mkFeatures {
  attentionMatrix : option (list (list Q))
}.

(** [event.detail] of [processor:features-extracted]. *)
Record FeaturesDetail := mkFeaturesDetail {
  features : option FeatureBundle
}.

(** [event.detail] of [processor:classification-updated]; [class] is a
    string when present. *)
Record ClassificationDetail := mkClassification {
  class : option string;
  ev_confidence : option Q
}.

(** Truthiness of [event.detail.class]: present and not the empty string. *)
Definition truthy_class (c : option string) : option string :=
  match c with
  | Some EmptyString => None
  | Some s => Some s
  | None => None
  end.

(** Module state: [neuroLLaMA.active], the connection status fields the
    handlers write, the stored features, [ACTION_VERBS], and the calls of
    [triggerAction] made so far (action and clock reading), oldest first. *)
Record State := mkState {
  nl_active : bool;
  neuralConnected : bool;
  lastNeuralUpdate : Z;
  neuralFeatures : option FeatureBundle;
  verbs : ActionVerbs;
  fired : list (action * Z)
}.

Definition init : State :=
  mkState false false 0 None ACTION_VERBS [].

Definition with_verbs (v : ActionVerbs) (st : State) : State :=
  mkState (nl_active st) (neuralConnected st) (lastNeuralUpdate st)
          (neuralFeatures st) v (fired st).

(** First loop of [considerTriggeringAction]: the action with the highest
    confidence among those at or above the threshold. *)
Definition selectAction (v : ActionVerbs) : option action :=
  snd (fold_left
         (fun (acc : Q * option action) name =>
            let actionState := get name v in
            if JS.gt (confidence actionState) (fst acc)
               && JS.ge (confidence actionState) threshold
            then (confidence actionState, Some name)
            else acc)
         action_names (0, None)).

(** [considerTriggeringAction]; [now] is the value of [Date.now()].  The
    call of [triggerAction] is recorded in [fired]; what it does to the
    prompt and the temperature does not touch [ACTION_VERBS]. *)
Definition considerTriggeringAction (now : Z) (st : State) : State :=
  match selectAction (verbs st) with
  | Some actionToTrigger =>
      let actionState := get actionToTrigger (verbs st) in
      let last := match lastTriggered actionState with
                  | Some t => t
                  | None => 0%Z
                  end in
      if (now - last >? 2000)%Z then
        mkState (nl_active st) (neuralConnected st) (lastNeuralUpdate st)
                (neuralFeatures st)
                (update actionToTrigger
                   (fun s => set_lastTriggered (Some now) (set_triggered true s))
                   (verbs st))
                (fired st ++ [(actionToTrigger, now)])
      else st
  | None => st
  end.

(** [handleNeuralClassification(event)].  One clock reading [now] stands
    for the [Date.now()] of the handler and the one of
    [considerTriggeringAction], taken in the same run.  The concept panel
    and [neuroLLaMA.activeConcepts] written by [updateNeuralConcepts] are
    display state that the engine never reads back; they are left out, as
    is the rendering done by [updateActionStatePanel]. *)
Definition handleNeuralClassification (now : Z)
           (detail : option ClassificationDetail) (st : State) : State :=
  if negb (nl_active st) then st
  else
    let st := mkState (nl_active st) true now (neuralFeatures st)
                      (verbs st) (fired st) in
    match detail with
    | Some d =>
        match truthy_class (class d) with
        | Some classification =>
            let conf := JS.or0 (ev_confidence d) in
            let st := with_verbs
                        (updateActionStates (Some classification) conf (verbs st))
                        st in
            if JS.ge conf threshold
            then considerTriggeringAction now st
            else st
        | None => st
        end
    | None => st
    end.

(** [handleNeuralFeatures(event)]; the attention matrix is only drawn. *)
Definition handleNeuralFeatures (now : Z)
           (detail : option FeaturesDetail) (st : State) : State :=
  if negb (nl_active st) then st
  else
    let st := mkState (nl_active st) true now (neuralFeatures st)
                      (verbs st) (fired st) in
    match detail with
    | Some d =>
        match features d with
        | Some f =>
            mkState (nl_active st) (neuralConnected st) (lastNeuralUpdate st)
                    (Some f)
                    (updateActionStates None 0 (verbs st))
                    (fired st)
        | None => st
        end
    | None => st
    end.

(** [toggleNeuralIntegration()]: the flag is flipped and every entry of
    [ACTION_VERBS] reset ([lastTriggered] is not); button, indicator and
    the [neuro-llama:activation] notification are display and signalling
    that the engine does not depend on. *)
Definition toggleNeuralIntegration (st : State) : State :=
  mkState (negb (nl_active st)) (neuralConnected st) (lastNeuralUpdate st)
          (neuralFeatures st)
          (for_in (fun s => set_triggered false
                              (set_active false (set_confidence 0 s)))
                  (verbs st))
          (fired st).

(** The timeout armed by [updateActionStatePanel] for an entry it found
    triggered: one second later it clears the flag. *)
Definition clearTriggered (a : action) (st : State) : State :=
  with_verbs (update a (set_triggered false) (verbs st)) st.

(** What can happen to the engine. *)
Inductive input :=
| Classification (now : Z) (detail : option ClassificationDetail)
| Features (now : Z) (detail : option FeaturesDetail)
| Toggle
| PanelTimeout (a : action).

Definition step (i : input) (st : State) : State :=
  match i with
  | Classification now d => handleNeuralClassification now d st
  | Features now d => handleNeuralFeatures now d st
  | Toggle => toggleNeuralIntegration st
  | PanelTimeout a => clearTriggered a st
  end.

(** State after a sequence of inputs, oldest first. *)
Definition run (ins : list input) (st : State) : State :=
  fold_left (fun s i => step i s) ins st.

(** States of a running page. *)
Definition reachable (st : State) : Prop :=
  exists ins, st = run ins init.

(** The two facts every state of a running page enjoys. *)
Definition nonneg (v : ActionVerbs) : Prop :=
  forall a, 0 <= confidence (get a v).

Definition derived (v : ActionVerbs) : Prop :=
  forall a, active (get a v) = JS.gt (confidence (get a v)) (6#10).

End Engine.

(** ** Integration Glue ([dashboard.js], [initializeComponentIntegration]) *)

Module Glue.

(** [status] of a [bci:status-updated] event. *)
Record BciStatus := mkBciStatus {
  signalQuality : option Q;
  batteryLevel : option Q;
  connected : option bool
}.

(** Payload shapes carried by the events the glue reads and writes. *)
Inductive detail :=
| ClassificationUpdated (d : Engine.ClassificationDetail)
| FeaturesExtracted (d : Engine.FeaturesDetail)
| LlamaReady (actionVerbs : list string)
| ConnectLlama (actionVerbs : list string)
| MovementRequest (direction : string) (confidence : Q) (source : string)
| StatusUpdated (status : option BciStatus)
| ProcessorBciStatus (quality battery : Q) (isConnected : bool).

(** A [CustomEvent]: its type and its [detail]. *)
Definition event := (string * option detail)%type.

(** A listener registered with [document.addEventListener]; the handler
    yields the events it dispatches, in order. *)
Record listener := mkListener {
  topic : string;
  handler : option detail -> list event
}.

(** [document.dispatchEvent]: every listener of the event's type runs, in
    registration order. *)
Definition dispatchEvent (bus : list listener) (e : event) : list event :=
  flat_map (fun l => if String.eqb (topic l) (fst e)
                     then handler l (snd e) else [])
           bus.

(** The [switch] of the classification-to-movement bridge. *)
Definition classDirection (classification : string) : option string :=
  if String.eqb classification "Left Hand" then Some "left"%string
  else if String.eqb classification "Right Hand" then Some "right"%string
  else if String.eqb classification "Feet" then Some "down"%string
  else if String.eqb classification "Tongue" then Some "up"%string
  else None.

(** Listener for [processor:classification-updated]. *)
Definition movementBridge (d : option detail) : list event :=
  match d with
  | Some (ClassificationUpdated c) =>
      match Engine.truthy_class (Engine.class c) with
      | Some classification =>
          let confidence := JS.or0 (Engine.ev_confidence c) in
          match classDirection classification with
          | Some direction =>
              if JS.gt confidence (65#100)
              then [("decoder:movement-request"%string,
                     Some (MovementRequest direction confidence
                                           "neural-processor"%string))]
              else []
          | None => []
          end
      | None => []
      end
  | _ => []
  end.

(** Listener for [processor:features-extracted]. *)
Definition featuresForwarder (d : option detail) : list event :=
  [("neuro-llama:features-available"%string, d)].

(** Listener for [neuro-llama:ready]. *)
Definition readyForwarder (d : option detail) : list event :=
  match d with
  | Some (LlamaReady verbs) =>
      [("processor:connect-llama"%string, Some (ConnectLlama verbs))]
  | _ => []
  end.

(** Listener for [bci:status-updated]. *)
Definition statusForwarder (d : option detail) : list event :=
  match d with
  | Some (StatusUpdated (Some status)) =>
      [("processor:bci-status"%string,
        Some (ProcessorBciStatus
                (JS.or0 (signalQuality status))
                (JS.or0 (batteryLevel status))
                (match connected status with Some b => b | None => false end)))]
  | _ => []
  end.

(** Which entry points exist ([typeof f === 'function']). *)
Record Page := mkPage {
  initNeuralSignalProcessor : bool;
  initNeuroLLaMA : bool;
  initDecoderVisualization : bool;
  initBCIStatus : bool
}.

(** [initializeComponentIntegration()]: listeners are appended to those
    already registered. *)
Definition initializeComponentIntegration (p : Page) (bus : list listener)
  : list listener :=
  let bus :=
    if initNeuralSignalProcessor p && initNeuroLLaMA p
    then bus ++ [mkListener "processor:features-extracted" featuresForwarder;
                 mkListener "neuro-llama:ready" readyForwarder]
    else bus in
  let bus :=
    if initDecoderVisualization p && initNeuroLLaMA p
    then bus ++ [mkListener "processor:classification-updated" movementBridge]
    else bus in
  if initBCIStatus p && initNeuralSignalProcessor p
  then bus ++ [mkListener "bci:status-updated" statusForwarder]
  else bus.

(** The lookup table as the specification gives it; "Rest" and any other
    string have no direction. *)
Definition direction_table (cls direction : string) : Prop :=
  (cls = "Left Hand"%string /\ direction = "left"%string) \/
  (cls = "Right Hand"%string /\ direction = "right"%string) \/
  (cls = "Feet"%string /\ direction = "down"%string) \/
  (cls = "Tongue"%string /\ direction = "up"%string).

(** Event types the glue publishes. *)
Definition published_topics : list string :=
  ["neuro-llama:features-available"%string;
   "processor:connect-llama"%string;
   "decoder:movement-request"%string;
   "processor:bci-status"%string].

(** Event types the glue listens to. *)
Definition listened_topics : list string :=
  ["processor:features-extracted"%string;
   "neuro-llama:ready"%string;
   "processor:classification-updated"%string;
   "bci:status-updated"%string].

End Glue.

(** ** Movement decoder ([window.decoderVisualization]) *)

Module Decoder.

(** A position [[x, y]]. *)
Definition point := (Q * Q)%type.

(** A velocity [[vx, vy]]; a component is [None] when it is not a finite
    number. *)
Definition velocity := (option Q * option Q)%type.

(** The arrays of [currentDecoderData]. *)
Record DecoderData := mkData {
  actual : list point;
  predicted : list point;
  timestamps : list Q;
  velocities_actual : list velocity;
  velocities_predicted : list velocity
}.

(** [currentDecoderData] when the module is loaded. *)
Definition currentDecoderData : DecoderData := mkData [] [] [] [] [].

(** Arguments of one call of [addDecodedPosition]. *)
Record Call := mkCall {
  c_actual : point;
  c_predicted : point;
  c_timestamp : Q;
  c_actualVelocity : option velocity;
  c_predictedVelocity : option velocity
}.

(** A call either returns or throws, leaving the arrays as they were at
    that moment. *)
Inductive outcome :=
| Returned (d : DecoderData)
| Threw (d : DecoderData).

Definition data_of (o : outcome) : DecoderData :=
  match o with Returned d | Threw d => d end.

(** [arr.shift()] *)
Definition shift {A} (l : list A) : list A := tl l.

(** [arr.push(x)] *)
Definition push {A} (x : A) (l : list A) : list A := l ++ [x].

(** "Keep only the last 100 points". *)
Definition trim (d : DecoderData) : DecoderData :=
  if (100 <? length (actual d))%nat then
    mkData (shift (actual d)) (shift (predicted d)) (shift (timestamps d))
           (shift (velocities_actual d)) (shift (velocities_predicted d))
  else d.

(** Velocity between two positions over [deltaTime] seconds. *)
Definition velocityBetween (p prev : point) (deltaTime : option Q) : velocity :=
  match deltaTime with
  | Some dt => (JS.div (fst p - fst prev) dt, JS.div (snd p - snd prev) dt)
  | None => (None, None)
  end.

(** [addDecodedPosition(actual, predicted, timestamp, actualVelocity,
    predictedVelocity)] *)
Definition addDecodedPosition (c : Call) (d : DecoderData) : outcome :=
  let d := mkData (push (c_actual c) (actual d))
                  (push (c_predicted c) (predicted d))
                  (push (c_timestamp c) (timestamps d))
                  (velocities_actual d) (velocities_predicted d) in
  match c_actualVelocity c, c_predictedVelocity c with
  | Some va, Some vp =>
      Returned (trim (mkData (actual d) (predicted d) (timestamps d)
                             (push va (velocities_actual d))
                             (push vp (velocities_predicted d))))
  | _, _ =>
      if (1 <? length (actual d))%nat then
        match nth_error (actual d) (length (actual d) - 2),
              nth_error (predicted d) (length (predicted d) - 2) with
        | Some prevActual, Some prevPredicted =>
            let deltaTime :=
              match nth_error (timestamps d) (length (timestamps d) - 2) with
              | Some prevTime => Some ((c_timestamp c - prevTime) / 1000)
              | None => None
              end in
            Returned (trim (mkData (actual d) (predicted d) (timestamps d)
              (push (velocityBetween (c_actual c) prevActual deltaTime)
                    (velocities_actual d))
              (push (velocityBetween (c_predicted c) prevPredicted deltaTime)
                    (velocities_predicted d))))
        | _, _ => Threw d
        end
      else
        Returned (trim (mkData (actual d) (predicted d) (timestamps d)
                               (push (Some 0, Some 0) (velocities_actual d))
                               (push (Some 0, Some 0) (velocities_predicted d))))
  end.

(** A sequence of calls, oldest first; a call that throws does not stop
    the following ones. *)
Definition addAll (cs : list Call) (d : DecoderData) : DecoderData :=
  fold_left (fun acc c => data_of (addDecodedPosition c acc)) cs d.

(** The five arrays move in lockstep. *)
Definition aligned (d : DecoderData) : Prop :=
  length (predicted d) = length (actual d) /\
  length (timestamps d) = length (actual d) /\
  length (velocities_actual d) = length (actual d) /\
  length (velocities_predicted d) = length (actual d).

(** The last [n] elements of a list. *)
Definition lastn {A} (n : nat) (l : list A) : list A :=
  skipn (length l - n) l.

(** What one call does to an array that is pushed to and then trimmed. *)
Definition keep100 {A} (l : list A) : list A :=
  if (100 <? length l)%nat then shift l else l.

End Decoder.

(** ** Decoder metrics ([dashboard.js], [updateDecoderModelMetrics]) *)

Module Dashboard.

Record Metrics := mkMetrics {
  mse : Q;
  r2 : Q;
  correlation : Q;
  decodeTime : Q;
  bitrate : Q
}.

(** The locals [accuracy], [noise] and [metrics]. *)
Record Locals := mkLocals {
  accuracy : Q;
  noise : Q;
  metrics : Metrics
}.

(** Argument of [updateDecoderData]. *)
Record DecoderUpdate := mkUpdate {
  u_accuracy : Q;
  u_metrics : Metrics;
  u_trajectoryType : string
}.

(** "Base metrics". *)
Definition base : Locals :=
  mkLocals (80#100) (15#100) (mkMetrics (35#1000) (75#100) (85#100) 5 120).

(** Multiply [accuracy], [noise], [mse], [r2], [correlation] and
    [bitrate] by the given factors. *)
Definition scale (fa fn fm fr fc fb : Q) (l : Locals) : Locals :=
  mkLocals (accuracy l * fa) (noise l * fn)
           (mkMetrics (mse (metrics l) * fm) (r2 (metrics l) * fr)
                      (correlation (metrics l) * fc)
                      (decodeTime (metrics l))
                      (bitrate (metrics l) * fb)).

(** [metrics.decodeTime *= f] *)
Definition scaleDecodeTime (f : Q) (l : Locals) : Locals :=
  mkLocals (accuracy l) (noise l)
           (mkMetrics (mse (metrics l)) (r2 (metrics l))
                      (correlation (metrics l))
                      (decodeTime (metrics l) * f)
                      (bitrate (metrics l))).

(** [switch(modelId)] *)
Definition adjustModel (modelId : string) (l : Locals) : Locals :=
  if String.eqb modelId "model1" then
    scaleDecodeTime (11#10)
      (scale (105#100) (85#100) (8#10) (105#100) (105#100) (105#100) l)
  else if String.eqb modelId "model2" then
    scaleDecodeTime (85#100)
      (scale (9#10) (13#10) (15#10) (9#10) (95#100) (85#100) l)
  else if String.eqb modelId "model3" then
    scaleDecodeTime (12#10)
      (scale (112#100) (6#10) (65#100) (112#100) (11#10) (115#100) l)
  else l.

(** [switch(trajectoryType)]; [decodeTime] is left alone here. *)
Definition adjustTrajectory (trajectoryType : string) (l : Locals) : Locals :=
  if String.eqb trajectoryType "circular" then l
  else if String.eqb trajectoryType "figure8" then
    scale (92#100) (12#10) (13#10) (92#100) (95#100) (95#100) l
  else if String.eqb trajectoryType "reaching" then
    scale (108#100) (8#10) (7#10) (105#100) (105#100) (11#10) l
  else l.

(** "Keep metrics in reasonable ranges". *)
Definition clampMetrics (l : Locals) : Locals :=
  mkLocals (Qmin (98#100) (Qmax (5#10) (accuracy l))) (noise l)
           (mkMetrics (Qmax (1#100) (mse (metrics l)))
                      (Qmin (98#100) (Qmax (4#10) (r2 (metrics l))))
                      (Qmin (99#100) (Qmax (5#10) (correlation (metrics l))))
                      (Qmax 2 (decodeTime (metrics l)))
                      (Qmax 50 (bitrate (metrics l)))).

(** [updateDecoderModelMetrics(modelId, trajectoryType)]: the update handed
    to [window.decoderVisualization.updateDecoderData], or nothing when the
    decoder is not on the page. *)
Definition updateDecoderModelMetrics (decoderAvailable : bool)
           (modelId trajectoryType : string) : option DecoderUpdate :=
  if decoderAvailable then
    let l := clampMetrics (adjustTrajectory trajectoryType
                             (adjustModel modelId base)) in
    Some (mkUpdate (accuracy l) (metrics l) trajectoryType)
  else None.

End Dashboard.

(** ** Attention tensor ([neural-signal-processor.js]) *)

Module Processor.

(** A computation that calls [Math.random()]: from the number of calls
    made so far to a result and the new number of calls. *)
Definition Gen (A : Type) : Type := nat -> A * nat.

(** [Array(n).fill().map(() => f())], elements produced in index order. *)
Fixpoint fillMap {A} (n : nat) (f : Gen A) : Gen (list A) :=
  fun k =>
    match n with
    | O => ([], k)
    | S n' =>
        let (x, k1) := f k in
        let (xs, k2) := fillMap n' f k1 in
        (x :: xs, k2)
    end.

Section Random.

(** Value returned by the [k]-th call of [Math.random()]. *)
Variable random : nat -> Q.

Definition Math_random : Gen Q := fun k => (random k, S k).

Definition sequenceLength : nat := 16.

(** "Normalize row to sum to 1". *)
Definition normalizeRow (row : list Q) : list (option Q) :=
  let sum := JS.sum row in
  map (fun v => JS.div v sum) row.

(** The matrix of draws of one head, before its rows are normalized. *)
Definition drawMatrix : Gen (list (list Q)) :=
  fillMap sequenceLength (fillMap sequenceLength Math_random).

(** A row of sixteen successive draws. *)
Definition drawn_row (row : list Q) : Prop :=
  exists k, row = map random (seq k 16).

(** One attention head. *)
Definition attentionHead : Gen (list (list (option Q))) :=
  fun k =>
    let (m, k') := drawMatrix k in
    (map normalizeRow m, k').

(** [generateRandomAttentionMatrix(numHeads)] *)
Definition generateRandomAttentionMatrix (numHeads : nat)
  : Gen (list (list (list (option Q)))) :=
  fillMap numHeads attentionHead.

End Random.

End Processor.

(** ** Device-status monitor ([bci-status.js]) *)

Module BCI.

Inductive status := good | moderate | poor.

Record Electrode := mkElectrode {
  name : string;
  impedance : Q;
  signal : Q;
  e_status : status
}.

(** Threshold table of the specification. *)
Definition statusOf (imp : Q) : status :=
  if JS.lt imp 15 then good
  else if JS.lt imp 20 then moderate
  else poor.

(** Signal quality as the impedance check derives it from an impedance
    and one random draw [r]. *)
Definition signalFor (imp r : Q) : Q :=
  if JS.lt imp 10 then 95 + r * 5
  else if JS.lt imp 15 then 90 + r * 5
  else if JS.lt imp 20 then 80 + r * 10
  else 70 + r * 10.

(** What the check leaves in an electrode: an impedance in [5, 40], the
    status of the threshold table, and a signal derived from the
    impedance with the draw [r]. *)
Definition rechecked (r : Q) (e : Electrode) : Prop :=
  5 <= impedance e /\ impedance e <= 40 /\
  e_status e = statusOf (impedance e) /\
  signal e = signalFor (impedance e) r.

Section Random.

Variable random : nat -> Q.

(** Body of the [forEach] in [runImpedanceCheck]; [k] calls of
    [Math.random()] were made before. *)
Definition recheck (e : Electrode) (k : nat) : Electrode * nat :=
  let imp := Qmax 5 (Qmin 40 (impedance e + (random k - (1#2)) * 10)) in
  let r := random (S k) in
  if JS.lt imp 10 then (mkElectrode (name e) imp (95 + r * 5) good, S (S k))
  else if JS.lt imp 15 then (mkElectrode (name e) imp (90 + r * 5) good, S (S k))
  else if JS.lt imp 20 then (mkElectrode (name e) imp (80 + r * 10) moderate, S (S k))
  else (mkElectrode (name e) imp (70 + r * 10) poor, S (S k)).

(** [bciStatus.electrodes.forEach(...)] *)
Fixpoint recheckAll (es : list Electrode) (k : nat) : list Electrode * nat :=
  match es with
  | [] => ([], k)
  | e :: es' =>
      let (e', k1) := recheck e k in
      let (es'', k2) := recheckAll es' k1 in
      (e' :: es'', k2)
  end.

(** A running impedance check: the closure variable [progress], whether
    the interval is still armed, the electrodes, and the number of
    [Math.random()] calls made. *)
Record Check := mkCheck {
  progress : Z;
  armed : bool;
  electrodes : list Electrode;
  calls : nat
}.

(** [runImpedanceCheck()] up to the arming of the interval. *)
Definition runImpedanceCheck (es : list Electrode) (k : nat) : Check :=
  mkCheck 0 true es k.

(** One firing of the 100 ms interval. *)
Definition tick (c : Check) : Check :=
  if armed c then
    let progress := (progress c + 5)%Z in
    if (progress >=? 100)%Z then
      let (es, k) := recheckAll (electrodes c) (calls c) in
      mkCheck progress false es k
    else mkCheck progress true (electrodes c) (calls c)
  else c.

(** [n] firings. *)
Fixpoint ticks (n : nat) (c : Check) : Check :=
  match n with
  | O => c
  | S n' => ticks n' (tick c)
  end.

End Random.

(** [bciStatus.electrodes] when the module is loaded. *)
Definition initialElectrodes : list Electrode :=
  [ mkElectrode "Fp1" (124#10) 95 good;
    mkElectrode "Fp2" (87#10) 98 good;
    mkElectrode "F3" (152#10) 92 good;
    mkElectrode "F4" (101#10) 97 good;
    mkElectrode "C3" (78#10) 99 good;
    mkElectrode "C4" (113#10) 96 good;
    mkElectrode "P3" (146#10) 91 good;
    mkElectrode "P4" (92#10) 94 good;
    mkElectrode "O1" (185#10) 85 poor;
    mkElectrode "O2" (227#10) 78 poor;
    mkElectrode "T3" (134#10) 93 good;
    mkElectrode "T4" (168#10) 89 moderate;
    mkElectrode "T5" (193#10) 82 poor;
    mkElectrode "T6" (176#10) 87 moderate;
    mkElectrode "Fz" (65#10) 100 good;
    mkElectrode "Cz" (59#10) 100 good;
    mkElectrode "Pz" (98#10) 97 good ].

End BCI.

(** ** Device-status monitor: connection, periodic update and recording
    clock ([bci-status.js]) *)

Module Monitor.

(** The fields of [bciStatus] the monitor reads and writes;
    [signalHistory] and [lastUpdate] are never touched after loading. *)
Record BciStatus := mkStatus {
  connected : bool;
  recordingTime : Z;
  sampleRate : Q;
  electrodes : list BCI.Electrode;
  batteryLevel : Q;
  storageUsed : Q
}.

(** [bciStatus] when the module is loaded. *)
Definition bciStatus : BciStatus :=
  mkStatus true 0 1000 BCI.initialElectrodes 87 42.

(** [toggleConnection()]: the new state and the returned flag. *)
Definition toggleConnection (st : BciStatus) : BciStatus * bool :=
  (mkStatus (negb (connected st)) (recordingTime st) (sampleRate st)
            (electrodes st) (batteryLevel st) (storageUsed st),
   negb (connected st)).

(** [setSampleRate(rate)] *)
Definition setSampleRate (rate : Q) (st : BciStatus) : BciStatus * Q :=
  (mkStatus (connected st) (recordingTime st) rate
            (electrodes st) (batteryLevel st) (storageUsed st),
   rate).

(** [n.toString().padStart(2, '0')] for an integer [n]. *)
Definition pad2 (n : Z) : string :=
  let s := DecimalString.NilZero.string_of_int (Z.to_int n) in
  match String.length s with
  | O => "00"%string
  | S O => String.append "0" s
  | _ => s
  end.

(** Hours, minutes and seconds as [updateRecordingTime] computes them:
    [Math.floor] of a quotient, and the remainder [%] that takes the sign
    of the dividend. *)
Definition recordingClock (t : Z) : Z * Z * Z :=
  ((t / 3600)%Z, (Z.rem t 3600 / 60)%Z, Z.rem t 60).

(** Text [updateRecordingTime] puts in the recording-time element. *)
Definition recordingText (st : BciStatus) : string :=
  if connected st then
    let '(hours, minutes, seconds) := recordingClock (recordingTime st) in
    String.append (pad2 hours)
      (String.append ":" (String.append (pad2 minutes)
         (String.append ":" (pad2 seconds))))
  else "--:--:--"%string.

Section Random.

Variable random : nat -> Q.

(** Body of the [forEach] of the periodic update; [k] calls of
    [Math.random()] were made before. *)
Definition fluctuate (e : BCI.Electrode) (k : nat) : BCI.Electrode * nat :=
  let signal :=
    Qmax 50 (Qmin 100 (BCI.signal e + (random k - (1#2)) * 2)) in
  let impedance :=
    Qmax 5 (Qmin 40 (BCI.impedance e + (random (S k) - (1#2)) * (1#2))) in
  let status :=
    if JS.lt impedance 10 then BCI.good
    else if JS.lt impedance 15 then BCI.good
    else if JS.lt impedance 20 then BCI.moderate
    else BCI.poor in
  (BCI.mkElectrode (BCI.name e) impedance signal status, S (S k)).

Fixpoint fluctuateAll (es : list BCI.Electrode) (k : nat)
  : list BCI.Electrode * nat :=
  match es with
  | [] => ([], k)
  | e :: es' =>
      let (e', k1) := fluctuate e k in
      let (es'', k2) := fluctuateAll es' k1 in
      (e' :: es'', k2)
  end.

(** One firing of the one-second interval armed by [startBCIUpdates]. *)
Definition update (st : BciStatus) (k : nat) : BciStatus * nat :=
  if connected st then
    let recordingTime := (recordingTime st + 1)%Z in
    let batteryLevel :=
      if JS.lt (random k) (1#10)
      then Qmax 0 (batteryLevel st - 1) else batteryLevel st in
    let storageUsed :=
      if JS.lt (random (S k)) (5#100)
      then Qmin 100 (storageUsed st + 1) else storageUsed st in
    let (es, k') := fluctuateAll (electrodes st) (S (S k)) in
    (mkStatus true recordingTime (sampleRate st) es batteryLevel storageUsed,
     k')
  else (st, k).

(** What happens to the monitor: the interval fires or the user toggles
    the connection. *)
Inductive action := Fire | ToggleConnection.

Definition step (a : action) (s : BciStatus * nat) : BciStatus * nat :=
  match a with
  | Fire => update (fst s) (snd s)
  | ToggleConnection => (fst (toggleConnection (fst s)), snd s)
  end.

Definition run (acts : list action) (s : BciStatus * nat) : BciStatus * nat :=
  fold_left (fun s a => step a s) acts s.

End Random.

(** Number of firings of a sequence that find the device connected, from
    the connection flag at its start. *)
Fixpoint connectedFirings (c : bool) (acts : list action) : Z :=
  match acts with
  | [] => 0%Z
  | Fire :: rest => ((if c then 1 else 0) + connectedFirings c rest)%Z
  | ToggleConnection :: rest => connectedFirings (negb c) rest
  end.

(** An electrode as the periodic update leaves it. *)
Definition fluctuated (e : BCI.Electrode) : Prop :=
  5 <= BCI.impedance e /\ BCI.impedance e <= 40 /\
  50 <= BCI.signal e /\ BCI.signal e <= 100 /\
  BCI.e_status e = BCI.statusOf (BCI.impedance e).

(** One update moved the electrode by at most a quarter of a kilo-ohm and
    one percent of signal, and kept its name. *)
Definition small_move (e e' : BCI.Electrode) : Prop :=
  BCI.name e' = BCI.name e /\
  Qabs (BCI.impedance e' - BCI.impedance e) <= 1#4 /\
  Qabs (BCI.signal e' - BCI.signal e) <= 1.

End Monitor.

(** ** Decoder visualization: public interface and processor input *)

Module DecoderAPI.

(** [currentDecoderData]: the five arrays, whether [targets] has been set,
    and the scalar fields. *)
Record State := mkState {
  buffers : Decoder.DecoderData;
  hasTargets : bool;
  accuracy : Q;
  metrics : Dashboard.Metrics;
  trajectoryType : string
}.

(** [currentDecoderData] when the module is loaded. *)
Definition currentDecoderData : State :=
  mkState Decoder.currentDecoderData false (85#100)
          (Dashboard.mkMetrics (25#1000) (78#100) (89#100) (52#10) (1284#10))
          "circular".

(** The object literal the dashboard passes to [updateDecoderData]; an
    absent key is [None]. *)
Record Update := mkUpdate {
  up_accuracy : option Q;
  up_metrics : option Dashboard.Metrics;
  up_trajectoryType : option string
}.

(** A partial metrics object, as [updateMetrics] receives. *)
Record PartialMetrics := mkPartial {
  p_mse : option Q;
  p_r2 : option Q;
  p_correlation : option Q;
  p_decodeTime : option Q;
  p_bitrate : option Q
}.

Definition orElse {A} (x : option A) (y : A) : A :=
  match x with Some v => v | None => y end.

(** [{...currentDecoderData, ...data}] *)
Definition spread (data : Update) (st : State) : State :=
  mkState (buffers st) (hasTargets st)
          (orElse (up_accuracy data) (accuracy st))
          (orElse (up_metrics data) (metrics st))
          (orElse (up_trajectoryType data) (trajectoryType st)).

(** The trajectory type [generateDemoDecoderData] ends up generating: an
    unknown type falls through to [default] and generates "circular". *)
Definition generatedType (type : string) : string :=
  if String.eqb type "circular" then type
  else if String.eqb type "figure8" then type
  else if String.eqb type "reaching" then type
  else "circular"%string.

(** Truthiness of a string. *)
Definition truthy (s : option string) : bool :=
  match s with
  | Some EmptyString => false
  | Some _ => true
  | None => false
  end.

Section Generator.

(** The arrays [generateDemoDecoderData] computes for each of the three
    known types, from trigonometric functions and random noise. *)
Variable demoArrays : string -> Decoder.DecoderData.

(** [generateDemoDecoderData(type)]: arrays replaced, type stored,
    [targets] set by the reaching generator. *)
Definition generateDemoDecoderData (type : string) (st : State) : State :=
  let t := generatedType type in
  mkState (demoArrays t)
          (if String.eqb t "reaching" then true else hasTargets st)
          (accuracy st) (metrics st) t.

(** [updateDecoderData(data)] *)
Definition updateDecoderData (data : option Update) (st : State) : State :=
  match data with
  | Some data =>
      let st := spread data st in
      match up_trajectoryType data with
      | Some type =>
          if truthy (Some type) && negb (String.eqb type (trajectoryType st))
          then generateDemoDecoderData type st
          else st
      | None => st
      end
  | None => st
  end.

(** [setTrajectoryType(type)]: the new state and the returned value. *)
Definition setTrajectoryType (type : string) (st : State) : State * string :=
  (generateDemoDecoderData type
     (mkState (buffers st) (hasTargets st) (accuracy st) (metrics st) type),
   type).

(** [updateMetrics(metrics)] *)
Definition updateMetrics (m : PartialMetrics) (st : State) : State :=
  mkState (buffers st) (hasTargets st) (accuracy st)
          (Dashboard.mkMetrics
             (orElse (p_mse m) (Dashboard.mse (metrics st)))
             (orElse (p_r2 m) (Dashboard.r2 (metrics st)))
             (orElse (p_correlation m) (Dashboard.correlation (metrics st)))
             (orElse (p_decodeTime m) (Dashboard.decodeTime (metrics st)))
             (orElse (p_bitrate m) (Dashboard.bitrate (metrics st))))
          (trajectoryType st).

End Generator.

(** The numbers [updateDecoderMetricsWithConfidence] formats into the
    metric elements. *)
Record Shown := mkShown {
  s_accuracy : Q;
  s_mse : Q;
  s_r2 : Q;
  s_correlation : Q;
  s_bitRate : Q
}.

Definition updateDecoderMetricsWithConfidence (confidence : Q) : Shown :=
  mkShown (85 + confidence * 10)
          ((5#100) - confidence * (4#100))
          ((7#10) + confidence * (2#10))
          ((8#10) + confidence * (15#100))
          (80 + confidence * confidence * 100).

(** What [updateDecoderWithProcessorData(data)] shows: nothing without
    movement parameters, and nothing for a missing or zero confidence. *)
Definition updateDecoderWithProcessorData
           (hasMovementParameters : bool) (confidence : option Q)
  : option Shown :=
  if hasMovementParameters then
    match confidence with
    | Some c => if Qeq_bool c 0 then None
                else Some (updateDecoderMetricsWithConfidence c)
    | None => None
    end
  else None.

End DecoderAPI.

(** ** Vocabulary for runs of the Action-State Engine *)

Module Trace.

Import Engine.

(** Position of a key in [ACTION_VERBS], the order of [for ... in]. *)
Definition rank (a : action) : nat :=
  match a with
  | navigate => 0
  | select => 1
  | modify => 2
  | create => 3
  | delete => 4
  end.

Definition action_eqb (a b : action) : bool := Nat.eqb (rank a) (rank b).

(** The accumulator a class is routed to first by [updateActionStates]. *)
Definition routed (classification : string) : option action :=
  if String.eqb classification "Left Hand" then Some navigate
  else if String.eqb classification "Right Hand" then Some navigate
  else if String.eqb classification "Feet" then Some modify
  else if String.eqb classification "Tongue" then Some select
  else None.

(** Clock reading of the most recent trigger of [a] in a log given newest
    first; 0 when there is none, as [lastTriggered || 0] reads. *)
Fixpoint last_time (a : action) (newest_first : list (action * Z)) : Z :=
  match newest_first with
  | [] => 0%Z
  | (b, t) :: older => if action_eqb a b then t else last_time a older
  end.

(** Whether [a] was ever triggered in the log. *)
Definition triggered_before (a : action) (log : list (action * Z)) : bool :=
  existsb (fun e => action_eqb a (fst e)) log.

(** Every trigger of the log (newest first) came more than 2000 ms after
    the previous trigger of the same action, or after clock reading 0. *)
Fixpoint spaced (newest_first : list (action * Z)) : Prop :=
  match newest_first with
  | [] => True
  | (a, t) :: older => (t - last_time a older > 2000)%Z /\ spaced older
  end.

(** The confidence a classification input carries, [detail.confidence || 0]. *)
Definition input_confidence (i : input) : Q :=
  match i with
  | Classification _ (Some d) => JS.or0 (ev_confidence d)
  | _ => 0
  end.

(** Inputs whose classification events carry a confidence of at most 1. *)
Definition bounded (ins : list input) : Prop :=
  Forall (fun i => input_confidence i <= 1) ins.

(** One round of the loop of [considerTriggeringAction]. *)
Definition pick (v : ActionVerbs) (acc : Q * option action) (name : action)
  : Q * option action :=
  if JS.gt (confidence (get name v)) (fst acc)
     && JS.ge (confidence (get name v)) threshold
  then (confidence (get name v), Some name)
  else acc.

(** What the loop knows after the keys [l]: either nothing reached the
    threshold, or it holds the first key of largest confidence. *)
Definition chosen (v : ActionVerbs) (l : list action)
           (acc : Q * option action) : Prop :=
  match snd acc with
  | None => fst acc = 0 /\ forall b, In b l -> confidence (get b v) < threshold
  | Some a =>
      fst acc = confidence (get a v) /\ threshold <= confidence (get a v) /\
      exists pre post,
        l = pre ++ a :: post /\
        (forall b, In b pre -> confidence (get b v) < confidence (get a v)) /\
        (forall b, In b post -> confidence (get b v) <= confidence (get a v))
  end.

(** [lastTriggered || 0] of an entry. *)
Definition last_of (a : action) (v : ActionVerbs) : Z :=
  match lastTriggered (get a v) with Some t => t | None => 0%Z end.

(** The log is spaced and every entry remembers its last trigger. *)
Definition logged (st : State) : Prop :=
  spaced (rev (fired st)) /\
  forall a, last_of a (verbs st) = last_time a (rev (fired st)).

(** [create] and [delete] are at confidence zero and without direction,
    and no entry has a topic. *)
Definition idle (v : ActionVerbs) : Prop :=
  confidence (get create v) == 0 /\ confidence (get delete v) == 0 /\
  direction (get create v) = None /\ direction (get delete v) = None /\
  forall a, topic (get a v) = None.

(** Every confidence lies between 0 and 1. *)
Definition unit_range (v : ActionVerbs) : Prop :=
  forall a, 0 <= confidence (get a v) /\ confidence (get a v) <= 1.

(** The three keys that are ever routed to. *)
Definition routable (a : action) : Prop :=
  a = navigate \/ a = select \/ a = modify.

End Trace.

(** ** Rounding of floating-point results *)

Module Float.

(** Where a sign, an integer reading or a colour depends on how a product
    or a sum is rounded to a double, the rounding is a function [fl] of
    which only this much is used: it is monotone, it leaves the integers
    of magnitude up to 2^53 as they are, and it leaves its own results as
    they are.  Round-to-nearest is such a function, and so is exact
    arithmetic. *)
Definition rounding (fl : Q -> Q) : Prop :=
  (forall a b, a <= b -> fl a <= fl b) /\
  (forall z : Z, (Z.abs z <= 2 ^ 53)%Z -> fl (inject_Z z) == inject_Z z) /\
  (forall a, fl (fl a) == fl a).

(** [to] lies between zero and [from]. *)
Definition shrunk (from to : Q) : Prop :=
  (0 <= from -> 0 <= to /\ to <= from) /\
  (from <= 0 -> from <= to /\ to <= 0).

End Float.

(** ** Neural signal processor: simulation tick and decoder bridge
    ([neural-signal-processor.js]) *)

Module SignalProcessor.

(** [CONFIG] *)
Definition updateInterval : Q := 500.
Definition maxHistoryPoints : nat := 50.
Definition classLabels : list string :=
  ["Left Hand"; "Right Hand"; "Feet"; "Tongue"; "Rest"]%string.

(** An entry of [CONFIG.decoderBridge.classToMovementMap]. *)
Record Movement := mkMovement { x : Q; y : Q }.

(** The table, keys in insertion order. *)
Definition MovementMap := list (string * Movement).

Definition classToMovementMap : MovementMap :=
  [("Left Hand"%string, mkMovement (-1) 0);
   ("Right Hand"%string, mkMovement 1 0);
   ("Feet"%string, mkMovement 0 (-1));
   ("Tongue"%string, mkMovement 0 1);
   ("Rest"%string, mkMovement 0 0)].

(** [map[key]] on the table's own keys. *)
Fixpoint lookup (key : string) (m : MovementMap) : option Movement :=
  match m with
  | [] => None
  | (k, v) :: rest => if String.eqb key k then Some v else lookup key rest
  end.

(** The object stored under [key] is changed in place. *)
Fixpoint store (key : string) (v : Movement) (m : MovementMap) : MovementMap :=
  match m with
  | [] => []
  | (k, w) :: rest =>
      if String.eqb key k then (k, v) :: rest else (k, w) :: store key v rest
  end.

(** [processorData.movementParameters] *)
Record MovementParameters := mkParameters {
  p_x : Q;
  p_y : Q;
  velocity : option Q
}.

(** [processorData.frequencyBands], keys in insertion order. *)
Record Bands := mkBands {
  delta : list Q;
  theta : list Q;
  alpha : list Q;
  beta : list Q;
  gamma : list Q
}.

(** An element of [processorData.decodedOutputHistory]. *)
Record Point := mkPoint { time : Q; values : list Q }.

(** [average(arr)]; the empty array gives [0 / 0]. *)
Definition average (arr : list Q) : option Q :=
  JS.div (JS.sum arr) (inject_Z (Z.of_nat (length arr))).

(** The feature object built by [extractFeaturesForDecoder]. *)
Inductive Features :=
| Transformer (attentionMatrix : option (list (list (option Q))))
              (bandPowers_alpha bandPowers_beta : option Q)
              (classificationResult : option string) (confidence : Q)
| Traditional (f_delta f_theta f_alpha f_beta f_gamma : option Q)
              (classificationResult : option string) (confidence : Q).


Definition features_confidence (f : Features) : Q :=
  match f with
  | Transformer _ _ _ _ c => c
  | Traditional _ _ _ _ _ _ c => c
  end.

(** Alpha and beta band powers, present in both kinds of feature object. *)
Definition features_alpha (f : Features) : option Q :=
  match f with
  | Transformer _ a _ _ _ => a
  | Traditional _ _ a _ _ _ _ => a
  end.

Definition features_beta (f : Features) : option Q :=
  match f with
  | Transformer _ _ b _ _ => b
  | Traditional _ _ _ b _ _ _ => b
  end.

(** Events the simulation publishes on [document]; the [timestamp] field
    of their detail is read by no listener and is left out. *)
Inductive Event :=
| ClassificationUpdated (class : option string) (confidence : Q)
| FeaturesExtracted (features : Features)
                    (movementParameters : MovementParameters).

(** [processorData], the two module variables of the timer, and the
    mutable part of [CONFIG.decoderBridge].  [classificationResult] is
    [None] when it is [undefined]. *)
Record State := mkState {
  processorActive : bool;
  timers : nat;
  classificationResult : option string;
  confidence : Q;
  frequencyBands : Bands;
  decodedOutputHistory : list Point;
  attentionWeights : list (list (list (option Q)));
  decoderFeatures : option Features;
  movementParameters : MovementParameters;
  enabled : bool;
  featureExtractionMethod : string;
  movementMap : MovementMap
}.

Definition set_active (b : bool) (n : nat) (st : State) : State :=
  mkState b n (classificationResult st) (confidence st) (frequencyBands st)
          (decodedOutputHistory st) (attentionWeights st) (decoderFeatures st)
          (movementParameters st) (enabled st) (featureExtractionMethod st)
          (movementMap st).

Definition set_classification (c : option string) (q : Q) (st : State)
  : State :=
  mkState (processorActive st) (timers st) c q (frequencyBands st)
          (decodedOutputHistory st) (attentionWeights st) (decoderFeatures st)
          (movementParameters st) (enabled st) (featureExtractionMethod st)
          (movementMap st).

Definition set_frequencyBands (b : Bands) (st : State) : State :=
  mkState (processorActive st) (timers st) (classificationResult st)
          (confidence st) b
          (decodedOutputHistory st) (attentionWeights st) (decoderFeatures st)
          (movementParameters st) (enabled st) (featureExtractionMethod st)
          (movementMap st).

Definition set_history (h : list Point) (st : State) : State :=
  mkState (processorActive st) (timers st) (classificationResult st)
          (confidence st) (frequencyBands st)
          h (attentionWeights st) (decoderFeatures st)
          (movementParameters st) (enabled st) (featureExtractionMethod st)
          (movementMap st).

Definition set_attentionWeights (w : list (list (list (option Q))))
           (st : State) : State :=
  mkState (processorActive st) (timers st) (classificationResult st)
          (confidence st) (frequencyBands st)
          (decodedOutputHistory st) w (decoderFeatures st)
          (movementParameters st) (enabled st) (featureExtractionMethod st)
          (movementMap st).

Definition set_enabled (b : bool) (st : State) : State :=
  mkState (processorActive st) (timers st) (classificationResult st)
          (confidence st) (frequencyBands st)
          (decodedOutputHistory st) (attentionWeights st) (decoderFeatures st)
          (movementParameters st) b (featureExtractionMethod st)
          (movementMap st).

Definition set_decoder (f : Features) (p : MovementParameters)
           (m : MovementMap) (st : State) : State :=
  mkState (processorActive st) (timers st) (classificationResult st)
          (confidence st) (frequencyBands st)
          (decodedOutputHistory st) (attentionWeights st) (Some f)
          p (enabled st) (featureExtractionMethod st) m.

(** [arr.map(f)] for an [f] that calls [Math.random()]. *)
Fixpoint mapGen {A B} (f : A -> Processor.Gen B) (l : list A)
  : Processor.Gen (list B) :=
  fun k =>
    match l with
    | [] => ([], k)
    | a :: l' =>
        let (b, k1) := f a k in
        let (bs, k2) := mapGen f l' k1 in
        (b :: bs, k2)
    end.

(** [arr.indexOf(s)] counted from [i]; [None] stands for -1. *)
Fixpoint indexOf (l : list string) (s : string) (i : nat) : option nat :=
  match l with
  | [] => None
  | a :: l' => if String.eqb a s then Some i else indexOf l' s (S i)
  end.

(** [while (h.length > 0 && h[0].time > 0) h.shift()] *)
Fixpoint removeOld (h : list Point) : list Point :=
  match h with
  | [] => []
  | p :: rest => if JS.gt (time p) 0 then removeOld rest else h
  end.

(** [CONFIG.classLabels[classIndex]] for the integer [classIndex]. *)
Definition labelAt (classIndex : Z) : option string :=
  if (classIndex <? 0)%Z then None
  else nth_error classLabels (Z.to_nat classIndex).

(** What one call of the history update does to the list of times. *)
Fixpoint removeOldTimes (ts : list Q) : list Q :=
  match ts with
  | [] => []
  | t :: rest => if JS.gt t 0 then removeOldTimes rest else ts
  end.

Definition stepTimes (ts : list Q) : list Q :=
  removeOldTimes (map (fun t => t + updateInterval / 1000) ts)
  ++ [- (updateInterval / 1000)].

(** The times [initDecodedOutputChart] gives its points. *)
Definition initialTimes : list Q :=
  map (fun i => - inject_Z (Z.of_nat i) * (updateInterval / 1000))
      (seq 0 maxHistoryPoints).

(** Whether a list of times has fifty entries, one of them at
    [(n - 2) / 2] seconds. *)
Definition fifty_with_future (n : nat) (ts : list Q) : bool :=
  Nat.eqb (length ts) 50
  && existsb (Qeq_bool ((inject_Z (Z.of_nat n) - 2) / 2)) ts.

Section Random.

(** Value returned by the [k]-th call of [Math.random()]. *)
Variable random : nat -> Q.

(** The rounding of a product to a double, and [Math.sqrt(x * x + y * y)]
    as it is computed from two doubles. *)
Variable fl : Q -> Q.
Variable hypot : Q -> Q -> Q.

(** [generateRandomBandPowers(minFreq, maxFreq)]; the arguments are not
    used. *)
Definition generateRandomBandPowers : Processor.Gen (list Q) :=
  Processor.fillMap 10 (fun k => (20 + random k * 60, S k)).

Definition generateBands : Processor.Gen Bands :=
  fun k =>
    let (d, k1) := generateRandomBandPowers k in
    let (t, k2) := generateRandomBandPowers k1 in
    let (a, k3) := generateRandomBandPowers k2 in
    let (b, k4) := generateRandomBandPowers k3 in
    let (g, k5) := generateRandomBandPowers k4 in
    (mkBands d t a b g, k5).

(** The callback of [updateFrequencyBands]. *)
Definition fluctuate (value : Q) : Processor.Gen Q :=
  fun k =>
    let change := (random k - (1#2)) * 10 in
    (Qmax 0 (Qmin 100 (value + change)), S k).

(** [updateFrequencyBands()] *)
Definition updateFrequencyBands (b : Bands) : Processor.Gen Bands :=
  fun k =>
    let (d, k1) := mapGen fluctuate (delta b) k in
    let (t, k2) := mapGen fluctuate (theta b) k1 in
    let (a, k3) := mapGen fluctuate (alpha b) k2 in
    let (be, k4) := mapGen fluctuate (beta b) k3 in
    let (g, k5) := mapGen fluctuate (gamma b) k4 in
    (mkBands d t a be g, k5).

(** [simulateClassification()]: the new class and confidence, and the
    event published, if any. *)
Definition simulateClassification (classification : option string)
           (conf : Q)
  : Processor.Gen (option string * Q * list Event) :=
  fun k =>
    if JS.lt (random k) (1#10) then
      let classIndex := Qfloor (random (S k) * 5) in
      let classification := labelAt classIndex in
      let conf := (1#2) + random (S (S k)) * (1#2) in
      (classification, conf, [ClassificationUpdated classification conf],
       S (S (S k)))
    else
      (classification,
       Qmin 1 (Qmax (1#2) (conf + (random (S k) - (1#2)) * (1#10))),
       [], S (S k)).

(** [updateDecodedOutputHistory()]; the chart datasets it refreshes are
    display. *)
Definition updateDecodedOutputHistory (classification : option string)
           (h : list Point) : Processor.Gen (list Point) :=
  fun k =>
    let timeStep := updateInterval / 1000 in
    let h := map (fun point => mkPoint (time point + timeStep) (values point))
                 h in
    let h := removeOld h in
    let classIndex :=
      match classification with
      | Some c => indexOf classLabels c 0
      | None => None
      end in
    let (newValues, k') :=
      mapGen (fun idx k =>
                if match classIndex with
                   | Some i => Nat.eqb idx i
                   | None => false
                   end
                then (7 + random k * 3, S k)
                else (random k * 5, S k))
             (seq 0 (length classLabels)) k in
    (h ++ [mkPoint (- timeStep) newValues], k').

(** The history [initDecodedOutputChart] puts in place. *)
Definition initDecodedOutputChart : Processor.Gen (list Point) :=
  mapGen (fun i k =>
            let (vs, k') :=
              mapGen (fun _ k => (random k * 10, S k)) classLabels k in
            (mkPoint (- inject_Z (Z.of_nat i) * (updateInterval / 1000)) vs,
             k'))
         (seq 0 maxHistoryPoints).

(** [processorData] when the module is loaded, the chart initialised. *)
Definition processorData : Processor.Gen State :=
  fun k =>
    let (bands, k1) := generateBands k in
    let (weights, k2) := Processor.generateRandomAttentionMatrix random 8 k1 in
    let (history, k3) := initDecodedOutputChart k2 in
    (mkState false 0 (Some "Idle"%string) 0 bands history weights None
             (mkParameters 0 0 (Some 0)) true "transformer"
             classToMovementMap,
     k3).

(** [updateMovementParameters()], from the current class and confidence:
    the table afterwards and the parameters stored.  The vector taken
    from the table is the table's own object, so scaling it scales the
    entry; the default vector is a fresh object. *)
Definition updateMovementParameters (classification : option string)
           (confidence : Q) (m : MovementMap)
  : MovementMap * MovementParameters :=
  let scaled mv :=
    mkMovement (fl (x mv * confidence)) (fl (y mv * confidence)) in
  let parameters mv :=
    mkParameters (x mv) (y mv) (Some (hypot (x mv) (y mv))) in
  match classification with
  | Some c =>
      match lookup c m with
      | Some movement =>
          (store c (scaled movement) m, parameters (scaled movement))
      | None => (m, parameters (scaled (mkMovement 0 0)))
      end
  | None => (m, parameters (scaled (mkMovement 0 0)))
  end.

(** [extractFeaturesForDecoder()] past its guard: the feature object. *)
Definition extractFeatures (st : State) : Features :=
  if String.eqb (featureExtractionMethod st) "transformer" then
    Transformer (hd_error (attentionWeights st))
                (average (alpha (frequencyBands st)))
                (average (beta (frequencyBands st)))
                (classificationResult st) (confidence st)
  else
    Traditional (average (delta (frequencyBands st)))
                (average (theta (frequencyBands st)))
                (average (alpha (frequencyBands st)))
                (average (beta (frequencyBands st)))
                (average (gamma (frequencyBands st)))
                (classificationResult st) (confidence st).

(** [extractFeaturesForDecoder()] *)
Definition extractFeaturesForDecoder (st : State) : State * option Features :=
  if negb (enabled st) then (st, None)
  else
    let features := extractFeatures st in
    let (m, p) := updateMovementParameters (classificationResult st)
                                           (confidence st) (movementMap st) in
    (set_decoder features p m st, Some features).

(** [sendFeaturesToDecoder()] *)
Definition sendFeaturesToDecoder (st : State) : State * list Event :=
  if negb (enabled st) then (st, [])
  else
    match extractFeaturesForDecoder st with
    | (st, Some features) =>
        (st, [FeaturesExtracted features (movementParameters st)])
    | (st, None) => (st, [])
    end.

(** How a call ended: the state it left, the events it had published,
    and whether it ended by an exception. *)
Record Result := mkResult {
  after : State;
  published : list Event;
  thrown : bool
}.

(** The first three steps of [simulateSignalProcessing()]: frequency
    bands, classification and output history. *)
Definition simulateSignals (st : State)
  : Processor.Gen (State * list Event) :=
  fun k =>
    let (bands, k1) := updateFrequencyBands (frequencyBands st) k in
    let st := set_frequencyBands bands st in
    let '(classification, conf, published, k2) :=
      simulateClassification (classificationResult st) (confidence st) k1 in
    let st := set_classification classification conf st in
    let (history, k3) :=
      updateDecodedOutputHistory (classificationResult st)
                                 (decodedOutputHistory st) k2 in
    (set_history history st, published, k3).

(** [processorData.attentionWeights[layerIndex]] as
    [updateAttentionHeatmap] reads it; [None] is [undefined]. *)
Definition headAt (weights : list (list (list (option Q))))
           (layerIndex : option nat) : option (list (list (option Q))) :=
  match layerIndex with
  | Some l => nth_error weights l
  | None => None
  end.

(** Whether weights redrawn for [numHeads] heads have a head at index
    [currentLayer]. *)
Definition headShown (numHeads currentLayer : option nat) : bool :=
  match numHeads, currentLayer with
  | Some n, Some l => (l <? n)%nat
  | _, _ => false
  end.

(** [simulateSignalProcessing()].  [numHeads] and [currentLayer] are what
    [parseInt] reads from the attention-heads field and from the layer
    selector: [None] when it is not a count.  When the weights are
    redrawn, [Array(numHeads)] throws for an unreadable head count, and
    [updateAttentionHeatmap(currentLayer)] throws when the new weights
    have no head at that index; either way the call ends there, before
    the features are sent. *)
Definition simulateSignalProcessing (numHeads currentLayer : option nat)
           (st : State) : Processor.Gen Result :=
  fun k =>
    let '(st, published, k3) := simulateSignals st k in
    if JS.lt (random k3) (3#10) then
      match numHeads with
      | Some n =>
          let (weights, k4) :=
            Processor.generateRandomAttentionMatrix random n (S k3) in
          let st := set_attentionWeights weights st in
          match headAt weights currentLayer with
          | Some _ =>
              let (st, sent) := sendFeaturesToDecoder st in
              (mkResult st (published ++ sent) false, k4)
          | None => (mkResult st published true, k4)
          end
      | None => (mkResult st published true, S k3)
      end
    else
      let (st, sent) := sendFeaturesToDecoder st in
      (mkResult st (published ++ sent) false, S k3).

(** [processorTick()] *)
Definition processorTick (numHeads currentLayer : option nat) (st : State)
  : Processor.Gen Result :=
  fun k =>
    if negb (processorActive st) then (mkResult st [] false, k)
    else simulateSignalProcessing numHeads currentLayer st k.

(** [startProcessor()]: one more interval is armed. *)
Definition startProcessor (st : State) : State :=
  if negb (processorActive st) then set_active true (S (timers st)) st
  else st.

(** [stopProcessor()]: the interval last armed is cleared. *)
Definition stopProcessor (st : State) : State :=
  if processorActive st then set_active false (pred (timers st)) st
  else st.

(** [resetProcessor()] *)
Definition resetProcessor (st : State) : Processor.Gen State :=
  fun k =>
    let st := if processorActive st then stopProcessor st else st in
    let st := set_classification (Some "Idle"%string) 0 st in
    let (bands, k') := generateBands k in
    (set_frequencyBands bands st, k').

(** What happens to the processor: the three buttons, the bridge
    checkbox, and a firing of the interval, with what the two fields of
    the attention panel hold at that moment. *)
Inductive action :=
| Start
| Stop
| Reset
| Bridge (checked : bool)
| Tick (numHeads currentLayer : option nat).

(** A page: the processor, the number of calls of [Math.random()] made,
    and the events the simulation has published so far, oldest first.
    The readiness notification that ticking the bridge checkbox sends
    again carries no processor data and is not logged. *)
Definition Page := (State * nat * list Event)%type.

Definition step (a : action) (p : Page) : Page :=
  let '(st, k, log) := p in
  match a with
  | Start => (startProcessor st, k, log)
  | Stop => (stopProcessor st, k, log)
  | Reset => let (st', k') := resetProcessor st k in (st', k', log)
  | Bridge checked => (set_enabled checked st, k, log)
  | Tick numHeads currentLayer =>
      if (0 <? timers st)%nat then
        let (r, k') := processorTick numHeads currentLayer st k in
        (after r, k', log ++ published r)
      else p
  end.

Definition run (acts : list action) (p : Page) : Page :=
  fold_left (fun p a => step a p) acts p.

(** The page once the module is loaded and initialised. *)
Definition load : Page :=
  let (st, k) := processorData 0%nat in (st, k, []).

(** The history after the updates of a run of ticks, given the class
    current at each of them. *)
Fixpoint updates (classes : list (option string)) (h : list Point)
  : Processor.Gen (list Point) :=
  fun k =>
    match classes with
    | [] => (h, k)
    | c :: rest =>
        let (h', k') := updateDecodedOutputHistory c h k in
        updates rest h' k'
    end.

End Random.

(** The table after a run of movement updates, given the class and the
    confidence current at each of them. *)
Definition scaleAll (fl : Q -> Q) (hypot : Q -> Q -> Q)
           (ticks : list (option string * Q)) (m : MovementMap)
  : MovementMap :=
  fold_left (fun m t =>
               fst (updateMovementParameters fl hypot (fst t) (snd t) m))
            ticks m.

(** Product of the confidences of the ticks whose class was [c]. *)
Definition shrink (c : string) (ticks : list (option string * Q)) : Q :=
  fold_left (fun acc t =>
               match fst t with
               | Some c' => if String.eqb c' c then acc * snd t else acc
               | None => acc
               end)
            ticks 1.

(** A value between 0 and 100. *)
Definition percent (v : Q) : Prop := 0 <= v /\ v <= 100.

(** The band arrays hold ten powers each, between 0 and 100. *)
Definition ten_percent (l : list Q) : Prop :=
  length l = 10%nat /\ Forall percent l.

Definition bands_ok (b : Bands) : Prop :=
  ten_percent (delta b) /\ ten_percent (theta b) /\ ten_percent (alpha b) /\
  ten_percent (beta b) /\ ten_percent (gamma b).

(** Every vector of the table lies along an axis. *)
Definition axis (mv : Movement) : Prop := x mv == 0 \/ y mv == 0.

(** One interval is live exactly while the processor is active. *)
Definition one_timer (st : State) : Prop :=
  timers st = if processorActive st then 1%nat else 0%nat.

(** A coordinate between -1 and 1. *)
Definition within_unit (v : Q) : Prop := -1 <= v /\ v <= 1.

(** A vector along an axis with coordinates between -1 and 1. *)
Definition vector_ok (mv : Movement) : Prop :=
  axis mv /\ within_unit (x mv) /\ within_unit (y mv).

Definition table_ok (m : MovementMap) : Prop :=
  Forall (fun kv => vector_ok (snd kv)) m.

(** The coordinates of a stored vector are doubles. *)
Definition stored (fl : Q -> Q) (mv : Movement) : Prop :=
  fl (x mv) == x mv /\ fl (y mv) == y mv.

(** A well-formed event: a classification carries one of the labels and a
    confidence between one half and 1; a feature bundle carries a
    confidence between one half and 1, alpha and beta powers between 0
    and 100, and a movement along an axis with coordinates between -1
    and 1. *)
Definition event_ok (e : Event) : Prop :=
  match e with
  | ClassificationUpdated c q =>
      (exists label, In label classLabels /\ c = Some label) /\
      1#2 <= q /\ q <= 1
  | FeaturesExtracted f p =>
      (1#2 <= features_confidence f /\ features_confidence f <= 1) /\
      (exists a, features_alpha f = Some a /\ percent a) /\
      (exists b, features_beta f = Some b /\ percent b) /\
      vector_ok (mkMovement (p_x p) (p_y p))
  end.

(** What holds of the processor in every state of a running page. *)
Definition state_ok (st : State) : Prop :=
  one_timer st /\ bands_ok (frequencyBands st) /\
  table_ok (movementMap st) /\
  (confidence st == 0 \/ (1#2 <= confidence st /\ confidence st <= 1)).

Definition page_ok (p : Page) : Prop :=
  state_ok (fst (fst p)) /\ Forall event_ok (snd p).

(** How the engine of [neuro-llama.js] receives an event of the
    processor, at clock reading [now] (the events of one firing are
    handled in the same run of the event loop); [seen] is the feature
    bundle as the engine keeps it. *)
Definition toEngine (seen : Features -> Engine.FeatureBundle) (now : Z)
           (e : Event) : Engine.input :=
  match e with
  | ClassificationUpdated c q =>
      Engine.Classification now
        (Some (Engine.mkClassification c (Some q)))
  | FeaturesExtracted f _ =>
      Engine.Features now (Some (Engine.mkFeaturesDetail (Some (seen f))))
  end.

End SignalProcessor.

(** ** What a triggered action does ([neuro-llama.js]) *)

Module Actions.

Import Engine.

(** What a call of [triggerAction] does besides the feedback sound and
    the flash of the prompt input. *)
Inductive Effect :=
| SuggestPrompt (type : option string)
| AdjustTemperature (delta : Q)
| ClearRecentHistory
| SendPromptToLLaMA
| ClearConversation
| NoEffect.

(** [triggerAction(action, actionState)]; [promptEmpty] tells whether
    the prompt input holds the empty string. *)
Definition triggerAction (a : action) (actionState : ActionState)
           (promptEmpty : bool) : Effect :=
  match a with
  | navigate =>
      match direction actionState with
      | Some d =>
          if String.eqb d "forward" then
            if promptEmpty then SuggestPrompt None
            else AdjustTemperature (1#10)
          else if String.eqb d "backward" then
            if negb promptEmpty then AdjustTemperature (- (1#10))
            else ClearRecentHistory
          else NoEffect
      | None => NoEffect
      end
  | select =>
      if negb promptEmpty then SendPromptToLLaMA else SuggestPrompt None
  | modify =>
      match direction actionState with
      | Some d =>
          if String.eqb d "increase" then AdjustTemperature (2#10)
          else if String.eqb d "decrease" then AdjustTemperature (- (2#10))
          else NoEffect
      | None => NoEffect
      end
  | create => SuggestPrompt (Some "creative"%string)
  | delete => ClearConversation
  end.

(** [adjustTemperature(delta)] on [neuroLLaMA.modelConfig.temperature]. *)
Definition adjustTemperature (delta : Q) (temperature : Q) : Q :=
  Qmin (Qmax (temperature + delta) (1#10)) (15#10).

(** The temperature after an effect. *)
Definition applyEffect (e : Effect) (temperature : Q) : Q :=
  match e with
  | AdjustTemperature delta => adjustTemperature delta temperature
  | _ => temperature
  end.

(** An accumulator that has been raised has been given a direction. *)
Definition directed (v : ActionVerbs) : Prop :=
  (0 < confidence (get navigate v) ->
   direction (get navigate v) = Some "forward"%string \/
   direction (get navigate v) = Some "backward"%string) /\
  (0 < confidence (get modify v) ->
   direction (get modify v) = Some "increase"%string \/
   direction (get modify v) = Some "decrease"%string).

End Actions.

(** ** Decoder side of the processor bridge (decoder visualization) *)

Module Bridge.

(** [handleProcessorFeatures(event)] for the detail of a feature bundle
    published by the processor: what the decoder then shows.
    [useProcessorInput] is [NEURAL_PROCESSOR_BRIDGE.useProcessorInput]. *)
Definition handleProcessorFeatures (useProcessorInput : bool)
           (e : SignalProcessor.Event) : option DecoderAPI.Shown :=
  match e with
  | SignalProcessor.FeaturesExtracted features _ =>
      if useProcessorInput then
        DecoderAPI.updateDecoderWithProcessorData
          true (Some (SignalProcessor.features_confidence features))
      else None
  | SignalProcessor.ClassificationUpdated _ _ => None
  end.

End Bridge.

(** ** Resource panel ([dashboard.js]) *)

Module Resources.

Section Rounded.

(** The rounding of a product and of a sum to a double. *)
Variable fl : Q -> Q.

(** The numbers [updateResourceMetrics] derives from one draw each:
    [Math.floor(Math.random() * a + b)]. *)
Definition reading (a b : Z) (r : Q) : Z :=
  Qfloor (fl (fl (r * inject_Z a) + inject_Z b)).

Definition cpuUsage (r : Q) : Z := reading 30 30 r.
Definition gpuTemp (r : Q) : Z := reading 10 60 r.
Definition gpuUtil (r : Q) : Z := reading 20 75 r.

End Rounded.

(** The three colours of a temperature reading. *)
Inductive colour := error | warning | info.

Definition tempColour (newTemp : Z) : colour :=
  if (newTemp >? 75)%Z then error
  else if (newTemp >? 65)%Z then warning
  else info.

End Resources.

(** ** Conversation history ([neuro-llama.js]) *)

Module Conversation.

(** The conversation fields of [neuroLLaMA], the value of the prompt
    input, and the response texts whose typing effect is still running,
    in the order they were started. *)
Record State := mkState {
  promptHistory : list string;
  responseHistory : list string;
  currentPrompt : string;
  lastResponse : string;
  thinking : bool;
  streamingResponse : bool;
  promptInput : string;
  typing : list string
}.

Definition init : State :=
  mkState [] [] EmptyString EmptyString false false EmptyString [].

(** [arr.pop()] *)
Definition pop {A} (l : list A) : list A := removelast l.

(** The list without its [i]-th element. *)
Fixpoint removeAt {A} (i : nat) (l : list A) : list A :=
  match l, i with
  | [], _ => []
  | _ :: rest, O => rest
  | a :: rest, S i' => a :: removeAt i' rest
  end.

(** What [updateConversationDisplay] puts in the output area: every
    prompt, with the response of the same index when there is one. *)
Fixpoint displayed (prompts responses : list string)
  : list (string * option string) :=
  match prompts with
  | [] => []
  | p :: ps =>
      match responses with
      | [] => (p, None) :: displayed ps []
      | r :: rs => (p, Some r) :: displayed ps rs
      end
  end.

(** [clearRecentHistory()] *)
Definition clearRecentHistory (st : State) : State :=
  match promptHistory st with
  | [] => st
  | _ :: _ =>
      mkState (pop (promptHistory st)) (pop (responseHistory st))
              (currentPrompt st) (lastResponse st) (thinking st)
              (streamingResponse st) (promptInput st) (typing st)
  end.

(** [clearConversation()]; a typing effect that is running goes on. *)
Definition clearConversation (st : State) : State :=
  mkState [] [] EmptyString EmptyString (thinking st)
          (streamingResponse st) (promptInput st) (typing st).

(** The last firing of the interval of a typing effect, for the [i]-th
    of the texts being typed. *)
Definition typingDone (i : nat) (st : State) : State :=
  match nth_error (typing st) i with
  | Some text =>
      mkState (promptHistory st) (responseHistory st ++ [text])
              (currentPrompt st) text false false (promptInput st)
              (removeAt i (typing st))
  | None => st
  end.

Section Texts.

(** [s.trim()], and the text [simulateLLaMAResponse] builds for a prompt
    (from the prompt and the concepts of the class current at that
    moment). *)
Variable trim : string -> string.
Variable respond : string -> string.

(** [sendPromptToLLaMA()] *)
Definition sendPromptToLLaMA (st : State) : State :=
  let prompt := trim (promptInput st) in
  if String.eqb prompt EmptyString then st
  else
    mkState (promptHistory st ++ [prompt]) (responseHistory st)
            prompt (lastResponse st) true true EmptyString
            (typing st ++ [respond prompt]).

(** What happens to the conversation: the prompt input is given a value,
    the prompt is sent (button, Enter key or a triggered select), a
    typing effect ends, the last exchange is dropped (a triggered
    navigate backward), the conversation is cleared (button). *)
Inductive action :=
| Input (s : string)
| Submit
| Typed (i : nat)
| ClearRecent
| Clear.

Definition step (a : action) (st : State) : State :=
  match a with
  | Input s =>
      mkState (promptHistory st) (responseHistory st) (currentPrompt st)
              (lastResponse st) (thinking st) (streamingResponse st) s
              (typing st)
  | Submit => sendPromptToLLaMA st
  | Typed i => typingDone i st
  | ClearRecent => clearRecentHistory st
  | Clear => clearConversation st
  end.

Definition run (acts : list action) (st : State) : State :=
  fold_left (fun s a => step a s) acts st.

(** Every started response is stored or still being typed, in the order
    of the prompts. *)
Definition aligned (st : State) : Prop :=
  responseHistory st ++ typing st = map respond (promptHistory st).

End Texts.

(** Nothing is cleared, and the typing effects end in the order they
    were started. *)
Definition in_order (a : action) : Prop :=
  match a with
  | Input _ | Submit | Typed O => True
  | _ => False
  end.

End Conversation.

(** * Properties *)

(** ** Comparisons *)

Lemma gt_true_iff (a b : Q) : JS.gt a b = true <-> b < a.
Proof.
  unfold JS.gt. rewrite negb_true_iff.
  split; intro H.
  - apply Qnot_le_lt. intro Hle. apply Qle_bool_iff in Hle. congruence.
  - destruct (Qle_bool a b) eqn:E; [|reflexivity].
    apply Qle_bool_iff in E. lra.
Qed.

Lemma gt_false_iff (a b : Q) : JS.gt a b = false <-> a <= b.
Proof.
  unfold JS.gt. rewrite negb_false_iff. apply Qle_bool_iff.
Qed.

Lemma lt_true_iff (a b : Q) : JS.lt a b = true <-> a < b.
Proof. unfold JS.lt. apply (gt_true_iff b a). Qed.

Lemma lt_false_iff (a b : Q) : JS.lt a b = false <-> b <= a.
Proof. unfold JS.lt. apply (gt_false_iff b a). Qed.

Lemma ge_true_iff (a b : Q) : JS.ge a b = true <-> b <= a.
Proof. unfold JS.ge. apply Qle_bool_iff. Qed.

Lemma ge_false_iff (a b : Q) : JS.ge a b = false <-> a < b.
Proof.
  unfold JS.ge. split; intro H.
  - apply Qnot_le_lt. intro Hle. apply Qle_bool_iff in Hle. congruence.
  - destruct (Qle_bool b a) eqn:E; [|reflexivity].
    apply Qle_bool_iff in E. lra.
Qed.

(** ** Action-State Engine *)

Import Engine.

Lemma get_for_in (f : ActionState -> ActionState) (v : ActionVerbs) (a : action) :
  get a (for_in f v) = f (get a v).
Proof. destruct a; reflexivity. Qed.

Lemma get_update_same (a : action) f v : get a (update a f v) = f (get a v).
Proof. destruct a; reflexivity. Qed.

Lemma get_update_other (a b : action) f v :
  a <> b -> get a (update b f v) = get a v.
Proof. destruct a, b; intros H; try reflexivity; exfalso; apply H; reflexivity. Qed.

(** The last loop of [updateActionStates] decides [active] for every
    entry, whatever came before. *)
Lemma updateActionStates_active cls c v a :
  active (get a (updateActionStates cls c v))
  = JS.gt (confidence (get a (updateActionStates cls c v))) (6#10).
Proof.
  unfold updateActionStates. rewrite get_for_in. reflexivity.
Qed.

(** What [updateActionStates] does to the other fields of an entry. *)
Lemma updateActionStates_keeps cls c v a :
  triggered (get a (updateActionStates cls c v)) = triggered (get a v) /\
  lastTriggered (get a (updateActionStates cls c v)) = lastTriggered (get a v) /\
  topic (get a (updateActionStates cls c v)) = topic (get a v).
Proof.
  unfold updateActionStates. rewrite get_for_in.
  destruct cls as [s|]; [|destruct a; repeat split; reflexivity].
  repeat match goal with
         | |- context [String.eqb s ?x] => destruct (String.eqb s x)
         end; destruct a; repeat split; reflexivity.
Qed.

(** A call without a class only decays. *)
Lemma updateActionStates_no_class c v a :
  get a (updateActionStates None c v)
  = mkAction (confidence (get a v) * (9#10)) (direction (get a v))
             (topic (get a v))
             (JS.gt (confidence (get a v) * (9#10)) (6#10))
             (triggered (get a v)) (lastTriggered (get a v)).
Proof. destruct a; reflexivity. Qed.

Lemma updateActionStates_rest c v a :
  get a (updateActionStates (Some "Rest"%string) c v)
  = mkAction (confidence (get a v) * (9#10) * (8#10)) (direction (get a v))
             (topic (get a v))
             (JS.gt (confidence (get a v) * (9#10) * (8#10)) (6#10))
             (triggered (get a v)) (lastTriggered (get a v)).
Proof. destruct a; reflexivity. Qed.

Lemma updateActionStates_right_navigate c v :
  get navigate (updateActionStates (Some "Right Hand"%string) c v)
  = mkAction (Qmax (confidence (v_navigate v) * (9#10)) c)
             (Some "forward"%string) (topic (v_navigate v))
             (JS.gt (Qmax (confidence (v_navigate v) * (9#10)) c) (6#10))
             (triggered (v_navigate v)) (lastTriggered (v_navigate v)).
Proof. reflexivity. Qed.

Lemma updateActionStates_right_others c v a :
  a <> navigate ->
  get a (updateActionStates (Some "Right Hand"%string) c v)
  = mkAction (confidence (get a v) * (9#10)) (direction (get a v))
             (topic (get a v))
             (JS.gt (confidence (get a v) * (9#10)) (6#10))
             (triggered (get a v)) (lastTriggered (get a v)).
Proof. destruct a; intros H; try reflexivity; exfalso; apply H; reflexivity. Qed.

(** Closes a goal about one entry of [ACTION_VERBS] with a fact stated for
    all entries. *)
Ltac entrywise H :=
  first [apply (H navigate) | apply (H select) | apply (H modify)
        | apply (H create) | apply (H delete)].

(** Confidences never become negative. *)
Lemma updateActionStates_nonneg cls c v :
  (forall a, 0 <= confidence (get a v)) ->
  forall a, 0 <= confidence (get a (updateActionStates cls c v)).
Proof.
  intros Hv a.
  assert (H9 : forall b, 0 <= confidence (get b v) * (9#10)).
  { intro b. specialize (Hv b). nra. }
  assert (H8 : forall b, 0 <= confidence (get b v) * (9#10) * (8#10)).
  { intro b. specialize (H9 b). nra. }
  assert (Hmax : forall b x, 0 <= Qmax (confidence (get b v) * (9#10)) x).
  { intros b x. eapply Qle_trans; [apply (H9 b)|apply Q.le_max_l]. }
  unfold updateActionStates. rewrite get_for_in.
  destruct cls as [s|].
  - repeat match goal with
           | |- context [String.eqb s ?x] => destruct (String.eqb s x)
           end;
      destruct a; cbn [confidence set_active set_confidence set_direction
                       get update put for_in fold_left action_names
                       v_navigate v_select v_modify v_create v_delete];
      first [entrywise Hmax | entrywise H9 | entrywise H8].
  - destruct a; cbn [confidence set_active set_confidence get update put for_in
                     fold_left action_names
                     v_navigate v_select v_modify v_create v_delete];
      entrywise H9.
Qed.

(** [considerTriggeringAction] touches [triggered] and [lastTriggered]
    only. *)
Lemma considerTriggeringAction_keeps now st a :
  confidence (get a (verbs (considerTriggeringAction now st)))
  = confidence (get a (verbs st)) /\
  direction (get a (verbs (considerTriggeringAction now st)))
  = direction (get a (verbs st)) /\
  active (get a (verbs (considerTriggeringAction now st)))
  = active (get a (verbs st)).
Proof.
  unfold considerTriggeringAction.
  destruct (selectAction (verbs st)) as [b|]; [|auto].
  destruct (_ >? 2000)%Z; [|auto].
  destruct a, b; repeat split; reflexivity.
Qed.

Lemma considerTriggeringAction_nl_active now st :
  nl_active (considerTriggeringAction now st) = nl_active st.
Proof.
  unfold considerTriggeringAction.
  destruct (selectAction (verbs st)); [|reflexivity].
  destruct (_ >? 2000)%Z; reflexivity.
Qed.

(** An active engine handling a classification event with a usable class:
    the accumulator update, then possibly a trigger. *)
Lemma handleNeuralClassification_active now d cls st a :
  nl_active st = true ->
  truthy_class (class d) = Some cls ->
  let st' := handleNeuralClassification now (Some d) st in
  let upd := get a (updateActionStates (Some cls) (JS.or0 (ev_confidence d))
                                       (verbs st)) in
  confidence (get a (verbs st')) = confidence upd /\
  direction (get a (verbs st')) = direction upd /\
  active (get a (verbs st')) = active upd.
Proof.
  intros Hact Hcls. unfold handleNeuralClassification.
  rewrite Hact, Hcls. cbn [negb verbs with_verbs].
  destruct (JS.ge _ threshold); [|cbn [verbs]; auto].
  apply considerTriggeringAction_keeps.
Qed.

Lemma step_invariant i st :
  nonneg (verbs st) /\ derived (verbs st) ->
  nonneg (verbs (step i st)) /\ derived (verbs (step i st)).
Proof.
  intros [Hn Hd]. destruct i as [now d|now d| |b]; cbn [step].
  - unfold handleNeuralClassification.
    destruct (nl_active st) eqn:Hact; cbn [negb]; [|auto].
    destruct d as [d|]; [|auto].
    destruct (truthy_class (class d)) as [cls|]; [|auto].
    cbn [verbs with_verbs].
    set (v := updateActionStates _ _ _).
    assert (Hv : nonneg v /\ derived v).
    { split; intro a; subst v.
      - now apply updateActionStates_nonneg.
      - apply updateActionStates_active. }
    destruct (JS.ge _ threshold); [|exact Hv].
    destruct Hv as [Hvn Hvd].
    split; intro a;
      destruct (considerTriggeringAction_keeps now
                  (with_verbs v (mkState true true now (neuralFeatures st)
                                         (verbs st) (fired st))) a)
        as (Hc & _ & Ha); cbn [verbs with_verbs] in Hc, Ha |- *.
    + rewrite Hc. apply Hvn.
    + rewrite Ha, Hc. apply Hvd.
  - unfold handleNeuralFeatures.
    destruct (nl_active st); cbn [negb]; [|auto].
    destruct d as [d|]; [|auto].
    destruct (features d); [|auto].
    cbn [verbs]. split; intro a.
    + now apply updateActionStates_nonneg.
    + apply updateActionStates_active.
  - unfold toggleNeuralIntegration. cbn [verbs].
    split; intro a; rewrite get_for_in; cbn; [lra|reflexivity].
  - unfold clearTriggered, with_verbs. cbn [verbs].
    split; intro a; destruct a, b; cbn; first [entrywise Hn | entrywise Hd].
Qed.

Lemma run_snoc ins i st : run (ins ++ [i]) st = step i (run ins st).
Proof. unfold run. rewrite fold_left_app. reflexivity. Qed.

Lemma reachable_step i st : reachable st -> reachable (step i st).
Proof.
  intros [ins ->]. exists (ins ++ [i]). now rewrite run_snoc.
Qed.

Lemma reachable_invariant st :
  reachable st -> nonneg (verbs st) /\ derived (verbs st).
Proof.
  intros [ins ->]. induction ins as [|i ins IH] using rev_ind.
  - split; intro a; destruct a; cbn; first [lra|reflexivity].
  - rewrite run_snoc. now apply step_invariant.
Qed.

(** A Rest event on an active engine multiplies every confidence by 0.9
    and then by 0.8, whatever the state. *)
Lemma rest_double_decay_exact now d st a :
  nl_active st = true ->
  class d = Some "Rest"%string ->
  confidence (get a (verbs (handleNeuralClassification now (Some d) st)))
  = confidence (get a (verbs st)) * (9#10) * (8#10).
Proof.
  intros Hact Hcls.
  destruct (handleNeuralClassification_active now d "Rest" st a Hact) as (Hc & _).
  { rewrite Hcls. reflexivity. }
  rewrite Hc, updateActionStates_rest. reflexivity.
Qed.

(** C1: on an active engine, a classification event of class Rest leaves
    each of the five accumulators with a confidence equal to, hence at
    most, its previous confidence times 0.9 times 0.8, whatever the prior
    state; and the event does not increase the confidence of any
    accumulator whose confidence is not negative, which is the case of
    every accumulator in every state the engine can be in. *)
Theorem rest_event_double_decay :
  forall st now d a,
    nl_active st = true ->
    class d = Some "Rest"%string ->
    let before := confidence (get a (verbs st)) in
    let after :=
      confidence (get a (verbs (handleNeuralClassification now (Some d) st))) in
    after == before * (9#10) * (8#10) /\
    after <= before * (9#10) * (8#10) /\
    (0 <= before -> after <= before) /\
    (reachable st -> 0 <= before /\ after <= before).
Proof.
  intros st now d a Hact Hcls before after.
  assert (E : after = before * (9#10) * (8#10))
    by (apply rest_double_decay_exact; assumption).
  rewrite E.
  split; [reflexivity|]. split; [apply Qle_refl|]. split; [intro; nra|].
  intro Hr. destruct (reachable_invariant st Hr) as [Hn _].
  specialize (Hn a). fold before in Hn. split; [exact Hn|nra].
Qed.

Lemma rest_event_double_decay_witness :
  let st := run [Toggle;
                 Classification 1700000000000
                   (Some (mkClassification (Some "Right Hand"%string)
                                           (Some (9#10))))] init in
  let d := mkClassification (Some "Rest"%string) (Some (8#10)) in
  reachable st /\ nl_active st = true /\
  confidence (get navigate
                (verbs (handleNeuralClassification 1700000000500 (Some d) st)))
  <= confidence (get navigate (verbs st)).
Proof.
  intros st d.
  assert (Hr : reachable st) by (eexists; reflexivity).
  split; [exact Hr|]. split; [reflexivity|].
  destruct (rest_event_double_decay st 1700000000500 d navigate
              eq_refl eq_refl) as (_ & _ & _ & H).
  exact (proj2 (H Hr)).
Defined.

(** C2: in every state the engine can be in, and so after the accumulator
    update of any classification or features event and after the reset done
    by the enable/disable toggle, each of the five accumulators has
    [active] equal to [confidence > 0.6]: never active at a confidence of
    0.6 or less, never inactive above 0.6. *)
Theorem active_is_confidence_above_threshold :
  forall st,
    reachable st ->
    (forall a,
        active (get a (verbs st)) = JS.gt (confidence (get a (verbs st))) (6#10) /\
        (active (get a (verbs st)) = true <-> 6#10 < confidence (get a (verbs st))) /\
        (active (get a (verbs st)) = false <-> confidence (get a (verbs st)) <= 6#10)) /\
    (forall i a,
        active (get a (verbs (step i st)))
        = JS.gt (confidence (get a (verbs (step i st)))) (6#10)) /\
    (forall cls c a,
        active (get a (updateActionStates cls c (verbs st)))
        = JS.gt (confidence (get a (updateActionStates cls c (verbs st)))) (6#10)) /\
    (forall a,
        confidence (get a (verbs (toggleNeuralIntegration st))) = 0 /\
        active (get a (verbs (toggleNeuralIntegration st))) = false /\
        triggered (get a (verbs (toggleNeuralIntegration st))) = false).
Proof.
  intros st Hr.
  destruct (reachable_invariant st Hr) as [_ Hd].
  split; [|split; [|split]].
  - intro a. rewrite (Hd a).
    split; [reflexivity|split; [apply gt_true_iff|apply gt_false_iff]].
  - intros i a.
    destruct (reachable_invariant _ (reachable_step i st Hr)) as [_ Hd'].
    apply Hd'.
  - intros cls c a. apply updateActionStates_active.
  - intro a. unfold toggleNeuralIntegration. cbn [verbs].
    rewrite get_for_in. repeat split.
Qed.

Lemma active_is_confidence_above_threshold_witness :
  let st := run [Toggle;
                 Classification 1700000000000
                   (Some (mkClassification (Some "Tongue"%string)
                                           (Some (7#10))));
                 Features 1700000000500
                   (Some (mkFeaturesDetail (Some (mkFeatures None))))] init in
  reachable st /\
  active (get select (verbs st)) = true /\
  active (get modify (verbs st)) = false /\
  (forall a, active (get a (verbs st))
             = JS.gt (confidence (get a (verbs st))) (6#10)).
Proof.
  intros st.
  assert (Hr : reachable st) by (eexists; reflexivity).
  split; [exact Hr|]. split; [reflexivity|]. split; [reflexivity|].
  intro a.
  exact (proj1 (proj1 (active_is_confidence_above_threshold st Hr) a)).
Defined.

(** C4: on an active engine, whatever the accumulators held, a
    classification event of class "Right Hand" with confidence 0.9 leaves
    [navigate] with confidence at least 0.9, direction "forward" and
    [active] set: every confidence is first multiplied by 0.9, then
    [navigate] is raised to the maximum of its decayed confidence and the
    incoming one, which is never below the decayed value; the other four
    accumulators keep their decayed confidence. *)
Theorem right_hand_event_raises_navigate :
  forall st now d q,
    nl_active st = true ->
    class d = Some "Right Hand"%string ->
    ev_confidence d = Some q ->
    q == 9#10 ->
    let st' := handleNeuralClassification now (Some d) st in
    9#10 <= confidence (get navigate (verbs st')) /\
    direction (get navigate (verbs st')) = Some "forward"%string /\
    active (get navigate (verbs st')) = true /\
    confidence (get navigate (verbs st'))
    = Qmax (confidence (get navigate (verbs st)) * (9#10)) q /\
    confidence (get navigate (verbs st)) * (9#10)
    <= confidence (get navigate (verbs st')) /\
    (forall a, a <> navigate ->
               confidence (get a (verbs st'))
               = confidence (get a (verbs st)) * (9#10)).
Proof.
  intros st now d q Hact Hcls Hconf Hq st'.
  assert (Htr : truthy_class (class d) = Some "Right Hand"%string)
    by (rewrite Hcls; reflexivity).
  pose proof (handleNeuralClassification_active now d _ st navigate Hact Htr)
    as (Hc & Hdir & Ha).
  fold st' in Hc, Hdir, Ha.
  rewrite Hconf in Hc, Hdir, Ha. cbn [JS.or0] in Hc, Hdir, Ha.
  rewrite updateActionStates_right_navigate in Hc, Hdir, Ha.
  cbn [confidence direction active] in Hc, Hdir, Ha.
  assert (Hge : 9#10 <= confidence (get navigate (verbs st'))).
  { rewrite Hc, <- Hq. apply Q.le_max_r. }
  split; [exact Hge|]. split; [exact Hdir|].
  split.
  { rewrite Ha, <- Hc. apply gt_true_iff. lra. }
  split; [exact Hc|]. split.
  { rewrite Hc. apply Q.le_max_l. }
  intros a Hne.
  pose proof (handleNeuralClassification_active now d _ st a Hact Htr)
    as (Hca & _).
  fold st' in Hca. rewrite Hca.
  rewrite (updateActionStates_right_others _ _ a Hne). reflexivity.
Qed.

Lemma right_hand_event_raises_navigate_witness :
  let st := toggleNeuralIntegration init in
  let d := mkClassification (Some "Right Hand"%string) (Some (9#10)) in
  nl_active st = true /\
  9#10 <= confidence (get navigate
                        (verbs (handleNeuralClassification 1700000000000
                                                           (Some d) st))).
Proof.
  intros st d. split; [reflexivity|].
  apply (right_hand_event_raises_navigate st 1700000000000 d (9#10));
    reflexivity.
Defined.

(** An engine that is switched off ignores both kinds of event. *)
Lemma inactive_engine_ignores_events now st :
  nl_active st = false ->
  (forall d, handleNeuralClassification now d st = st) /\
  (forall d, handleNeuralFeatures now d st = st).
Proof.
  intro H. unfold handleNeuralClassification, handleNeuralFeatures.
  rewrite H. split; reflexivity.
Qed.

(** C10: on an active engine, a features-extracted event (one that carries
    its features) runs the accumulator update without a class: every
    confidence is multiplied by 0.9, none is raised, [active] is recomputed
    from the new confidence, and nothing else about the accumulators
    changes; no trigger is considered. *)
Theorem features_event_decays_accumulators :
  forall st now d f a,
    nl_active st = true ->
    features d = Some f ->
    let st' := handleNeuralFeatures now (Some d) st in
    verbs st' = updateActionStates None 0 (verbs st) /\
    confidence (get a (verbs st')) = confidence (get a (verbs st)) * (9#10) /\
    active (get a (verbs st'))
    = JS.gt (confidence (get a (verbs st'))) (6#10) /\
    direction (get a (verbs st')) = direction (get a (verbs st)) /\
    triggered (get a (verbs st')) = triggered (get a (verbs st)) /\
    lastTriggered (get a (verbs st')) = lastTriggered (get a (verbs st)) /\
    fired st' = fired st.
Proof.
  intros st now d f a Hact Hf st'.
  assert (E : verbs st' = updateActionStates None 0 (verbs st)).
  { subst st'. unfold handleNeuralFeatures. rewrite Hact, Hf. reflexivity. }
  split; [exact E|]. rewrite E, updateActionStates_no_class.
  cbn [confidence active direction triggered lastTriggered].
  repeat split.
  subst st'. unfold handleNeuralFeatures. rewrite Hact, Hf. reflexivity.
Qed.

Lemma features_event_decays_accumulators_witness :
  let st := run [Toggle;
                 Classification 1700000000000
                   (Some (mkClassification (Some "Feet"%string)
                                           (Some (8#10))))] init in
  let d := mkFeaturesDetail (Some (mkFeatures None)) in
  nl_active st = true /\
  confidence (get modify (verbs (handleNeuralFeatures 1700000000500 (Some d) st)))
  = confidence (get modify (verbs st)) * (9#10).
Proof.
  intros st d. split; [reflexivity|].
  apply (features_event_decays_accumulators st 1700000000500 d
           (mkFeatures None) modify); reflexivity.
Defined.

(** Features events alone make every confidence decay geometrically: after
    [n] of them, 0.9 to the power [n] of what it was. *)
Lemma features_events_decay_geometric st d f ts a :
  nl_active st = true ->
  features d = Some f ->
  let st' := run (map (fun t => Features t (Some d)) ts) st in
  nl_active st' = true /\
  confidence (get a (verbs st'))
  == confidence (get a (verbs st)) * (9#10) ^ Z.of_nat (length ts).
Proof.
  intros Hact Hf. cbv zeta. revert st Hact.
  induction ts as [|t ts IH]; intros st Hact.
  - split; [exact Hact|]. cbn. lra.
  - cbn [map run fold_left length].
    assert (E : step (Features t (Some d)) st
                = mkState true true t (Some f)
                          (updateActionStates None 0 (verbs st)) (fired st)).
    { cbn [step]. unfold handleNeuralFeatures. rewrite Hact, Hf. reflexivity. }
    destruct (IH (step (Features t (Some d)) st)) as [IH1 IH2].
    { rewrite E. reflexivity. }
    split; [exact IH1|]. unfold run in IH2. rewrite IH2, E. cbn [verbs].
    rewrite updateActionStates_no_class. cbn [confidence].
    rewrite Nat2Z.inj_succ, <- Z.add_1_l, Qpower_plus by discriminate.
    change ((9#10) ^ 1) with (9#10). ring.
Qed.

(** *** Trigger debounce *)

(** Time of the last trigger of an entry, [actionState.lastTriggered || 0]. *)
Lemma considerTriggeringAction_fires now st a :
  selectAction (verbs st) = Some a ->
  (now - match lastTriggered (get a (verbs st)) with
         | Some t => t
         | None => 0
         end > 2000)%Z ->
  let st' := considerTriggeringAction now st in
  fired st' = fired st ++ [(a, now)] /\
  triggered (get a (verbs st')) = true /\
  lastTriggered (get a (verbs st')) = Some now /\
  nl_active st' = nl_active st.
Proof.
  intros Hsel Hlate st'. subst st'. unfold considerTriggeringAction.
  rewrite Hsel.
  replace (_ >? 2000)%Z with true by (symmetry; apply Z.gtb_lt; lia).
  cbn [fired verbs nl_active]. rewrite get_update_same.
  repeat split.
Qed.

Lemma considerTriggeringAction_drops now st a :
  selectAction (verbs st) = Some a ->
  (now - match lastTriggered (get a (verbs st)) with
         | Some t => t
         | None => 0
         end <= 2000)%Z ->
  considerTriggeringAction now st = st.
Proof.
  intros Hsel Hsoon. unfold considerTriggeringAction. rewrite Hsel.
  destruct (_ >? 2000)%Z eqn:E; [|reflexivity].
  apply Z.gtb_lt in E. lia.
Qed.

(** A qualifying event on an active engine: update, then trigger
    consideration at the same clock reading. *)
Lemma handleNeuralClassification_qualifying now d cls st :
  nl_active st = true ->
  truthy_class (class d) = Some cls ->
  threshold <= JS.or0 (ev_confidence d) ->
  handleNeuralClassification now (Some d) st
  = considerTriggeringAction now
      (mkState true true now (neuralFeatures st)
               (updateActionStates (Some cls) (JS.or0 (ev_confidence d))
                                   (verbs st))
               (fired st)).
Proof.
  intros Hact Hcls Hthr. unfold handleNeuralClassification.
  rewrite Hact, Hcls. cbn [negb].
  replace (JS.ge _ threshold) with true by (symmetry; now apply ge_true_iff).
  reflexivity.
Qed.

(** What the code does with two qualifying events that select the same
    accumulator, the first of which triggers it: the second triggers again
    exactly when more than 2000 ms have passed; otherwise it is dropped and
    leaves no trace in [triggered] or [lastTriggered]. *)
Lemma debounce_two_events st t1 t2 d1 d2 c1 c2 a :
  nl_active st = true ->
  truthy_class (class d1) = Some c1 ->
  truthy_class (class d2) = Some c2 ->
  threshold <= JS.or0 (ev_confidence d1) ->
  threshold <= JS.or0 (ev_confidence d2) ->
  let st1 := handleNeuralClassification t1 (Some d1) st in
  let st2 := handleNeuralClassification t2 (Some d2) st1 in
  selectAction (updateActionStates (Some c1) (JS.or0 (ev_confidence d1))
                                   (verbs st)) = Some a ->
  selectAction (updateActionStates (Some c2) (JS.or0 (ev_confidence d2))
                                   (verbs st1)) = Some a ->
  (t1 - match lastTriggered (get a (verbs st)) with
        | Some t => t
        | None => 0
        end > 2000)%Z ->
  fired st1 = fired st ++ [(a, t1)] /\
  lastTriggered (get a (verbs st1)) = Some t1 /\
  triggered (get a (verbs st1)) = true /\
  ((t2 - t1 > 2000)%Z ->
   fired st2 = fired st ++ [(a, t1); (a, t2)] /\
   lastTriggered (get a (verbs st2)) = Some t2) /\
  ((t2 - t1 <= 2000)%Z ->
   fired st2 = fired st ++ [(a, t1)] /\
   lastTriggered (get a (verbs st2)) = Some t1).
Proof.
  intros Hact Hc1 Hc2 Hq1 Hq2 st1 st2 Hs1 Hs2 Hlate.
  assert (E1 := handleNeuralClassification_qualifying t1 d1 c1 st Hact Hc1 Hq1).
  fold st1 in E1.
  set (u1 := mkState true true t1 (neuralFeatures st)
                     (updateActionStates (Some c1) (JS.or0 (ev_confidence d1))
                                         (verbs st))
                     (fired st)) in E1.
  assert (Hl1 : lastTriggered (get a (verbs u1)) = lastTriggered (get a (verbs st))).
  { subst u1. cbn [verbs]. apply updateActionStates_keeps. }
  destruct (considerTriggeringAction_fires t1 u1 a Hs1) as (F1 & T1 & L1 & A1).
  { rewrite Hl1. exact Hlate. }
  rewrite <- E1 in F1, T1, L1, A1. cbn [fired nl_active u1] in F1, A1.
  split; [exact F1|]. split; [exact L1|]. split; [exact T1|].
  assert (E2 := handleNeuralClassification_qualifying t2 d2 c2 st1 A1 Hc2 Hq2).
  fold st2 in E2.
  set (u2 := mkState true true t2 (neuralFeatures st1)
                     (updateActionStates (Some c2) (JS.or0 (ev_confidence d2))
                                         (verbs st1))
                     (fired st1)) in E2.
  assert (Hl2 : lastTriggered (get a (verbs u2)) = Some t1).
  { subst u2. cbn [verbs].
    destruct (updateActionStates_keeps (Some c2) (JS.or0 (ev_confidence d2))
                                       (verbs st1) a) as (_ & H & _).
    rewrite H. exact L1. }
  split.
  - intro Hfar.
    destruct (considerTriggeringAction_fires t2 u2 a Hs2) as (F2 & _ & L2 & _).
    { rewrite Hl2. exact Hfar. }
    rewrite <- E2 in F2, L2. cbn [fired u2] in F2.
    rewrite F2, F1, <- app_assoc. split; [reflexivity|exact L2].
  - intro Hnear.
    assert (D := considerTriggeringAction_drops t2 u2 a Hs2).
    rewrite Hl2 in D. specialize (D Hnear).
    rewrite E2, D. split; [exact F1|exact Hl2].
Qed.

(** C3, at the boundary: two "Right Hand" events of confidence 0.9, both
    selecting [navigate], processed exactly 2000 ms apart on a freshly
    enabled engine.  The first triggers [navigate]; the second does not,
    because the code asks for strictly more than 2000 ms since the last
    trigger.  One millisecond later it would. *)
Theorem debounce_at_exactly_2000ms :
  let rightHand := mkClassification (Some "Right Hand"%string) (Some (9#10)) in
  let st0 := toggleNeuralIntegration init in
  let st1 := handleNeuralClassification 1700000000000 (Some rightHand) st0 in
  let st2 := handleNeuralClassification 1700000002000 (Some rightHand) st1 in
  let st2' := handleNeuralClassification 1700000002001 (Some rightHand) st1 in
  JS.ge (9#10) threshold = true /\
  selectAction (verbs st1) = Some navigate /\
  fired st1 = [(navigate, 1700000000000%Z)] /\
  triggered (get navigate (verbs st1)) = true /\
  lastTriggered (get navigate (verbs st1)) = Some 1700000000000%Z /\
  selectAction (verbs st2) = Some navigate /\
  fired st2 = [(navigate, 1700000000000%Z)] /\
  lastTriggered (get navigate (verbs st2)) = Some 1700000000000%Z /\
  fired st2' = [(navigate, 1700000000000%Z); (navigate, 1700000002001%Z)].
Proof.
  cbv zeta. repeat split; vm_compute; reflexivity.
Qed.

(** ** Integration Glue *)

Lemma classDirection_table cls direction :
  Glue.classDirection cls = Some direction <-> Glue.direction_table cls direction.
Proof.
  unfold Glue.classDirection, Glue.direction_table. split.
  - destruct (String.eqb_spec cls "Left Hand"%string);
      [intro H; injection H as <-; auto|].
    destruct (String.eqb_spec cls "Right Hand"%string);
      [intro H; injection H as <-; auto|].
    destruct (String.eqb_spec cls "Feet"%string);
      [intro H; injection H as <-; auto 6|].
    destruct (String.eqb_spec cls "Tongue"%string);
      [intro H; injection H as <-; auto 6|].
    discriminate.
  - intros [[-> ->]|[[-> ->]|[[-> ->]|[-> ->]]]]; reflexivity.
Qed.

Lemma classDirection_rest : Glue.classDirection "Rest"%string = None.
Proof. reflexivity. Qed.

(** Once the glue has run on a page that has the decoder and the language
    bridge, a classification event reaches [movementBridge] and no other
    listener of the glue. *)
Lemma glue_dispatch_classification p d :
  Glue.initDecoderVisualization p = true ->
  Glue.initNeuroLLaMA p = true ->
  Glue.dispatchEvent (Glue.initializeComponentIntegration p [])
                     ("processor:classification-updated"%string, d)
  = Glue.movementBridge d.
Proof.
  intros Hd Hl. unfold Glue.initializeComponentIntegration.
  rewrite Hd, Hl.
  destruct (Glue.initNeuralSignalProcessor p), (Glue.initBCIStatus p);
    cbn; apply app_nil_r.
Qed.

Lemma truthy_class_some c cls :
  Engine.truthy_class c = Some cls <-> c = Some cls /\ cls <> EmptyString.
Proof.
  unfold Engine.truthy_class. split.
  - destruct c as [[|ch s]|]; try discriminate.
    intro H. injection H as <-. split; [reflexivity|discriminate].
  - intros [-> Hne]. destruct cls; [contradiction|reflexivity].
Qed.

Lemma dispatchEvent_app (bus more : list Glue.listener) (e : Glue.event) :
  Glue.dispatchEvent (bus ++ more) e
  = Glue.dispatchEvent bus e ++ Glue.dispatchEvent more e.
Proof. unfold Glue.dispatchEvent. apply flat_map_app. Qed.

Lemma initializeComponentIntegration_appends p bus :
  Glue.initializeComponentIntegration p bus
  = bus ++ Glue.initializeComponentIntegration p [].
Proof.
  unfold Glue.initializeComponentIntegration.
  destruct (Glue.initNeuralSignalProcessor p), (Glue.initNeuroLLaMA p),
    (Glue.initDecoderVisualization p), (Glue.initBCIStatus p);
    cbn [andb app]; rewrite <- ?app_assoc, ?app_nil_r; reflexivity.
Qed.

Lemma dispatch_after_wirings p n e :
  Glue.dispatchEvent
    (Nat.iter n (Glue.initializeComponentIntegration p) []) e
  = concat (repeat (Glue.dispatchEvent
                      (Glue.initializeComponentIntegration p []) e) n).
Proof.
  induction n as [|n IH]; [reflexivity|].
  cbn [Nat.iter nat_rect repeat concat].
  change (nat_rect _ _ _ n) with
    (Nat.iter n (Glue.initializeComponentIntegration p) []).
  rewrite initializeComponentIntegration_appends, dispatchEvent_app, IH.
  clear. induction n as [|n IH]; cbn [repeat concat];
    [now rewrite app_nil_r|].
  rewrite <- app_assoc, IH. reflexivity.
Qed.

(** What the bridge's listener publishes for one classification event. *)
Lemma movementBridge_request :
  forall c direction confidence source,
    let published :=
      Glue.movementBridge (Some (Glue.ClassificationUpdated c)) in
    (In ("decoder:movement-request"%string,
         Some (Glue.MovementRequest direction confidence source)) published
     <->
     (exists cls, Engine.class c = Some cls /\ Glue.direction_table cls direction) /\
     Engine.ev_confidence c = Some confidence /\
     65#100 < confidence /\
     source = "neural-processor"%string) /\
    (length published <= 1)%nat /\
    (forall e, In e published -> fst e = "decoder:movement-request"%string).
Proof.
  intros c direction confidence source.
  unfold Glue.movementBridge.
  destruct (Engine.truthy_class (Engine.class c)) as [cls|] eqn:Hcls.
  - apply truthy_class_some in Hcls. destruct Hcls as [Hcls Hne].
    destruct (Glue.classDirection cls) as [dir|] eqn:Hdir.
    + destruct (JS.gt (JS.or0 (Engine.ev_confidence c)) (65#100)) eqn:Hgt.
      * apply gt_true_iff in Hgt.
        split; [|split; [cbn; lia|intros e [<-|[]]; reflexivity]].
        split.
        -- intros [H|[]]. injection H as <- <- <-.
           split; [exists cls; split; [exact Hcls|now apply classDirection_table]|].
           split; [|split; [exact Hgt|reflexivity]].
           destruct (Engine.ev_confidence c); [reflexivity|].
           cbn in Hgt. lra.
        -- intros ((cls' & Hc' & Ht) & Hconf & _ & ->).
           rewrite Hcls in Hc'. injection Hc' as <-.
           apply classDirection_table in Ht. rewrite Hdir in Ht.
           injection Ht as ->. rewrite Hconf. left. reflexivity.
      * apply gt_false_iff in Hgt.
        split; [|split; [cbn; lia|intros e []]].
        split; [intros []|].
        intros (_ & Hconf & Hlt & _). rewrite Hconf in Hgt. cbn in Hgt. lra.
    + split; [|split; [cbn; lia|intros e []]].
      split; [intros []|].
      intros ((cls' & Hc' & Ht) & _).
      rewrite Hcls in Hc'. injection Hc' as <-.
      apply classDirection_table in Ht. congruence.
  - split; [|split; [cbn; lia|intros e []]].
    split; [intros []|].
    intros ((cls' & Hc' & Ht) & _).
    assert (Engine.truthy_class (Engine.class c) = Some cls').
    { apply truthy_class_some. split; [exact Hc'|].
      destruct Ht as [[-> _]|[[-> _]|[[-> _]|[-> _]]]]; discriminate. }
    congruence.
Qed.

Lemma In_concat_repeat {A} (l : list A) (n : nat) (e : A) :
  In e (concat (repeat l n)) <-> (0 < n)%nat /\ In e l.
Proof.
  induction n as [|n IH]; cbn [repeat concat].
  - split; [intros []|intros [H _]; lia].
  - rewrite in_app_iff, IH. split.
    + intros [H|[_ H]]; (split; [lia|exact H]).
    + intros [_ H]. now left.
Qed.

(** C5: once [initializeComponentIntegration] has wired the bridge, any
    number of times (the page schedules it twice) on a page with the
    decoder and the language bridge, handling a
    [processor:classification-updated] event publishes a
    [decoder:movement-request] with payload [{direction, confidence,
    source}] if and only if the event's class is in the lookup table (Left
    Hand to left, Right Hand to right, Feet to down, Tongue to up; Rest and
    every other class to nothing) with that direction, the event's
    confidence is that confidence and exceeds 0.65, and the source is
    "neural-processor"; nothing but movement requests is published, and
    the requests published for one event are all the same. *)
Theorem movement_request_published_iff :
  forall p n c direction confidence source,
    (0 < n)%nat ->
    Glue.initDecoderVisualization p = true ->
    Glue.initNeuroLLaMA p = true ->
    let published :=
      Glue.dispatchEvent
        (Nat.iter n (Glue.initializeComponentIntegration p) [])
        ("processor:classification-updated"%string,
         Some (Glue.ClassificationUpdated c)) in
    (In ("decoder:movement-request"%string,
         Some (Glue.MovementRequest direction confidence source)) published
     <->
     (exists cls, Engine.class c = Some cls /\ Glue.direction_table cls direction) /\
     Engine.ev_confidence c = Some confidence /\
     65#100 < confidence /\
     source = "neural-processor"%string) /\
    (forall e, In e published -> fst e = "decoder:movement-request"%string) /\
    (forall e e', In e published -> In e' published -> e = e').
Proof.
  intros p n c direction confidence source Hn Hd Hl published.
  assert (E : forall e,
             In e published <->
             In e (Glue.movementBridge (Some (Glue.ClassificationUpdated c)))).
  { intro e. subst published.
    rewrite dispatch_after_wirings, (glue_dispatch_classification p _ Hd Hl).
    rewrite In_concat_repeat. tauto. }
  destruct (movementBridge_request c direction confidence source)
    as (Hiff & Hlen & Htopic).
  cbv zeta in Hiff, Hlen, Htopic.
  split; [rewrite E; exact Hiff|]. split.
  - intros e He. apply Htopic, E, He.
  - intros e e' He He'. apply E in He. apply E in He'.
    destruct (Glue.movementBridge (Some (Glue.ClassificationUpdated c)))
      as [|e0 [|e1 rest]]; [contradiction| |cbn in Hlen; lia].
    destruct He as [<-|[]]. destruct He' as [<-|[]]. reflexivity.
Qed.

Lemma movement_request_published_iff_witness :
  let p := Glue.mkPage true true true true in
  let c := Engine.mkClassification (Some "Tongue"%string) (Some (7#10)) in
  (0 < 2)%nat /\
  Glue.initDecoderVisualization p = true /\
  Glue.initNeuroLLaMA p = true /\
  In ("decoder:movement-request"%string,
      Some (Glue.MovementRequest "up"%string (7#10)
                                 "neural-processor"%string))
     (Glue.dispatchEvent
        (Nat.iter 2 (Glue.initializeComponentIntegration p) [])
        ("processor:classification-updated"%string,
         Some (Glue.ClassificationUpdated c))).
Proof.
  intros p c. split; [lia|]. split; [reflexivity|]. split; [reflexivity|].
  apply (proj1 (movement_request_published_iff p 2 c "up"%string (7#10)
                  "neural-processor"%string ltac:(lia) eq_refl eq_refl)).
  split.
  - exists "Tongue"%string. split; [reflexivity|].
    right. right. right. split; reflexivity.
  - split; [reflexivity|]. split; reflexivity.
Defined.

(** ** Trajectory buffer *)

Section TrajectoryBuffer.

Import Decoder.

Lemma lastn_all {A} (n : nat) (l : list A) :
  (length l <= n)%nat -> lastn n l = l.
Proof.
  intro H. unfold lastn. replace (length l - n)%nat with O by lia.
  reflexivity.
Qed.

Lemma lastn_length {A} (n : nat) (l : list A) :
  length (lastn n l) = Nat.min n (length l).
Proof. unfold lastn. rewrite length_skipn. lia. Qed.

Lemma lastn_app_lastn {A} (n : nat) (l m : list A) :
  lastn n (lastn n l ++ m) = lastn n (l ++ m).
Proof.
  unfold lastn at 2.
  assert (E : skipn (length l - n) l ++ m = skipn (length l - n) (l ++ m)).
  { rewrite skipn_app.
    replace (length l - n - length l)%nat with O by lia. reflexivity. }
  rewrite E. unfold lastn. rewrite skipn_skipn, length_skipn, length_app.
  f_equal. lia.
Qed.

Lemma keep100_lastn {A} (l : list A) (x : A) :
  (length l <= 100)%nat -> keep100 (l ++ [x]) = lastn 100 (l ++ [x]).
Proof.
  intro H. unfold keep100, lastn, shift. rewrite length_app. cbn [length].
  destruct (100 <? length l + 1)%nat eqn:E.
  - apply Nat.ltb_lt in E.
    replace (length l + 1 - 100)%nat with 1%nat by lia.
    destruct l; reflexivity.
  - apply Nat.ltb_ge in E.
    replace (length l + 1 - 100)%nat with O by lia. reflexivity.
Qed.

Lemma keep100_length {A} (l : list A) :
  length (keep100 l) = if (100 <? length l)%nat then (length l - 1)%nat
                       else length l.
Proof.
  unfold keep100, shift. destruct (100 <? length l)%nat; [|reflexivity].
  destruct l; cbn; lia.
Qed.

(** While the arrays are in lockstep a call returns, pushes one element
    on each array and trims each of them the same way. *)
Lemma addDecodedPosition_aligned c d :
  aligned d ->
  exists va vp,
    addDecodedPosition c d
    = Returned (mkData (keep100 (actual d ++ [c_actual c]))
                       (keep100 (predicted d ++ [c_predicted c]))
                       (keep100 (timestamps d ++ [c_timestamp c]))
                       (keep100 (velocities_actual d ++ [va]))
                       (keep100 (velocities_predicted d ++ [vp]))).
Proof.
  intros (Hp & Ht & Hva & Hvp).
  assert (K : forall va vp,
    trim (mkData (push (c_actual c) (actual d))
                 (push (c_predicted c) (predicted d))
                 (push (c_timestamp c) (timestamps d))
                 (push va (velocities_actual d))
                 (push vp (velocities_predicted d)))
    = mkData (keep100 (actual d ++ [c_actual c]))
             (keep100 (predicted d ++ [c_predicted c]))
             (keep100 (timestamps d ++ [c_timestamp c]))
             (keep100 (velocities_actual d ++ [va]))
             (keep100 (velocities_predicted d ++ [vp]))).
  { intros va vp. unfold trim, keep100, push. cbn [actual].
    rewrite !length_app, Hp, Ht, Hva, Hvp.
    destruct (100 <? _)%nat; reflexivity. }
  unfold addDecodedPosition.
  cbn [actual predicted timestamps velocities_actual velocities_predicted].
  destruct (c_actualVelocity c) as [va|], (c_predictedVelocity c) as [vp|];
    try (eexists; eexists; rewrite <- K; reflexivity).
  all: destruct (1 <? length (push (c_actual c) (actual d)))%nat eqn:E;
    [|eexists; eexists; rewrite <- K; reflexivity].
  all: apply Nat.ltb_lt in E; unfold push in *; rewrite length_app in E;
    cbn [length] in E.
  all: destruct (nth_error (actual d ++ [c_actual c])
                           (length (actual d ++ [c_actual c]) - 2))
         as [pa|] eqn:Ea;
    [|apply nth_error_None in Ea; rewrite length_app in Ea;
      cbn [length] in Ea; lia].
  all: destruct (nth_error (predicted d ++ [c_predicted c])
                           (length (predicted d ++ [c_predicted c]) - 2))
         as [pp|] eqn:Ep;
    [|apply nth_error_None in Ep; rewrite length_app in Ep;
      cbn [length] in Ep; lia].
  all: eexists; eexists; rewrite <- K; reflexivity.
Qed.

Lemma addDecodedPosition_invariant c d :
  aligned d -> (length (actual d) <= 100)%nat ->
  let d' := data_of (addDecodedPosition c d) in
  aligned d' /\ (length (actual d') <= 100)%nat /\
  actual d' = lastn 100 (actual d ++ [c_actual c]) /\
  predicted d' = lastn 100 (predicted d ++ [c_predicted c]) /\
  timestamps d' = lastn 100 (timestamps d ++ [c_timestamp c]).
Proof.
  intros Hal Hlen d'. subst d'.
  destruct (addDecodedPosition_aligned c d Hal) as (va & vp & ->).
  destruct Hal as (Hp & Ht & Hva & Hvp).
  cbn [data_of actual predicted timestamps].
  split; [|split; [|split; [|split]]].
  - unfold aligned.
    cbn [actual predicted timestamps velocities_actual velocities_predicted].
    rewrite !keep100_length, !length_app, Hp, Ht, Hva, Hvp. cbn [length].
    repeat split.
  - rewrite keep100_length, length_app. cbn [length].
    destruct (100 <? _)%nat eqn:E; [lia|apply Nat.ltb_ge in E; lia].
  - now apply keep100_lastn.
  - apply keep100_lastn. lia.
  - apply keep100_lastn. lia.
Qed.

Lemma addAll_snoc cs c d :
  addAll (cs ++ [c]) d = data_of (addDecodedPosition c (addAll cs d)).
Proof. unfold addAll. rewrite fold_left_app. reflexivity. Qed.

Lemma addAll_invariant cs d :
  aligned d -> (length (actual d) <= 100)%nat ->
  let d' := addAll cs d in
  aligned d' /\ (length (actual d') <= 100)%nat /\
  actual d' = lastn 100 (actual d ++ map c_actual cs) /\
  predicted d' = lastn 100 (predicted d ++ map c_predicted cs) /\
  timestamps d' = lastn 100 (timestamps d ++ map c_timestamp cs).
Proof.
  intros Hal Hlen. cbv zeta.
  induction cs as [|c cs IH] using rev_ind.
  - destruct Hal as (Hp & Ht & Hva & Hvp). cbn [addAll fold_left map].
    rewrite !app_nil_r, !lastn_all by lia.
    repeat split; assumption.
  - destruct IH as (Hal' & Hlen' & Ea & Ep & Et).
    rewrite addAll_snoc.
    destruct (addDecodedPosition_invariant c _ Hal' Hlen')
      as (Hal2 & Hlen2 & Ea2 & Ep2 & Et2).
    split; [exact Hal2|]. split; [exact Hlen2|].
    rewrite Ea2, Ep2, Et2, Ea, Ep, Et, !map_app, !lastn_app_lastn, !app_assoc.
    repeat split.
Qed.

End TrajectoryBuffer.

(** C6: starting from arrays in lockstep holding at most 100 points (the
    empty buffer of a fresh page in particular), after any sequence of
    [addDecodedPosition] calls the buffer holds at most 100 points, namely
    the last 100 of the old points followed by the pushed ones, in
    insertion order; a push onto a full buffer evicts the oldest point;
    and 150 pushes into the empty buffer leave exactly the 100 points
    pushed last, in the order pushed. *)
Theorem trajectory_buffer_keeps_last_100 :
  forall d0 cs,
    Decoder.aligned d0 ->
    (length (Decoder.actual d0) <= 100)%nat ->
    let d := Decoder.addAll cs d0 in
    (length (Decoder.actual d) <= 100)%nat /\
    Decoder.aligned d /\
    Decoder.actual d
    = Decoder.lastn 100 (Decoder.actual d0 ++ map Decoder.c_actual cs) /\
    Decoder.predicted d
    = Decoder.lastn 100 (Decoder.predicted d0 ++ map Decoder.c_predicted cs) /\
    Decoder.timestamps d
    = Decoder.lastn 100 (Decoder.timestamps d0 ++ map Decoder.c_timestamp cs) /\
    (forall c, length (Decoder.actual d) = 100%nat ->
               Decoder.actual (Decoder.data_of (Decoder.addDecodedPosition c d))
               = tl (Decoder.actual d) ++ [Decoder.c_actual c]) /\
    (d0 = Decoder.currentDecoderData -> length cs = 150%nat ->
     length (Decoder.actual d) = 100%nat /\
     Decoder.actual d = skipn 50 (map Decoder.c_actual cs) /\
     Decoder.predicted d = skipn 50 (map Decoder.c_predicted cs) /\
     Decoder.timestamps d = skipn 50 (map Decoder.c_timestamp cs)).
Proof.
  intros d0 cs Hal Hlen d.
  destruct (addAll_invariant cs d0 Hal Hlen) as (Hal' & Hlen' & Ea & Ep & Et).
  fold d in Hal', Hlen', Ea, Ep, Et.
  split; [exact Hlen'|]. split; [exact Hal'|].
  split; [exact Ea|]. split; [exact Ep|]. split; [exact Et|].
  split.
  - intros c Hfull.
    destruct (addDecodedPosition_invariant c d Hal' Hlen') as (_ & _ & E & _).
    rewrite E. unfold Decoder.lastn. rewrite length_app, Hfull. cbn [length].
    destruct (Decoder.actual d); [discriminate|reflexivity].
  - intros -> H150. cbn [Decoder.currentDecoderData Decoder.actual
                         Decoder.predicted Decoder.timestamps app] in Ea, Ep, Et.
    rewrite Ea, Ep, Et. unfold Decoder.lastn.
    rewrite length_skipn, !length_map, H150. repeat split.
Qed.

Lemma trajectory_buffer_keeps_last_100_witness :
  let cs := map (fun i => Decoder.mkCall (inject_Z (Z.of_nat i), 0)
                                         (inject_Z (Z.of_nat i), 1#10)
                                         (inject_Z (Z.of_nat (20 * i)))
                                         None None)
                (seq 0 150) in
  Decoder.aligned Decoder.currentDecoderData /\
  (length (Decoder.actual Decoder.currentDecoderData) <= 100)%nat /\
  length cs = 150%nat /\
  length (Decoder.actual (Decoder.addAll cs Decoder.currentDecoderData)) = 100%nat.
Proof.
  intro cs.
  assert (Hal : Decoder.aligned Decoder.currentDecoderData)
    by (repeat split).
  assert (Hlen : (length (Decoder.actual Decoder.currentDecoderData) <= 100)%nat)
    by (cbn; lia).
  assert (H150 : length cs = 150%nat) by reflexivity.
  split; [exact Hal|]. split; [exact Hlen|]. split; [exact H150|].
  destruct (trajectory_buffer_keeps_last_100 Decoder.currentDecoderData cs
              Hal Hlen) as (_ & _ & _ & _ & _ & _ & H).
  exact (proj1 (H eq_refl H150)).
Defined.

(** ** Decoder metrics *)

Lemma clamp_between (lo hi x : Q) :
  lo <= hi -> lo <= Qmin hi (Qmax lo x) /\ Qmin hi (Qmax lo x) <= hi.
Proof.
  intro H. split.
  - apply Q.min_glb; [exact H|apply Q.le_max_l].
  - apply Q.le_min_l.
Qed.

(** The clamping step puts every metric in its range, whatever the
    adjustments produced. *)
Lemma clampMetrics_ranges (l : Dashboard.Locals) :
  let c := Dashboard.clampMetrics l in
  (5#10 <= Dashboard.accuracy c /\ Dashboard.accuracy c <= 98#100) /\
  1#100 <= Dashboard.mse (Dashboard.metrics c) /\
  (4#10 <= Dashboard.r2 (Dashboard.metrics c) /\
   Dashboard.r2 (Dashboard.metrics c) <= 98#100) /\
  (5#10 <= Dashboard.correlation (Dashboard.metrics c) /\
   Dashboard.correlation (Dashboard.metrics c) <= 99#100) /\
  2 <= Dashboard.decodeTime (Dashboard.metrics c) /\
  50 <= Dashboard.bitrate (Dashboard.metrics c).
Proof.
  cbn. repeat split;
    first [apply clamp_between; lra | apply Q.le_max_l].
Qed.

(** The best model on the easiest trajectory stays below every cap, so the
    values are the adjusted ones. *)
Example metrics_model3_reaching :
  exists u,
    Dashboard.updateDecoderModelMetrics true "model3" "reaching" = Some u /\
    Dashboard.u_accuracy u == 96768#100000 /\
    Dashboard.mse (Dashboard.u_metrics u) == 15925#1000000 /\
    Dashboard.r2 (Dashboard.u_metrics u) == 882#1000 /\
    Dashboard.correlation (Dashboard.u_metrics u) == 98175#100000.
Proof.
  eexists. split; [reflexivity|]. repeat split; vm_compute; reflexivity.
Qed.

(** C7: for every model identifier and trajectory type, the recomputation
    pass hands the decoder an update whose accuracy lies in [0.5, 0.98],
    whose mse is at least 0.01, whose r2 lies in [0.4, 0.98] and whose
    correlation lies in [0.5, 0.99]. *)
Theorem decoder_metrics_within_ranges :
  forall modelId trajectoryType : string,
  exists u,
    Dashboard.updateDecoderModelMetrics true modelId trajectoryType = Some u /\
    Dashboard.u_trajectoryType u = trajectoryType /\
    (5#10 <= Dashboard.u_accuracy u /\ Dashboard.u_accuracy u <= 98#100) /\
    1#100 <= Dashboard.mse (Dashboard.u_metrics u) /\
    (4#10 <= Dashboard.r2 (Dashboard.u_metrics u) /\
     Dashboard.r2 (Dashboard.u_metrics u) <= 98#100) /\
    (5#10 <= Dashboard.correlation (Dashboard.u_metrics u) /\
     Dashboard.correlation (Dashboard.u_metrics u) <= 99#100).
Proof.
  intros modelId trajectoryType.
  unfold Dashboard.updateDecoderModelMetrics.
  eexists. split; [reflexivity|].
  cbn [Dashboard.u_trajectoryType Dashboard.u_accuracy Dashboard.u_metrics].
  split; [reflexivity|].
  destruct (clampMetrics_ranges
              (Dashboard.adjustTrajectory trajectoryType
                 (Dashboard.adjustModel modelId Dashboard.base)))
    as (Ha & Hm & Hr & Hc & _).
  repeat split; first [apply Ha | apply Hm | apply Hr | apply Hc].
Qed.

(** ** Impedance check *)

Section ImpedanceCheck.

Variable random : nat -> Q.

Lemma recheck_rechecked e k :
  BCI.rechecked (random (S k)) (fst (BCI.recheck random e k)) /\
  BCI.name (fst (BCI.recheck random e k)) = BCI.name e /\
  snd (BCI.recheck random e k) = S (S k).
Proof.
  unfold BCI.recheck, BCI.rechecked, BCI.signalFor, BCI.statusOf.
  set (imp := Qmax 5 (Qmin 40 (BCI.impedance e + (random k - (1#2)) * 10))).
  assert (Hlo : 5 <= imp) by apply Q.le_max_l.
  assert (Hhi : imp <= 40).
  { apply Q.max_lub; [lra|apply Q.le_min_l]. }
  destruct (JS.lt imp 10) eqn:E10.
  { assert (E15 : JS.lt imp 15 = true).
    { apply lt_true_iff. apply lt_true_iff in E10. lra. }
    cbn [fst snd BCI.impedance BCI.e_status BCI.signal BCI.name].
    rewrite E10, E15. repeat split; assumption. }
  destruct (JS.lt imp 15) eqn:E15.
  { cbn [fst snd BCI.impedance BCI.e_status BCI.signal BCI.name].
    rewrite E10, E15. repeat split; assumption. }
  destruct (JS.lt imp 20) eqn:E20;
    cbn [fst snd BCI.impedance BCI.e_status BCI.signal BCI.name];
    rewrite E10, E15, E20; repeat split; assumption.
Qed.

Lemma recheckAll_rechecked es k :
  Forall (fun e => exists j, BCI.rechecked (random j) e)
         (fst (BCI.recheckAll random es k)) /\
  map BCI.name (fst (BCI.recheckAll random es k)) = map BCI.name es /\
  snd (BCI.recheckAll random es k) = (k + 2 * length es)%nat.
Proof.
  revert k. induction es as [|e es IH]; intro k.
  - cbn. split; [constructor|split; [reflexivity|lia]].
  - cbn [BCI.recheckAll].
    destruct (recheck_rechecked e k) as (Hr & Hn & Hk).
    destruct (BCI.recheck random e k) as [e' k1]. cbn [fst snd] in Hr, Hn, Hk.
    specialize (IH k1). destruct (BCI.recheckAll random es k1) as [es' k2].
    cbn [fst snd] in IH |- *. destruct IH as (IH1 & IH2 & IH3).
    split; [|split].
    + constructor; [exists (S k); exact Hr|exact IH1].
    + cbn [map]. now rewrite Hn, IH2.
    + subst. cbn [length]. lia.
Qed.

(** The first nineteen firings only advance the progress bar. *)
Lemma ticks_before_completion es k n :
  (n < 20)%nat ->
  BCI.ticks random n (BCI.runImpedanceCheck es k)
  = BCI.mkCheck (5 * Z.of_nat n) true es k.
Proof.
  intro H. unfold BCI.runImpedanceCheck.
  do 20 (destruct n as [|n]; [reflexivity|]). lia.
Qed.

(** C9: the impedance check completes at the twentieth firing of its
    interval (progress 100), and not before; at completion every
    electrode has an impedance in [5, 40], the status the threshold
    table gives for that impedance (good below 15, moderate below 20,
    poor otherwise), and a signal quality derived from the new impedance
    and a fresh random draw.  Names and order of the electrodes are
    kept. *)
Theorem impedance_check_completion :
  forall es k,
    let c := BCI.ticks random 20 (BCI.runImpedanceCheck es k) in
    (forall n, (n < 20)%nat ->
               BCI.armed (BCI.ticks random n (BCI.runImpedanceCheck es k))
               = true /\
               BCI.electrodes (BCI.ticks random n (BCI.runImpedanceCheck es k))
               = es) /\
    BCI.armed c = false /\
    BCI.progress c = 100%Z /\
    map BCI.name (BCI.electrodes c) = map BCI.name es /\
    Forall (fun e =>
              5 <= BCI.impedance e /\ BCI.impedance e <= 40 /\
              BCI.e_status e = BCI.statusOf (BCI.impedance e) /\
              exists j, BCI.signal e = BCI.signalFor (BCI.impedance e) (random j))
           (BCI.electrodes c) /\
    (forall m, BCI.ticks random m c = c).
Proof.
  intros es k c.
  split.
  { intros n Hn. rewrite (ticks_before_completion es k n Hn).
    split; reflexivity. }
  assert (E : c = BCI.mkCheck 100 false
                    (fst (BCI.recheckAll random es k))
                    (snd (BCI.recheckAll random es k))).
  { subst c. change 20%nat with (19 + 1)%nat.
    replace (BCI.ticks random (19 + 1) (BCI.runImpedanceCheck es k))
      with (BCI.tick random (BCI.ticks random 19 (BCI.runImpedanceCheck es k))).
    2:{ unfold BCI.runImpedanceCheck. reflexivity. }
    rewrite (ticks_before_completion es k 19) by lia.
    unfold BCI.tick. cbn [BCI.armed BCI.progress BCI.electrodes BCI.calls].
    destruct (BCI.recheckAll random es k). reflexivity. }
  destruct (recheckAll_rechecked es k) as (HF & HN & _).
  rewrite E. cbn [BCI.armed BCI.progress BCI.electrodes].
  split; [reflexivity|]. split; [reflexivity|]. split; [exact HN|].
  split.
  - eapply Forall_impl; [|exact HF].
    intros e (j & H1 & H2 & H3 & H4). repeat split; try assumption.
    exists j. exact H4.
  - induction m as [|m IH]; [reflexivity|]. cbn [BCI.ticks]. exact IH.
Qed.

End ImpedanceCheck.

(** Draws in the range of [Math.random()] keep the derived signal within
    the band of its impedance class, between 70 and 100 percent. *)
Lemma signalFor_range imp r :
  0 <= r -> r < 1 ->
  70 <= BCI.signalFor imp r /\ BCI.signalFor imp r < 100 /\
  (imp < 15 -> 90 <= BCI.signalFor imp r) /\
  (20 <= imp -> BCI.signalFor imp r < 80).
Proof.
  intros H0 H1. unfold BCI.signalFor.
  destruct (JS.lt imp 10) eqn:E10;
    [apply lt_true_iff in E10|apply lt_false_iff in E10];
    (destruct (JS.lt imp 15) eqn:E15;
     [apply lt_true_iff in E15|apply lt_false_iff in E15]);
    (destruct (JS.lt imp 20) eqn:E20;
     [apply lt_true_iff in E20|apply lt_false_iff in E20]);
    repeat split; intros; lra.
Qed.

(** ** Attention tensor *)

Lemma sum_from (l : list Q) (a : Q) : fold_left Qplus l a == a + JS.sum l.
Proof.
  unfold JS.sum. revert a. induction l as [|x l IH]; intro a; cbn [fold_left].
  - lra.
  - rewrite (IH (a + x)), (IH (0 + x)). lra.
Qed.

Lemma sum_cons (x : Q) (l : list Q) : JS.sum (x :: l) == x + JS.sum l.
Proof. unfold JS.sum at 1. cbn [fold_left]. rewrite sum_from. lra. Qed.

Lemma sum_nonneg (l : list Q) : Forall (fun v => 0 <= v) l -> 0 <= JS.sum l.
Proof.
  induction 1 as [|x l Hx _ IH]; [unfold JS.sum; cbn; lra|].
  rewrite sum_cons. lra.
Qed.

Lemma sum_positive (l : list Q) :
  Forall (fun v => 0 <= v) l -> Exists (fun v => 0 < v) l -> 0 < JS.sum l.
Proof.
  intros Hall Hex. induction Hex as [x l Hx|x l _ IH].
  - rewrite sum_cons. inversion Hall; subst.
    assert (0 <= JS.sum l) by now apply sum_nonneg. lra.
  - rewrite sum_cons. inversion Hall; subst.
    assert (0 < JS.sum l) by now apply IH. lra.
Qed.

Lemma div_by_nonzero (v s : Q) : ~ s == 0 -> JS.div v s = Some (v / s).
Proof.
  intro H. unfold JS.div. destruct (Qeq_bool s 0) eqn:E; [|reflexivity].
  apply Qeq_bool_iff in E. contradiction.
Qed.

Lemma div_by_zero (v s : Q) : s == 0 -> JS.div v s = None.
Proof.
  intro H. unfold JS.div.
  replace (Qeq_bool s 0) with true by (symmetry; now apply Qeq_bool_iff).
  reflexivity.
Qed.

(** Dividing every entry by a non-zero number divides the total. *)
Lemma osum_scaled (l : list Q) (s acc : Q) :
  ~ s == 0 ->
  exists t,
    fold_left (fun a v => match a, v with
                          | Some x, Some y => Some (x + y)
                          | _, _ => None
                          end)
              (map (fun v => JS.div v s) l) (Some acc) = Some t /\
    t == acc + JS.sum l / s.
Proof.
  intro Hs. revert acc. induction l as [|x l IH]; intro acc.
  - exists acc. split; [reflexivity|]. unfold JS.sum. cbn [fold_left].
    field. exact Hs.
  - cbn [map fold_left]. rewrite (div_by_nonzero x s Hs).
    destruct (IH (acc + x / s)) as (t & Ht & Et).
    exists t. split; [exact Ht|]. rewrite Et, sum_cons. field. exact Hs.
Qed.

(** A row whose draws do not sum to zero is normalized to total 1. *)
Lemma normalizeRow_sums_to_one (row : list Q) :
  ~ JS.sum row == 0 ->
  exists t, JS.osum (Processor.normalizeRow row) = Some t /\ t == 1.
Proof.
  intro Hs. unfold Processor.normalizeRow, JS.osum.
  destruct (osum_scaled row (JS.sum row) 0 Hs) as (t & Ht & Et).
  exists t. split; [exact Ht|]. rewrite Et. field. exact Hs.
Qed.

(** A row whose draws sum to zero has no finite entry after the division,
    and no finite total. *)
Lemma normalizeRow_zero_sum (row : list Q) :
  JS.sum row == 0 ->
  Processor.normalizeRow row = map (fun _ => None) row /\
  (row <> [] -> JS.osum (Processor.normalizeRow row) = None).
Proof.
  intro Hs.
  assert (E : Processor.normalizeRow row = map (fun _ => None) row).
  { unfold Processor.normalizeRow. apply map_ext. intro v.
    now apply div_by_zero. }
  split; [exact E|]. rewrite E. intro Hne. unfold JS.osum.
  destruct row as [|x row]; [contradiction|]. cbn [map fold_left].
  clear. induction row as [|y row IH]; [reflexivity|exact IH].
Qed.

Section Generator.

Variable random : nat -> Q.

Lemma fillMap_spec {A} (f : Processor.Gen A) (P : A -> Prop) (n k : nat) :
  (forall j, P (fst (f j))) ->
  length (fst (Processor.fillMap n f k)) = n /\
  Forall P (fst (Processor.fillMap n f k)).
Proof.
  intro H. revert k. induction n as [|n IH]; intro k; cbn [Processor.fillMap].
  - split; [reflexivity|constructor].
  - specialize (H k). destruct (f k) as [x k1]. specialize (IH k1).
    destruct (Processor.fillMap n f k1) as [xs k2]. cbn [fst] in *.
    destruct IH as [IH1 IH2]. split; [cbn; lia|constructor; assumption].
Qed.

Lemma draw_row_spec (k : nat) :
  fst (Processor.fillMap 16 (Processor.Math_random random) k)
  = map random (seq k 16).
Proof. reflexivity. Qed.

(** Every row of the tensor is a normalized row of sixteen draws, and
    every head has sixteen rows. *)
Lemma generateRandomAttentionMatrix_rows (numHeads k : nat) :
  length (fst (Processor.generateRandomAttentionMatrix random numHeads k))
  = numHeads /\
  Forall (fun head =>
            length head = 16%nat /\
            Forall (fun row => exists draws,
                        Processor.drawn_row random draws /\
                        row = Processor.normalizeRow draws)
                   head)
         (fst (Processor.generateRandomAttentionMatrix random numHeads k)).
Proof.
  unfold Processor.generateRandomAttentionMatrix.
  apply fillMap_spec. intro j. unfold Processor.attentionHead.
  destruct (Processor.drawMatrix random j) as [m k'] eqn:E.
  cbn [fst]. rewrite length_map.
  assert (H := fillMap_spec
                 (Processor.fillMap Processor.sequenceLength
                                    (Processor.Math_random random))
                 (Processor.drawn_row random) Processor.sequenceLength j
                 (fun i => ex_intro _ i (draw_row_spec i))).
  unfold Processor.drawMatrix in E. rewrite E in H. cbn [fst] in H.
  destruct H as [Hlen Hrows]. split; [exact Hlen|].
  apply Forall_map. eapply Forall_impl; [|exact Hrows].
  intros draws Hd. exists draws. split; [exact Hd|reflexivity].
Qed.

(** When [Math.random()] never returns zero, every row of every head sums
    to 1. *)
Lemma attention_rows_sum_to_one (numHeads k : nat) :
  (forall n, 0 < random n) ->
  Forall (Forall (fun row => length row = 16%nat /\
                             exists t, JS.osum row = Some t /\ t == 1))
         (fst (Processor.generateRandomAttentionMatrix random numHeads k)).
Proof.
  intro Hpos.
  destruct (generateRandomAttentionMatrix_rows numHeads k) as [_ H].
  eapply Forall_impl; [|exact H]. intros head [_ Hrows].
  eapply Forall_impl; [|exact Hrows].
  intros row (draws & (j & ->) & ->). split.
  - unfold Processor.normalizeRow. now rewrite !length_map, length_seq.
  - apply normalizeRow_sums_to_one.
    assert (0 < JS.sum (map random (seq j 16))); [|lra].
    apply sum_positive.
    + apply Forall_map, Forall_forall. intros n _.
      apply Qlt_le_weak, Hpos.
    + apply Exists_exists. exists (random j). split; [left; reflexivity|apply Hpos].
Qed.

End Generator.

(** C8: every tensor produced by [generateRandomAttentionMatrix(numHeads)]
    is row-stochastic.  For draws that are not negative and such that
    sixteen successive draws are never all zero, the tensor has
    [numHeads] heads, every head has sixteen rows of sixteen entries, and
    the entries of every row are finite numbers whose sum is exactly 1. *)
Theorem attention_tensor_is_row_stochastic :
  forall random numHeads k,
    (forall n, 0 <= random n) ->
    (forall j, exists i, (j <= i < j + 16)%nat /\ 0 < random i) ->
    let tensor :=
      fst (Processor.generateRandomAttentionMatrix random numHeads k) in
    length tensor = numHeads /\
    Forall (fun head =>
              length head = 16%nat /\
              Forall (fun row => length row = 16%nat /\
                                 exists t, JS.osum row = Some t /\ t == 1)
                     head)
           tensor.
Proof.
  intros random numHeads k Hnn Hpos tensor. subst tensor.
  destruct (generateRandomAttentionMatrix_rows random numHeads k) as [Hl H].
  split; [exact Hl|].
  eapply Forall_impl; [|exact H]. intros head [Hlen Hrows].
  split; [exact Hlen|].
  eapply Forall_impl; [|exact Hrows].
  intros row (draws & (j & ->) & ->). split.
  - unfold Processor.normalizeRow. now rewrite !length_map, length_seq.
  - apply normalizeRow_sums_to_one.
    assert (0 < JS.sum (map random (seq j 16))); [|lra].
    apply sum_positive.
    + apply Forall_map, Forall_forall. intros n _. apply Hnn.
    + destruct (Hpos j) as (i & Hi & Hr).
      apply Exists_exists. exists (random i). split; [|exact Hr].
      apply in_map, in_seq. lia.
Qed.

Lemma attention_tensor_is_row_stochastic_witness :
  let random := fun _ : nat => 1#2 in
  (forall n, 0 <= random n) /\
  (forall j, exists i, (j <= i < j + 16)%nat /\ 0 < random i) /\
  length (fst (Processor.generateRandomAttentionMatrix random 8 0%nat))
  = 8%nat.
Proof.
  intro random.
  assert (Hnn : forall n, 0 <= random n) by (intro; discriminate).
  assert (Hpos : forall j, exists i, (j <= i < j + 16)%nat /\ 0 < random i).
  { intro j. exists j. split; [lia|reflexivity]. }
  split; [exact Hnn|]. split; [exact Hpos|].
  exact (proj1 (attention_tensor_is_row_stochastic random 8%nat 0%nat
                  Hnn Hpos)).
Defined.

(** The hypothesis that a row has a positive draw cannot be dropped from
    the model: were the sixteen calls of [Math.random()] for a row all to
    return 0, the row's sum would be 0 and every entry 0/0.  Here every
    call returns 0 and one head is generated.  With every call returning
    1/2 instead, all sixteen rows sum to 1. *)
Example attention_row_of_zero_draws :
  let tensor :=
    fst (Processor.generateRandomAttentionMatrix (fun _ => 0) 1%nat 0%nat) in
  let tensor' :=
    fst (Processor.generateRandomAttentionMatrix (fun _ => 1#2) 1%nat 0%nat) in
  tensor = [repeat (repeat None 16) 16] /\
  (forall head row, In head tensor -> In row head ->
                    JS.osum row = None /\
                    ~ (exists t, JS.osum row = Some t /\ t == 1)) /\
  Forall (Forall (fun row => length row = 16%nat /\
                             exists t, JS.osum row = Some t /\ t == 1))
         tensor'.
Proof.
  cbv zeta.
  assert (E : fst (Processor.generateRandomAttentionMatrix (fun _ => 0) 1%nat 0%nat)
              = [repeat (repeat None 16) 16]) by (vm_compute; reflexivity).
  split; [exact E|]. split.
  - rewrite E.
    intros head row [<-|[]] Hrow. apply repeat_spec in Hrow. subst row.
    split; [reflexivity|]. intros (t & Ht & _). discriminate.
  - apply attention_rows_sum_to_one. intro. reflexivity.
Qed.

(** * Further properties of the modelled code *)

(** ** Choice of the action to trigger *)

Section Selection.

Import Trace.

Variable v : ActionVerbs.

Lemma pick_chosen (l : list action) :
  chosen v l (fold_left (pick v) l (0, None)).
Proof.
  induction l as [|x l IH] using rev_ind.
  - cbn. split; [reflexivity|]. intros b [].
  - rewrite fold_left_app. cbn [fold_left].
    destruct (fold_left (pick v) l (0, None)) as [h r].
    unfold pick at 1. cbn [fst snd].
    assert (Hthr : 0 < threshold) by reflexivity.
    destruct (JS.gt (confidence (get x v)) h) eqn:Egt;
      [apply gt_true_iff in Egt|apply gt_false_iff in Egt];
      (destruct (JS.ge (confidence (get x v)) threshold) eqn:Ege;
       [apply ge_true_iff in Ege|apply ge_false_iff in Ege]);
      cbn [andb]; unfold chosen in *; cbn [fst snd] in *.
    + split; [reflexivity|]. split; [exact Ege|].
      exists l, []. split; [reflexivity|]. split; [|intros b []].
      intros b Hb. destruct r as [a|].
      * destruct IH as (Eh & _ & pre & post & -> & Hpre & Hpost).
        rewrite Eh in Egt.
        apply in_app_or in Hb. destruct Hb as [Hb|[<-|Hb]].
        -- specialize (Hpre b Hb). lra.
        -- exact Egt.
        -- specialize (Hpost b Hb). lra.
      * destruct IH as [_ IH]. specialize (IH b Hb). lra.
    + destruct r as [a|].
      * destruct IH as (Eh & Ha & pre & post & -> & Hpre & Hpost).
        subst h. split; [reflexivity|]. split; [exact Ha|].
        exists pre, (post ++ [x]). rewrite <- app_assoc. split; [reflexivity|].
        split; [exact Hpre|]. intros b Hb.
        apply in_app_or in Hb. destruct Hb as [Hb|[<-|[]]]; [auto|lra].
      * destruct IH as [Eh IH]. split; [exact Eh|]. intros b Hb.
        apply in_app_or in Hb. destruct Hb as [Hb|[<-|[]]]; [auto|exact Ege].
    + destruct r as [a|].
      * destruct IH as (Eh & Ha & pre & post & -> & Hpre & Hpost).
        subst h. split; [reflexivity|]. split; [exact Ha|].
        exists pre, (post ++ [x]). rewrite <- app_assoc. split; [reflexivity|].
        split; [exact Hpre|]. intros b Hb.
        apply in_app_or in Hb. destruct Hb as [Hb|[<-|[]]]; [auto|lra].
      * destruct IH as [Eh IH]. subst h. split; [reflexivity|]. intros b Hb.
        apply in_app_or in Hb. destruct Hb as [Hb|[<-|[]]]; [auto|lra].
    + destruct r as [a|].
      * destruct IH as (Eh & Ha & pre & post & -> & Hpre & Hpost).
        subst h. split; [reflexivity|]. split; [exact Ha|].
        exists pre, (post ++ [x]). rewrite <- app_assoc. split; [reflexivity|].
        split; [exact Hpre|]. intros b Hb.
        apply in_app_or in Hb. destruct Hb as [Hb|[<-|[]]]; [auto|lra].
      * destruct IH as [Eh IH]. split; [exact Eh|]. intros b Hb.
        apply in_app_or in Hb. destruct Hb as [Hb|[<-|[]]]; [auto|exact Ege].
Qed.

Lemma action_names_complete (b : action) : In b action_names.
Proof. destruct b; cbn; tauto. Qed.

Lemma action_names_split (a : action) (pre post : list action) :
  action_names = pre ++ a :: post ->
  forall b, (In b pre <-> (rank b < rank a)%nat) /\
            (In b post <-> (rank a < rank b)%nat).
Proof.
  intros E b. unfold action_names in E.
  destruct a;
    do 5 (try (destruct pre as [|? pre]; cbn in E; try discriminate E));
    try (destruct pre; discriminate E);
    injection E as <-; repeat match goal with H : _ = _ |- _ => subst end;
    destruct b; cbn; split; split; intros; try lia; try tauto;
    repeat match goal with H : _ \/ _ |- _ => destruct H end;
    try discriminate; try contradiction.
Qed.

Lemma selectAction_spec :
  (forall a,
      selectAction v = Some a ->
      threshold <= confidence (get a v) /\
      forall b, confidence (get b v) <= confidence (get a v) /\
                ((rank b < rank a)%nat ->
                 confidence (get b v) < confidence (get a v))) /\
  (selectAction v = None <->
   forall b, confidence (get b v) < threshold).
Proof.
  assert (H := pick_chosen action_names).
  unfold chosen in H. change (fold_left (pick v) action_names (0, None))
    with (fold_left
            (fun (acc : Q * option action) name =>
               let actionState := get name v in
               if JS.gt (confidence actionState) (fst acc)
                  && JS.ge (confidence actionState) threshold
               then (confidence actionState, Some name)
               else acc) action_names (0, None)) in H.
  unfold selectAction. destruct (snd _) as [a'|].
  - destruct H as (_ & Hthr & pre & post & E & Hpre & Hpost).
    split.
    + intros a Ha. injection Ha as <-. split; [exact Hthr|]. intro b.
      destruct (action_names_split a' pre post E b) as [Hb1 Hb2].
      split.
      * pose proof (action_names_complete b) as Hin. rewrite E in Hin.
        apply in_app_or in Hin. destruct Hin as [Hin|[<-|Hin]].
        -- apply Qlt_le_weak. auto.
        -- apply Qle_refl.
        -- auto.
      * intro Hr. apply Hpre. apply Hb1. exact Hr.
    + split; [discriminate|]. intro Hall. specialize (Hall a'). lra.
  - destruct H as [_ H]. split; [discriminate|].
    split; [|reflexivity]. intros _ b. apply H, action_names_complete.
Qed.

(** The first key of largest confidence is the one selected, provided it
    reaches the threshold. *)
Lemma selectAction_unique (a : action) :
  threshold <= confidence (get a v) ->
  (forall b, confidence (get b v) <= confidence (get a v) /\
             ((rank b < rank a)%nat ->
              confidence (get b v) < confidence (get a v))) ->
  selectAction v = Some a.
Proof.
  intros Hthr Ha. destruct selectAction_spec as [Hsome Hnone].
  destruct (selectAction v) as [a'|] eqn:E.
  - destruct (Hsome a' eq_refl) as [_ Ha'].
    destruct (Ha a') as [L1 S1]. destruct (Ha' a) as [L2 S2].
    destruct a, a'; try reflexivity; exfalso; cbn [rank] in S1, S2;
      first [specialize (S1 ltac:(lia)) | specialize (S2 ltac:(lia))]; lra.
  - specialize (proj1 Hnone eq_refl a). lra.
Qed.

End Selection.

(** X1: the action [considerTriggeringAction] selects has a confidence at
    or above the threshold, no accumulator has a larger one, and among
    equals the earlier key of [ACTION_VERBS] wins; it selects nothing
    exactly when every accumulator is below the threshold. *)
Theorem selectAction_picks_first_highest :
  forall v,
    (forall a,
        selectAction v = Some a ->
        threshold <= confidence (get a v) /\
        forall b, confidence (get b v) <= confidence (get a v) /\
                  ((Trace.rank b < Trace.rank a)%nat ->
                   confidence (get b v) < confidence (get a v))) /\
    (selectAction v = None <->
     forall b, confidence (get b v) < threshold).
Proof. exact selectAction_spec. Qed.

(** ** Runs of the engine *)

Section Runs.

Import Trace.

(** The three ways [handleNeuralClassification] can go. *)
Lemma handleNeuralClassification_cases now d st :
  (nl_active st = false /\ handleNeuralClassification now d st = st) \/
  (nl_active st = true /\
   (d = None \/ exists dd, d = Some dd /\ truthy_class (class dd) = None) /\
   handleNeuralClassification now d st
   = mkState true true now (neuralFeatures st) (verbs st) (fired st)) \/
  (nl_active st = true /\
   exists dd cls,
     d = Some dd /\ truthy_class (class dd) = Some cls /\
     let u := mkState true true now (neuralFeatures st)
                (updateActionStates (Some cls) (JS.or0 (ev_confidence dd))
                                    (verbs st))
                (fired st) in
     (JS.or0 (ev_confidence dd) < threshold /\
      handleNeuralClassification now d st = u) \/
     (threshold <= JS.or0 (ev_confidence dd) /\
      handleNeuralClassification now d st = considerTriggeringAction now u)).
Proof.
  unfold handleNeuralClassification.
  destruct (nl_active st) eqn:Hact; cbn [negb]; [|left; auto].
  right. destruct d as [dd|]; [|left; repeat split; left; reflexivity].
  destruct (truthy_class (class dd)) as [cls|] eqn:Hcls.
  - right. split; [reflexivity|]. exists dd, cls.
    split; [reflexivity|]. split; [exact Hcls|]. cbn [verbs with_verbs].
    destruct (JS.ge _ threshold) eqn:E.
    + right. apply ge_true_iff in E. split; [exact E|reflexivity].
    + left. apply ge_false_iff in E. split; [exact E|reflexivity].
  - left. repeat split. right. exists dd. split; [reflexivity|exact Hcls].
Qed.

Lemma action_eqb_eq (a b : action) : action_eqb a b = true <-> a = b.
Proof. destruct a, b; cbn; split; intro H; congruence. Qed.

Lemma action_eqb_refl (a : action) : action_eqb a a = true.
Proof. now apply action_eqb_eq. Qed.

Lemma action_eqb_neq (a b : action) : a <> b -> action_eqb a b = false.
Proof.
  intro H. destruct (action_eqb a b) eqn:E; [|reflexivity].
  apply action_eqb_eq in E. contradiction.
Qed.

Lemma considerTriggeringAction_logged now st :
  logged st -> logged (considerTriggeringAction now st).
Proof.
  intros [Hs Hl]. unfold considerTriggeringAction.
  destruct (selectAction (verbs st)) as [a|]; [|split; assumption].
  destruct (_ >? 2000)%Z eqn:E; [|split; assumption].
  apply Z.gtb_lt in E. fold (last_of a (verbs st)) in E.
  unfold logged. cbn [fired verbs]. rewrite rev_unit. cbn [spaced last_time].
  split.
  - split; [rewrite <- Hl; lia|exact Hs].
  - intro b. unfold last_of. destruct (action_eqb b a) eqn:Eb.
    + apply action_eqb_eq in Eb. subst b. now rewrite get_update_same.
    + rewrite get_update_other.
      * apply Hl.
      * intro Hc. subst b. rewrite action_eqb_refl in Eb. discriminate.
Qed.

Lemma updateActionStates_last cls c v a :
  last_of a (updateActionStates cls c v) = last_of a v.
Proof.
  unfold last_of.
  destruct (updateActionStates_keeps cls c v a) as (_ & -> & _). reflexivity.
Qed.

Lemma step_logged i st : logged st -> logged (step i st).
Proof.
  intros [Hs Hl]. destruct i as [now d|now d| |b]; cbn [step].
  - destruct (handleNeuralClassification_cases now d st)
      as [[_ ->]|[(_ & _ & ->)|(_ & dd & cls & _ & _ & [[_ ->]|[_ ->]])]].
    + split; assumption.
    + split; assumption.
    + split; [exact Hs|]. intro a. cbn [verbs fired].
      rewrite updateActionStates_last. apply Hl.
    + apply considerTriggeringAction_logged.
      split; [exact Hs|]. intro a. cbn [verbs fired].
      rewrite updateActionStates_last. apply Hl.
  - unfold handleNeuralFeatures.
    destruct (nl_active st); cbn [negb]; [|split; assumption].
    destruct d as [d|]; [|split; assumption].
    destruct (features d); [|split; assumption].
    split; [exact Hs|]. intro a. cbn [verbs fired].
    rewrite updateActionStates_last. apply Hl.
  - split; [exact Hs|]. intro a. unfold toggleNeuralIntegration.
    cbn [verbs fired]. unfold last_of. rewrite get_for_in. apply Hl.
  - split; [exact Hs|]. intro a. unfold clearTriggered, with_verbs.
    cbn [verbs fired]. rewrite <- Hl. unfold last_of.
    destruct a, b; reflexivity.
Qed.

Lemma reachable_logged st :
  reachable st ->
  spaced (rev (fired st)) /\
  forall a, match lastTriggered (get a (verbs st)) with
            | Some t => t
            | None => 0%Z
            end = last_time a (rev (fired st)).
Proof.
  intros [ins ->]. induction ins as [|i ins IH] using rev_ind.
  - split; [exact I|]. intro a. destruct a; reflexivity.
  - rewrite run_snoc. now apply step_logged.
Qed.

Lemma spaced_suffix (l m : list (action * Z)) : spaced (l ++ m) -> spaced m.
Proof.
  induction l as [|[a t] l IH]; [auto|]. cbn. intros [_ H]. auto.
Qed.

Lemma last_time_skip (a : action) (l m : list (action * Z)) :
  (forall e, In e l -> fst e <> a) ->
  last_time a (l ++ m) = last_time a m.
Proof.
  induction l as [|[b t] l IH]; intro H; [reflexivity|].
  cbn. rewrite action_eqb_neq.
  - apply IH. intros e He. apply H. now right.
  - intro Hc. apply (H (b, t)); [now left|]. now symmetry.
Qed.

Lemma spaced_last_time_nonneg (a : action) (l : list (action * Z)) :
  spaced l -> (0 <= last_time a l)%Z.
Proof.
  induction l as [|[b t] l IH]; cbn; [lia|]. intros [Ht Hs].
  destruct (action_eqb a b) eqn:E; [|auto].
  apply action_eqb_eq in E. subst b. specialize (IH Hs). lia.
Qed.

End Runs.

(** X2: in every state the engine can reach, whatever the clock readings
    were, two successive triggers of the same action recorded by
    [considerTriggeringAction] lie more than 2000 ms apart, the first
    trigger of an action happened at a clock reading above 2000, and the
    action's [lastTriggered] is the reading of its latest trigger;
    switching the engine off and on does not shorten the window. *)
Theorem triggers_of_an_action_are_spaced :
  forall st a,
    reachable st ->
    (forall l1 l2 l3 t1 t2,
        fired st = l1 ++ (a, t1) :: l2 ++ (a, t2) :: l3 ->
        (forall e, In e l2 -> fst e <> a) ->
        (t2 - t1 > 2000)%Z) /\
    (forall l1 l3 t,
        fired st = l1 ++ (a, t) :: l3 ->
        (forall e, In e l1 -> fst e <> a) ->
        (t > 2000)%Z) /\
    (forall l1 t,
        fired st = l1 ++ [(a, t)] ->
        lastTriggered (get a (verbs st)) = Some t) /\
    lastTriggered (get a (verbs (toggleNeuralIntegration st)))
    = lastTriggered (get a (verbs st)).
Proof.
  intros st a Hr. destruct (reachable_logged st Hr) as [Hs Hl].
  split; [|split; [|split]].
  - intros l1 l2 l3 t1 t2 E Hl2. rewrite E in Hs.
    rewrite rev_app_distr in Hs. cbn [rev] in Hs.
    rewrite rev_app_distr in Hs. cbn [rev] in Hs.
    rewrite <- !app_assoc in Hs. cbn [app] in Hs.
    apply spaced_suffix in Hs. cbn [Trace.spaced] in Hs. destruct Hs as [Hs _].
    rewrite last_time_skip in Hs.
    + cbn [Trace.last_time] in Hs. rewrite action_eqb_refl in Hs. exact Hs.
    + intros e He. apply Hl2. now apply in_rev.
  - intros l1 l3 t E Hl1. rewrite E in Hs.
    rewrite rev_app_distr in Hs. cbn [rev] in Hs.
    rewrite <- app_assoc in Hs. cbn [app] in Hs.
    apply spaced_suffix in Hs. cbn [Trace.spaced] in Hs. destruct Hs as [Hs _].
    rewrite <- (app_nil_r (rev l1)) in Hs. rewrite last_time_skip in Hs.
    + cbn [Trace.last_time] in Hs. lia.
    + intros e He. apply Hl1. now apply in_rev.
  - intros l1 t E. specialize (Hl a). rewrite E, rev_unit in Hl, Hs.
    cbn [Trace.last_time Trace.spaced] in Hl, Hs.
    rewrite action_eqb_refl in Hl.
    destruct (lastTriggered (get a (verbs st))) as [t'|]; [now subst|].
    subst t. destruct Hs as [Hs Hs'].
    pose proof (spaced_last_time_nonneg a _ Hs'). lia.
  - unfold toggleNeuralIntegration. cbn [verbs]. now rewrite get_for_in.
Qed.

Lemma triggers_of_an_action_are_spaced_witness :
  let rightHand := mkClassification (Some "Right Hand"%string) (Some (9#10)) in
  let st := run [Toggle;
                 Classification 1700000000000 (Some rightHand);
                 Classification 1700000001000 (Some rightHand);
                 Classification 1700000002001 (Some rightHand)] init in
  reachable st /\
  fired st = [(navigate, 1700000000000%Z); (navigate, 1700000002001%Z)] /\
  (1700000002001 - 1700000000000 > 2000)%Z.
Proof.
  intros rightHand st.
  assert (Hr : reachable st) by (eexists; reflexivity).
  assert (E : fired st = [] ++ (navigate, 1700000000000%Z)
                            :: [] ++ (navigate, 1700000002001%Z) :: [])
    by (vm_compute; reflexivity).
  split; [exact Hr|]. split; [exact E|].
  destruct (triggers_of_an_action_are_spaced st navigate Hr) as [H _].
  apply (H [] [] [] _ _ E). intros e [].
Defined.

(** ** Accumulators that are never raised, and bounded confidences *)

Section NeverRaised.

Import Trace.

Lemma updateActionStates_idle cls c v :
  idle v -> idle (updateActionStates cls c v).
Proof.
  intros (Hc & Hd & Dc & Dd & Ht). unfold idle.
  assert (Htopic : forall a, topic (get a (updateActionStates cls c v)) = None).
  { intro a. destruct (updateActionStates_keeps cls c v a) as (_ & _ & ->).
    apply Ht. }
  cbn [get] in Hc, Hd, Dc, Dd.
  refine (conj _ (conj _ (conj _ (conj _ Htopic))));
    unfold updateActionStates; rewrite !get_for_in;
    (destruct cls as [s|];
     [repeat match goal with
             | |- context [String.eqb s ?x] => destruct (String.eqb s x)
             end|]);
    cbn [confidence direction set_active set_confidence set_direction
         get update put for_in fold_left action_names
         v_navigate v_select v_modify v_create v_delete];
    first [lra | assumption].
Qed.

End NeverRaised.

Section NeverRaisedRuns.

Import Trace.

Lemma considerTriggeringAction_topic now st a :
  topic (get a (verbs (considerTriggeringAction now st)))
  = topic (get a (verbs st)).
Proof.
  unfold considerTriggeringAction.
  destruct (selectAction (verbs st)) as [b|]; [|reflexivity].
  destruct (_ >? 2000)%Z; [|reflexivity].
  destruct a, b; reflexivity.
Qed.

Lemma considerTriggeringAction_idle now st :
  idle (verbs st) -> idle (verbs (considerTriggeringAction now st)).
Proof.
  intros (Hc & Hd & Dc & Dd & Ht). unfold idle.
  destruct (considerTriggeringAction_keeps now st create) as (-> & -> & _).
  destruct (considerTriggeringAction_keeps now st delete) as (-> & -> & _).
  repeat split; try assumption.
  intro a. rewrite considerTriggeringAction_topic. apply Ht.
Qed.

(** What a call of [considerTriggeringAction] adds to the log. *)
Lemma considerTriggeringAction_fired now st :
  fired (considerTriggeringAction now st) = fired st \/
  exists a,
    selectAction (verbs st) = Some a /\
    fired (considerTriggeringAction now st) = fired st ++ [(a, now)] /\
    triggered (get a (verbs (considerTriggeringAction now st))) = true /\
    lastTriggered (get a (verbs (considerTriggeringAction now st))) = Some now.
Proof.
  unfold considerTriggeringAction.
  destruct (selectAction (verbs st)) as [a|]; [|left; reflexivity].
  destruct (_ >? 2000)%Z; [|left; reflexivity].
  right. exists a. cbn [fired verbs]. rewrite get_update_same.
  repeat split.
Qed.

Lemma idle_selects_routable v a :
  idle v -> selectAction v = Some a -> routable a.
Proof.
  intros (Hc & Hd & _) Hsel.
  destruct (proj1 (selectAction_spec v) a Hsel) as [Hthr _].
  assert (0 < threshold) by reflexivity. unfold routable.
  destruct a; auto; exfalso; lra.
Qed.

Lemma step_idle i st :
  idle (verbs st) /\ (forall e, In e (fired st) -> routable (fst e)) ->
  idle (verbs (step i st)) /\
  (forall e, In e (fired (step i st)) -> routable (fst e)).
Proof.
  intros [Hi Hf]. destruct i as [now d|now d| |b]; cbn [step].
  - destruct (handleNeuralClassification_cases now d st)
      as [[_ ->]|[(_ & _ & ->)|(_ & dd & cls & _ & _ & [[_ ->]|[_ ->]])]];
      try (split; assumption).
    + split; [now apply updateActionStates_idle|exact Hf].
    + set (u := mkState _ _ _ _ _ _).
      assert (Hu : idle (verbs u)) by now apply updateActionStates_idle.
      split; [now apply considerTriggeringAction_idle|].
      destruct (considerTriggeringAction_fired now u) as [->|(a & Hs & -> & _)];
        [exact Hf|].
      intros e He. apply in_app_or in He. destruct He as [He|[<-|[]]];
        [now apply Hf|]. exact (idle_selects_routable _ _ Hu Hs).
  - unfold handleNeuralFeatures.
    destruct (nl_active st); cbn [negb]; [|split; assumption].
    destruct d as [d|]; [|split; assumption].
    destruct (features d); [|split; assumption].
    split; [now apply updateActionStates_idle|exact Hf].
  - split; [|exact Hf]. destruct Hi as (_ & _ & Dc & Dd & Ht).
    unfold toggleNeuralIntegration, idle. cbn [verbs].
    rewrite !get_for_in. cbn [confidence direction set_triggered set_active
                              set_confidence].
    repeat split; try assumption; try reflexivity.
    intro a. rewrite get_for_in. apply Ht.
  - split; [|exact Hf]. destruct Hi as (Hc & Hd & Dc & Dd & Ht).
    unfold clearTriggered, with_verbs, idle. cbn [verbs].
    repeat split; try (destruct b; assumption).
    intro a. specialize (Ht a). destruct a, b; exact Ht.
Qed.

Lemma reachable_idle st :
  reachable st ->
  idle (verbs st) /\ (forall e, In e (fired st) -> routable (fst e)).
Proof.
  intros [ins ->]. induction ins as [|i ins IH] using rev_ind.
  - split; [|intros e []]. repeat split; try reflexivity.
    intro a; destruct a; reflexivity.
  - rewrite run_snoc. now apply step_idle.
Qed.

End NeverRaisedRuns.

(** X3: nothing in the engine ever raises [create] or [delete]: in every
    reachable state their confidence is zero, they are inactive and without
    direction, the selection never picks them, no trigger of them was ever
    recorded, and no accumulator has a topic. *)
Theorem create_and_delete_are_never_raised :
  forall st a,
    reachable st ->
    (a = create \/ a = delete) ->
    confidence (get a (verbs st)) == 0 /\
    active (get a (verbs st)) = false /\
    direction (get a (verbs st)) = None /\
    selectAction (verbs st) <> Some a /\
    (forall t, ~ In (a, t) (fired st)) /\
    (forall b, topic (get b (verbs st)) = None).
Proof.
  intros st a Hr Ha.
  destruct (reachable_idle st Hr) as [Hi Hf].
  destruct (reachable_invariant st Hr) as [_ Hd].
  assert (Hz : confidence (get a (verbs st)) == 0
               /\ direction (get a (verbs st)) = None).
  { destruct Hi as (Hc & Hdl & Dc & Dd & _). destruct Ha as [->| ->]; auto. }
  destruct Hz as [Hz Hdir].
  split; [exact Hz|]. split.
  { rewrite (Hd a). apply gt_false_iff. lra. }
  split; [exact Hdir|]. split.
  { intro Hs. destruct (proj1 (selectAction_spec (verbs st)) a Hs) as [Hthr _].
    assert (0 < threshold) by reflexivity. lra. }
  split.
  { intros t Hin. specialize (Hf _ Hin). cbn [fst] in Hf.
    destruct Ha as [->| ->]; destruct Hf as [Hf|[Hf|Hf]]; discriminate. }
  destruct Hi as (_ & _ & _ & _ & Ht). exact Ht.
Qed.

Lemma create_and_delete_are_never_raised_witness :
  let st := run [Toggle;
                 Classification 1700000000000
                   (Some (mkClassification (Some "Tongue"%string) (Some 1)));
                 Classification 1700000003000
                   (Some (mkClassification (Some "Feet"%string) (Some 1)))]
                init in
  reachable st /\
  fired st = [(select, 1700000000000%Z); (modify, 1700000003000%Z)] /\
  confidence (get create (verbs st)) == 0.
Proof.
  intro st.
  assert (Hr : reachable st) by (eexists; reflexivity).
  split; [exact Hr|]. split; [vm_compute; reflexivity|].
  apply (create_and_delete_are_never_raised st create Hr). left. reflexivity.
Defined.

Section Bounded.

Import Trace.

Lemma updateActionStates_unit_range cls c v :
  unit_range v -> c <= 1 -> unit_range (updateActionStates cls c v).
Proof.
  intros Hv Hc a.
  pose proof (Hv navigate) as [N0 N1]. pose proof (Hv select) as [S0 S1].
  pose proof (Hv modify) as [M0 M1]. pose proof (Hv create) as [C0 C1].
  pose proof (Hv delete) as [D0 D1]. cbn [get] in *.
  unfold updateActionStates. rewrite get_for_in.
  destruct cls as [s|];
    [repeat match goal with
            | |- context [String.eqb s ?x] => destruct (String.eqb s x)
            end|];
    destruct a;
    cbn [confidence set_active set_confidence set_direction
         get update put for_in fold_left action_names
         v_navigate v_select v_modify v_create v_delete];
    (split;
     [first [lra | eapply Qle_trans; [|apply Q.le_max_l]; lra]
     |first [lra | apply Q.max_lub; lra]]).
Qed.

Lemma step_unit_range i st :
  unit_range (verbs st) -> input_confidence i <= 1 ->
  unit_range (verbs (step i st)).
Proof.
  intros Hv Hi. destruct i as [now d|now d| |b]; cbn [step].
  - destruct (handleNeuralClassification_cases now d st)
      as [[_ ->]|[(_ & _ & ->)|(_ & dd & cls & -> & _ & [[_ ->]|[_ ->]])]];
      try assumption; cbn [input_confidence] in Hi.
    + now apply updateActionStates_unit_range.
    + intro a. set (u := mkState _ _ _ _ _ _).
      destruct (considerTriggeringAction_keeps now u a) as (-> & _).
      now apply updateActionStates_unit_range.
  - unfold handleNeuralFeatures.
    destruct (nl_active st); cbn [negb]; [|assumption].
    destruct d as [d|]; [|assumption].
    destruct (features d); [|assumption].
    cbn [verbs]. apply updateActionStates_unit_range; [assumption|lra].
  - intro a. unfold toggleNeuralIntegration. cbn [verbs].
    rewrite get_for_in. cbn. lra.
  - intro a. unfold clearTriggered, with_verbs. cbn [verbs].
    specialize (Hv a). destruct a, b; exact Hv.
Qed.

Lemma run_unit_range ins :
  bounded ins -> unit_range (verbs (run ins init)).
Proof.
  induction ins as [|i ins IH] using rev_ind; intro Hb.
  - intro a. destruct a; cbn; lra.
  - rewrite run_snoc. apply Forall_app in Hb. destruct Hb as [Hb Hi].
    inversion Hi; subst. apply step_unit_range; auto.
Qed.

(** After a Rest event nothing is selected when confidences were at
    most 1. *)
Lemma rest_selects_nothing c v :
  unit_range v ->
  selectAction (updateActionStates (Some "Rest"%string) c v) = None.
Proof.
  intro Hv. apply selectAction_spec. intro b.
  rewrite updateActionStates_rest. cbn [confidence].
  destruct (Hv b) as [_ H1]. unfold threshold. lra.
Qed.

End Bounded.

(** X4: as long as every classification event carries a confidence of at
    most 1, every accumulator's confidence stays between 0 and 1, whatever
    the sequence of events, toggles and timeouts. *)
Theorem confidences_stay_in_unit_range :
  forall ins a,
    Trace.bounded ins ->
    0 <= confidence (get a (verbs (run ins init))) /\
    confidence (get a (verbs (run ins init))) <= 1.
Proof.
  intros ins a Hb. exact (run_unit_range ins Hb a).
Qed.

Lemma confidences_stay_in_unit_range_witness :
  let ins := [Toggle;
              Classification 1700000000000
                (Some (mkClassification (Some "Tongue"%string) (Some 1)));
              Features 1700000000500
                (Some (mkFeaturesDetail (Some (mkFeatures None))))] in
  Trace.bounded ins /\
  confidence (get select (verbs (run ins init))) <= 1.
Proof.
  intro ins.
  assert (Hb : Trace.bounded ins).
  { repeat constructor; cbn; discriminate. }
  split; [exact Hb|].
  exact (proj2 (confidences_stay_in_unit_range ins select Hb)).
Defined.

(** X5: a Rest event never triggers an action.  In a run whose events
    carried confidences of at most 1, handling an event of class Rest, of
    whatever confidence, adds nothing to the log of triggers and leaves
    every [triggered] flag and [lastTriggered] time as they were. *)
Theorem rest_event_never_triggers :
  forall ins now d a,
    Trace.bounded ins ->
    class d = Some "Rest"%string ->
    let st := run ins init in
    let st' := handleNeuralClassification now (Some d) st in
    fired st' = fired st /\
    triggered (get a (verbs st')) = triggered (get a (verbs st)) /\
    lastTriggered (get a (verbs st')) = lastTriggered (get a (verbs st)).
Proof.
  intros ins now d a Hb Hcls st st'.
  pose proof (run_unit_range ins Hb) as Hu. fold st in Hu.
  assert (Hk := fun c => updateActionStates_keeps (Some "Rest"%string) c
                                                  (verbs st) a).
  subst st'.
  destruct (handleNeuralClassification_cases now (Some d) st)
    as [[_ ->]|[(_ & _ & ->)|(_ & dd & cls & E & Hc & [[_ ->]|[_ ->]])]];
    try (repeat split; reflexivity);
    injection E as <-; rewrite Hcls in Hc; injection Hc as <-.
  - cbn [fired verbs]. destruct (Hk (JS.or0 (ev_confidence d))) as (-> & -> & _).
    repeat split.
  - unfold considerTriggeringAction. cbn [verbs].
    rewrite (rest_selects_nothing _ _ Hu). cbn [fired verbs].
    destruct (Hk (JS.or0 (ev_confidence d))) as (-> & -> & _).
    repeat split.
Qed.

Lemma rest_event_never_triggers_witness :
  let ins := [Toggle;
              Classification 1700000000000
                (Some (mkClassification (Some "Right Hand"%string) (Some 1)))] in
  let d := mkClassification (Some "Rest"%string) (Some 1) in
  Trace.bounded ins /\
  fired (handleNeuralClassification 1700000005000 (Some d) (run ins init))
  = fired (run ins init).
Proof.
  intros ins d.
  assert (Hb : Trace.bounded ins).
  { repeat constructor; cbn; discriminate. }
  split; [exact Hb|].
  apply (rest_event_never_triggers ins 1700000005000 d navigate Hb eq_refl).
Defined.

(** X6: one input makes at most one trigger, and only a classification
    event handled while the engine is on, carrying a usable class and a
    confidence at or above the threshold, makes one; the triggered action
    is the one selected after the update, its flag is set and its time is
    the clock reading.  Features events, the toggle and panel timeouts
    never trigger. *)
Theorem only_qualifying_events_trigger :
  forall i st,
    fired (step i st) = fired st \/
    exists now d cls a,
      i = Classification now (Some d) /\
      nl_active st = true /\
      truthy_class (class d) = Some cls /\
      threshold <= JS.or0 (ev_confidence d) /\
      selectAction (updateActionStates (Some cls) (JS.or0 (ev_confidence d))
                                       (verbs st)) = Some a /\
      threshold <= confidence (get a (verbs (step i st))) /\
      fired (step i st) = fired st ++ [(a, now)] /\
      triggered (get a (verbs (step i st))) = true /\
      lastTriggered (get a (verbs (step i st))) = Some now.
Proof.
  intros i st. destruct i as [now d|now d| |b]; cbn [step].
  - destruct (handleNeuralClassification_cases now d st)
      as [[_ ->]|[(_ & _ & ->)|(Hact & dd & cls & -> & Hc & [[_ ->]|[Hq ->]])]];
      try (left; reflexivity).
    set (u := mkState _ _ _ _ _ _).
    destruct (considerTriggeringAction_fired now u) as [->|(a & Hs & E & T & L)];
      [left; reflexivity|].
    right. exists now, dd, cls, a.
    repeat (split; [first [reflexivity | assumption]|]).
    split; [|split; [exact E|split; [exact T|exact L]]].
    destruct (considerTriggeringAction_keeps now u a) as (-> & _).
    exact (proj1 (proj1 (selectAction_spec (verbs u)) a Hs)).
  - left. unfold handleNeuralFeatures.
    destruct (nl_active st); cbn [negb]; [|reflexivity].
    destruct d as [d|]; [|reflexivity].
    destruct (features d); reflexivity.
  - left. reflexivity.
  - left. reflexivity.
Qed.

(** ** Which action a qualifying event triggers *)

Section Routing.

Import Trace.

Lemma routed_cases cls r :
  routed cls = Some r ->
  (cls = "Left Hand"%string /\ r = navigate) \/
  (cls = "Right Hand"%string /\ r = navigate) \/
  (cls = "Feet"%string /\ r = modify) \/
  (cls = "Tongue"%string /\ r = select).
Proof.
  unfold routed.
  destruct (String.eqb_spec cls "Left Hand");
    [intro H; injection H as <-; auto|].
  destruct (String.eqb_spec cls "Right Hand");
    [intro H; injection H as <-; auto|].
  destruct (String.eqb_spec cls "Feet");
    [intro H; injection H as <-; auto 6|].
  destruct (String.eqb_spec cls "Tongue");
    [intro H; injection H as <-; auto 6|].
  discriminate.
Qed.

(** When no accumulator was above the incoming confidence, the update
    leaves the routed accumulator at that confidence and the others
    strictly below it or, for keys after it, at most equal. *)
Lemma routed_is_selected cls r c v :
  routed cls = Some r ->
  threshold <= c ->
  (forall a, confidence (get a v) <= c) ->
  selectAction (updateActionStates (Some cls) c v) = Some r.
Proof.
  intros Hr Hc Hv.
  assert (Hpos : 0 < c) by (unfold threshold in Hc; lra).
  pose proof (Hv navigate) as N. pose proof (Hv select) as S.
  pose proof (Hv modify) as M. pose proof (Hv create) as C.
  pose proof (Hv delete) as D. cbn [get] in N, S, M, C, D.
  assert (Kmax : forall x, x <= c -> Qmax (x * (9#10)) c == c).
  { intros x Hx. apply Q.max_r. lra. }
  assert (Kmod : forall x, x <= c -> Qmax (x * (9#10)) (c * (8#10)) < c).
  { intros x Hx. apply Q.max_lub_lt; lra. }
  apply selectAction_unique;
    destruct (routed_cases cls r Hr) as [[-> ->]|[[-> ->]|[[-> ->]|[-> ->]]]];
    unfold updateActionStates; try rewrite !get_for_in;
    cbn [String.eqb Ascii.eqb Bool.eqb confidence set_active set_confidence
         set_direction get update put for_in fold_left action_names
         v_navigate v_select v_modify v_create v_delete];
    try (rewrite Kmax by assumption; exact Hc);
    intro b; rewrite ?get_for_in; destruct b;
    cbn [rank confidence set_active set_confidence
         set_direction get update put for_in fold_left action_names
         v_navigate v_select v_modify v_create v_delete];
    (split; [|intro Hlt; try (exfalso; lia)]);
    rewrite ?Kmax by assumption;
    try (pose proof (Kmod _ M)); lra.
Qed.

End Routing.

(** X7: on an engine that is on, when no accumulator holds more than the
    confidence of an incoming event of class Left Hand, Right Hand, Feet or
    Tongue that reaches the threshold, the action selected for triggering
    is the one the class is routed to (navigate for the hands, modify for
    Feet, select for Tongue); it is triggered if more than 2000 ms have
    passed since its last trigger and otherwise the event triggers
    nothing. *)
Theorem qualifying_event_triggers_its_routed_action :
  forall st now d cls r,
    nl_active st = true ->
    class d = Some cls ->
    Trace.routed cls = Some r ->
    threshold <= JS.or0 (ev_confidence d) ->
    (forall a, confidence (get a (verbs st)) <= JS.or0 (ev_confidence d)) ->
    let st' := handleNeuralClassification now (Some d) st in
    let last := Trace.last_of r (verbs st) in
    ((now - last > 2000)%Z -> fired st' = fired st ++ [(r, now)]) /\
    ((now - last <= 2000)%Z -> fired st' = fired st).
Proof.
  intros st now d cls r Hact Hcls Hr Hq Hv st' last.
  assert (Htr : truthy_class (class d) = Some cls).
  { rewrite Hcls. destruct (routed_cases cls r Hr)
      as [[-> _]|[[-> _]|[[-> _]|[-> _]]]]; reflexivity. }
  subst st'. rewrite (handleNeuralClassification_qualifying now d cls st Hact Htr Hq).
  set (u := mkState _ _ _ _ _ _).
  assert (Hs : selectAction (verbs u) = Some r)
    by (apply routed_is_selected; assumption).
  assert (Hl : match lastTriggered (get r (verbs u)) with
               | Some t => t
               | None => 0%Z
               end = last).
  { subst u last. cbn [verbs]. unfold Trace.last_of.
    destruct (updateActionStates_keeps (Some cls) (JS.or0 (ev_confidence d))
                                       (verbs st) r) as (_ & -> & _).
    reflexivity. }
  split; intro H.
  - destruct (considerTriggeringAction_fires now u r Hs) as (F & _);
      [rewrite Hl; exact H|exact F].
  - rewrite (considerTriggeringAction_drops now u r Hs); [reflexivity|].
    rewrite Hl. exact H.
Qed.

Lemma qualifying_event_triggers_its_routed_action_witness :
  let st := toggleNeuralIntegration init in
  let d := mkClassification (Some "Tongue"%string) (Some (8#10)) in
  nl_active st = true /\
  fired (handleNeuralClassification 1700000000000 (Some d) st)
  = [(select, 1700000000000%Z)].
Proof.
  intros st d. split; [reflexivity|].
  apply (qualifying_event_triggers_its_routed_action
           st 1700000000000 d "Tongue"%string select eq_refl eq_refl eq_refl).
  - cbn. discriminate.
  - intro a. destruct a; cbn; discriminate.
  - reflexivity.
Defined.

(** An accumulator left high by earlier events wins over the routed one:
    after a Right Hand event of confidence 1, a Tongue event of confidence
    0.8 three seconds later triggers [navigate], not [select]. *)
Example stale_accumulator_wins :
  let st := run [Toggle;
                 Classification 1700000000000
                   (Some (mkClassification (Some "Right Hand"%string) (Some 1)));
                 Classification 1700000003000
                   (Some (mkClassification (Some "Tongue"%string)
                                           (Some (8#10))))] init in
  fired st = [(navigate, 1700000000000%Z); (navigate, 1700000003000%Z)].
Proof. vm_compute. reflexivity. Qed.

(** ** Decoder metrics: what the clamping does *)

Lemma adjustModel_cases (modelId : string) (l : Dashboard.Locals) :
  Dashboard.adjustModel modelId l = Dashboard.adjustModel "model1" l \/
  Dashboard.adjustModel modelId l = Dashboard.adjustModel "model2" l \/
  Dashboard.adjustModel modelId l = Dashboard.adjustModel "model3" l \/
  Dashboard.adjustModel modelId l = l.
Proof.
  destruct (String.eqb modelId "model1") eqn:E1;
    [apply String.eqb_eq in E1; subst; left; reflexivity|].
  destruct (String.eqb modelId "model2") eqn:E2;
    [apply String.eqb_eq in E2; subst; right; left; reflexivity|].
  destruct (String.eqb modelId "model3") eqn:E3;
    [apply String.eqb_eq in E3; subst; right; right; left; reflexivity|].
  right; right; right. unfold Dashboard.adjustModel.
  now rewrite E1, E2, E3.
Qed.

Lemma adjustTrajectory_cases (trajectoryType : string) (l : Dashboard.Locals) :
  Dashboard.adjustTrajectory trajectoryType l = l \/
  Dashboard.adjustTrajectory trajectoryType l
  = Dashboard.adjustTrajectory "figure8" l \/
  Dashboard.adjustTrajectory trajectoryType l
  = Dashboard.adjustTrajectory "reaching" l.
Proof.
  destruct (String.eqb trajectoryType "circular") eqn:E1;
    [left; unfold Dashboard.adjustTrajectory; now rewrite E1|].
  destruct (String.eqb trajectoryType "figure8") eqn:E2;
    [apply String.eqb_eq in E2; subst; right; left; reflexivity|].
  destruct (String.eqb trajectoryType "reaching") eqn:E3;
    [apply String.eqb_eq in E3; subst; right; right; reflexivity|].
  left. unfold Dashboard.adjustTrajectory. now rewrite E1, E2, E3.
Qed.

(** X8: for every model identifier and trajectory type, known or not, the
    adjusted metrics already lie inside the ranges of the clamping step:
    the update handed to the decoder carries exactly the base metrics times
    the model and trajectory factors, and decode time and bit rate are at
    least 2 ms and 50 bit/s.  Without a decoder on the page nothing is
    computed. *)
Theorem decoder_metrics_clamp_is_inert :
  forall modelId trajectoryType : string,
    let l := Dashboard.adjustTrajectory trajectoryType
               (Dashboard.adjustModel modelId Dashboard.base) in
    Dashboard.updateDecoderModelMetrics false modelId trajectoryType = None /\
    exists u,
      Dashboard.updateDecoderModelMetrics true modelId trajectoryType = Some u /\
      Dashboard.u_accuracy u == Dashboard.accuracy l /\
      Dashboard.mse (Dashboard.u_metrics u)
      == Dashboard.mse (Dashboard.metrics l) /\
      Dashboard.r2 (Dashboard.u_metrics u)
      == Dashboard.r2 (Dashboard.metrics l) /\
      Dashboard.correlation (Dashboard.u_metrics u)
      == Dashboard.correlation (Dashboard.metrics l) /\
      Dashboard.decodeTime (Dashboard.u_metrics u)
      == Dashboard.decodeTime (Dashboard.metrics l) /\
      Dashboard.bitrate (Dashboard.u_metrics u)
      == Dashboard.bitrate (Dashboard.metrics l) /\
      2 <= Dashboard.decodeTime (Dashboard.u_metrics u) /\
      50 <= Dashboard.bitrate (Dashboard.u_metrics u).
Proof.
  intros modelId trajectoryType l. split; [reflexivity|].
  unfold Dashboard.updateDecoderModelMetrics. eexists. split; [reflexivity|].
  fold l. cbn [Dashboard.u_accuracy Dashboard.u_metrics].
  subst l.
  destruct (adjustModel_cases modelId Dashboard.base)
    as [-> |[-> |[-> | ->]]];
    match goal with
    | |- context [Dashboard.adjustTrajectory trajectoryType ?b] =>
        destruct (adjustTrajectory_cases trajectoryType b) as [-> |[-> | ->]]
    end;
    repeat split; vm_compute; first [reflexivity | discriminate].
Qed.

(** ** Integration glue: repeated wiring and absent modules *)

(** X9: the glue adds its listeners again on every invocation without
    removing the earlier ones: after [n] invocations on a page with the
    decoder and the language bridge, one classification event whose class
    has a direction and whose confidence exceeds 0.65 publishes [n]
    identical movement requests, and any other classification event
    publishes none. *)
Theorem repeated_wiring_duplicates_requests :
  forall p n c,
    Glue.initDecoderVisualization p = true ->
    Glue.initNeuroLLaMA p = true ->
    let published :=
      Glue.dispatchEvent
        (Nat.iter n (Glue.initializeComponentIntegration p) [])
        ("processor:classification-updated"%string,
         Some (Glue.ClassificationUpdated c)) in
    (forall cls direction,
        Engine.truthy_class (Engine.class c) = Some cls ->
        Glue.classDirection cls = Some direction ->
        65#100 < JS.or0 (Engine.ev_confidence c) ->
        published
        = repeat ("decoder:movement-request"%string,
                  Some (Glue.MovementRequest direction
                          (JS.or0 (Engine.ev_confidence c))
                          "neural-processor"%string)) n) /\
    ((forall cls, Engine.truthy_class (Engine.class c) = Some cls ->
                  Glue.classDirection cls = None) \/
     JS.or0 (Engine.ev_confidence c) <= 65#100 ->
     published = []).
Proof.
  intros p n c Hd Hl published. subst published.
  rewrite dispatch_after_wirings, (glue_dispatch_classification p _ Hd Hl).
  split.
  - intros cls direction Hcls Hdir Hgt.
    assert (E : Glue.movementBridge (Some (Glue.ClassificationUpdated c))
                = [("decoder:movement-request"%string,
                    Some (Glue.MovementRequest direction
                            (JS.or0 (Engine.ev_confidence c))
                            "neural-processor"%string))]).
    { unfold Glue.movementBridge. rewrite Hcls, Hdir.
      replace (JS.gt _ _) with true by (symmetry; now apply gt_true_iff).
      reflexivity. }
    rewrite E. clear. induction n as [|n IH]; [reflexivity|].
    cbn [repeat concat app]. now rewrite IH.
  - intros H.
    assert (E : Glue.movementBridge (Some (Glue.ClassificationUpdated c)) = []).
    { unfold Glue.movementBridge.
      destruct (Engine.truthy_class (Engine.class c)) as [cls|]; [|reflexivity].
      destruct H as [H|H].
      - now rewrite (H cls eq_refl).
      - destruct (Glue.classDirection cls); [|reflexivity].
        replace (JS.gt _ _) with false by (symmetry; now apply gt_false_iff).
        reflexivity. }
    rewrite E. clear. induction n as [|n IH]; [reflexivity|exact IH].
Qed.

Lemma repeated_wiring_duplicates_requests_witness :
  let p := Glue.mkPage true true true true in
  let c := Engine.mkClassification (Some "Feet"%string) (Some (9#10)) in
  Glue.initDecoderVisualization p = true /\
  Glue.initNeuroLLaMA p = true /\
  Glue.dispatchEvent
    (Nat.iter 2 (Glue.initializeComponentIntegration p) [])
    ("processor:classification-updated"%string,
     Some (Glue.ClassificationUpdated c))
  = repeat ("decoder:movement-request"%string,
            Some (Glue.MovementRequest "down"%string (9#10)
                                       "neural-processor"%string)) 2.
Proof.
  intros p c. split; [reflexivity|]. split; [reflexivity|].
  apply (proj1 (repeated_wiring_duplicates_requests p 2 c eq_refl eq_refl)
               "Feet"%string "down"%string eq_refl eq_refl).
  reflexivity.
Defined.

(** Membership in a list of literals. *)
Ltac in_literals :=
  cbn [In fst Glue.published_topics Glue.listened_topics Glue.topic];
  repeat first [left; reflexivity | right].

Lemma glue_listeners p n :
  Forall (fun l => In (Glue.topic l) Glue.listened_topics /\
                   forall d e, In e (Glue.handler l d) ->
                               In (fst e) Glue.published_topics)
         (Nat.iter n (Glue.initializeComponentIntegration p) []).
Proof.
  assert (Hf : forall d e, In e (Glue.featuresForwarder d) ->
                           In (fst e) Glue.published_topics).
  { intros d e [<-|[]]. in_literals. }
  assert (Hr : forall d e, In e (Glue.readyForwarder d) ->
                           In (fst e) Glue.published_topics).
  { intros d e. unfold Glue.readyForwarder.
    destruct d as [[]|]; intros H; try contradiction.
    destruct H as [<-|[]]. in_literals. }
  assert (Hm : forall d e, In e (Glue.movementBridge d) ->
                           In (fst e) Glue.published_topics).
  { intros d e. unfold Glue.movementBridge.
    destruct d as [[]|]; intros H; try contradiction.
    destruct (Engine.truthy_class _); [|contradiction].
    destruct (Glue.classDirection _); [|contradiction].
    destruct (JS.gt _ _); [|contradiction].
    destruct H as [<-|[]]. in_literals. }
  assert (Hs : forall d e, In e (Glue.statusForwarder d) ->
                           In (fst e) Glue.published_topics).
  { intros d e. unfold Glue.statusForwarder.
    destruct d as [[| | | | |[st|]|]|]; intros H; try contradiction.
    destruct H as [<-|[]]. in_literals. }
  induction n as [|n IH]; [constructor|].
  cbn [Nat.iter nat_rect].
  change (nat_rect _ _ _ n) with
    (Nat.iter n (Glue.initializeComponentIntegration p) []).
  rewrite initializeComponentIntegration_appends. apply Forall_app.
  split; [exact IH|]. unfold Glue.initializeComponentIntegration.
  destruct (Glue.initNeuralSignalProcessor p), (Glue.initNeuroLLaMA p),
    (Glue.initDecoderVisualization p), (Glue.initBCIStatus p);
    cbn [andb app];
    repeat (apply Forall_cons;
            [split; [in_literals | cbn [Glue.handler]; assumption]|]);
    apply Forall_nil.
Qed.

(** X10: the glue never reacts to what it publishes.  However often it was
    wired and whichever modules are on the page, every event it publishes
    has one of its four outgoing types, none of which it listens to, so
    dispatching a published event through the glue's listeners publishes
    nothing further. *)
Theorem glue_does_not_react_to_its_own_events :
  forall p n e e',
    let bus := Nat.iter n (Glue.initializeComponentIntegration p) [] in
    In e' (Glue.dispatchEvent bus e) ->
    In (fst e') Glue.published_topics /\
    ~ In (fst e') Glue.listened_topics /\
    Glue.dispatchEvent bus e' = [].
Proof.
  intros p n e e' bus Hin. pose proof (glue_listeners p n) as HF.
  fold bus in HF.
  assert (Hpub : In (fst e') Glue.published_topics).
  { unfold Glue.dispatchEvent in Hin. apply in_flat_map in Hin.
    destruct Hin as (l & Hl & He).
    rewrite Forall_forall in HF. destruct (HF l Hl) as [_ H].
    destruct (String.eqb _ _); [eauto|contradiction]. }
  assert (Hnot : ~ In (fst e') Glue.listened_topics).
  { cbn [In Glue.published_topics Glue.listened_topics] in Hpub |- *.
    intros [H|[H|[H|[H|[]]]]];
      destruct Hpub as [P|[P|[P|[P|[]]]]]; rewrite <- P in H; discriminate. }
  split; [exact Hpub|]. split; [exact Hnot|].
  unfold Glue.dispatchEvent. clear Hin.
  induction HF as [|l bus' [Hl _] _ IH]; [reflexivity|].
  cbn [flat_map]. rewrite IH.
  destruct (String.eqb_spec (Glue.topic l) (fst e')) as [E|_]; [|reflexivity].
  rewrite E in Hl. contradiction.
Qed.

Lemma glue_does_not_react_to_its_own_events_witness :
  let p := Glue.mkPage true true true true in
  let bus := Nat.iter 1 (Glue.initializeComponentIntegration p) [] in
  let e := ("processor:classification-updated"%string,
            Some (Glue.ClassificationUpdated
                    (Engine.mkClassification (Some "Left Hand"%string)
                                             (Some (8#10))))) in
  let e' := ("decoder:movement-request"%string,
             Some (Glue.MovementRequest "left"%string (8#10)
                                        "neural-processor"%string)) in
  In e' (Glue.dispatchEvent bus e) /\ Glue.dispatchEvent bus e' = [].
Proof.
  intros p bus e e'.
  assert (Hin : In e' (Glue.dispatchEvent bus e)) by (left; reflexivity).
  split; [exact Hin|].
  exact (proj2 (proj2 (glue_does_not_react_to_its_own_events p 1 e e' Hin))).
Defined.

(** ** Device-status monitor: periodic update *)

Section MonitorFacts.

Variable random : nat -> Q.

Lemma clamp_step (lo hi x d r : Q) :
  lo <= x -> x <= hi -> - r <= d -> d <= r ->
  Qabs (Qmax lo (Qmin hi (x + d)) - x) <= r.
Proof.
  intros Hlo Hhi Hd1 Hd2. apply Qabs_Qle_condition.
  destruct (Q.max_spec lo (Qmin hi (x + d))) as [[H1 E1]|[H1 E1]];
    destruct (Q.min_spec hi (x + d)) as [[H2 E2]|[H2 E2]];
    split; lra.
Qed.

Lemma fluctuate_spec e k :
  Monitor.fluctuated (fst (Monitor.fluctuate random e k)) /\
  BCI.name (fst (Monitor.fluctuate random e k)) = BCI.name e /\
  snd (Monitor.fluctuate random e k) = S (S k).
Proof.
  unfold Monitor.fluctuate, Monitor.fluctuated, BCI.statusOf.
  cbn [fst snd BCI.impedance BCI.signal BCI.e_status BCI.name].
  set (imp := Qmax 5 (Qmin 40 _)). set (sg := Qmax 50 (Qmin 100 _)).
  assert (Hi : 5 <= imp /\ imp <= 40).
  { split; [apply Q.le_max_l|apply Q.max_lub; [lra|apply Q.le_min_l]]. }
  assert (Hs : 50 <= sg /\ sg <= 100).
  { split; [apply Q.le_max_l|apply Q.max_lub; [lra|apply Q.le_min_l]]. }
  split; [|split; reflexivity].
  repeat (split; [tauto|]).
  destruct (JS.lt imp 10) eqn:E10; [|reflexivity].
  replace (JS.lt imp 15) with true; [reflexivity|].
  symmetry. apply lt_true_iff. apply lt_true_iff in E10. lra.
Qed.

Lemma fluctuate_small_move e k :
  0 <= random k < 1 -> 0 <= random (S k) < 1 ->
  5 <= BCI.impedance e <= 40 -> 50 <= BCI.signal e <= 100 ->
  Monitor.small_move e (fst (Monitor.fluctuate random e k)).
Proof.
  intros [R0 R1] [S0 S1] [I0 I1] [G0 G1].
  unfold Monitor.small_move, Monitor.fluctuate.
  cbn [fst BCI.impedance BCI.signal BCI.name].
  split; [reflexivity|]. split; apply clamp_step; lra.
Qed.

Lemma fluctuateAll_spec es k :
  Forall Monitor.fluctuated (fst (Monitor.fluctuateAll random es k)) /\
  map BCI.name (fst (Monitor.fluctuateAll random es k)) = map BCI.name es /\
  snd (Monitor.fluctuateAll random es k) = (k + 2 * length es)%nat.
Proof.
  revert k. induction es as [|e es IH]; intro k.
  - cbn. split; [constructor|split; [reflexivity|lia]].
  - cbn [Monitor.fluctuateAll].
    destruct (fluctuate_spec e k) as (Hf & Hn & Hk).
    destruct (Monitor.fluctuate random e k) as [e' k1].
    cbn [fst snd] in Hf, Hn, Hk. specialize (IH k1).
    destruct (Monitor.fluctuateAll random es k1) as [es' k2].
    cbn [fst snd] in IH |- *. destruct IH as (IH1 & IH2 & IH3).
    split; [constructor; assumption|]. split.
    + cbn [map]. now rewrite Hn, IH2.
    + subst. cbn [length]. lia.
Qed.

Lemma fluctuateAll_small_moves es k :
  (forall n, 0 <= random n < 1) ->
  Forall (fun e => 5 <= BCI.impedance e <= 40 /\ 50 <= BCI.signal e <= 100) es ->
  Forall2 Monitor.small_move es (fst (Monitor.fluctuateAll random es k)).
Proof.
  intros Hr Hes. revert k. induction Hes as [|e es [Hi Hs] _ IH]; intro k.
  - constructor.
  - cbn [Monitor.fluctuateAll].
    pose proof (fluctuate_small_move e k (Hr k) (Hr (S k)) Hi Hs) as Hm.
    destruct (Monitor.fluctuate random e k) as [e' k1]. cbn [fst] in Hm.
    specialize (IH k1).
    destruct (Monitor.fluctuateAll random es k1) as [es' k2].
    cbn [fst] in IH |- *. constructor; assumption.
Qed.

(** While disconnected the interval changes nothing and draws nothing. *)
Lemma update_disconnected st k :
  Monitor.connected st = false -> Monitor.update random st k = (st, k).
Proof. intro H. unfold Monitor.update. now rewrite H. Qed.

(** One connected firing, field by field. *)
Lemma update_connected st k :
  Monitor.connected st = true ->
  let st' := fst (Monitor.update random st k) in
  Monitor.connected st' = true /\
  Monitor.recordingTime st' = (Monitor.recordingTime st + 1)%Z /\
  Monitor.sampleRate st' = Monitor.sampleRate st /\
  Monitor.electrodes st'
  = fst (Monitor.fluctuateAll random (Monitor.electrodes st) (S (S k))) /\
  (Monitor.batteryLevel st' = Monitor.batteryLevel st \/
   Monitor.batteryLevel st' = Qmax 0 (Monitor.batteryLevel st - 1)) /\
  (Monitor.storageUsed st' = Monitor.storageUsed st \/
   Monitor.storageUsed st' = Qmin 100 (Monitor.storageUsed st + 1)) /\
  snd (Monitor.update random st k)
  = (k + 2 + 2 * length (Monitor.electrodes st))%nat.
Proof.
  intro H. unfold Monitor.update. rewrite H.
  pose proof (fluctuateAll_spec (Monitor.electrodes st) (S (S k)))
    as (_ & _ & Hk).
  destruct (Monitor.fluctuateAll random (Monitor.electrodes st) (S (S k)))
    as [es k'].
  cbn [fst snd Monitor.connected Monitor.recordingTime Monitor.sampleRate
       Monitor.electrodes Monitor.batteryLevel Monitor.storageUsed] in *.
  repeat (split; [reflexivity|]).
  split; [destruct (JS.lt (random k) _); auto|].
  split; [destruct (JS.lt (random (S k)) _); auto|].
  subst k'. lia.
Qed.

Lemma periodic_update_keeps_electrodes_parts st k :
  Monitor.connected st = true ->
  let st' := fst (Monitor.update random st k) in
  map BCI.name (Monitor.electrodes st') = map BCI.name (Monitor.electrodes st) /\
  (0 <= Monitor.batteryLevel st ->
   0 <= Monitor.batteryLevel st' /\
   Monitor.batteryLevel st - 1 <= Monitor.batteryLevel st' /\
   Monitor.batteryLevel st' <= Monitor.batteryLevel st) /\
  (Monitor.storageUsed st <= 100 ->
   Monitor.storageUsed st' <= 100 /\
   Monitor.storageUsed st <= Monitor.storageUsed st' /\
   Monitor.storageUsed st' <= Monitor.storageUsed st + 1).
Proof.
  intros Hc st'.
  destruct (update_connected st k Hc) as (_ & _ & _ & He & Hb & Hs & _).
  fold st' in He, Hb, Hs.
  destruct (fluctuateAll_spec (Monitor.electrodes st) (S (S k)))
    as (_ & HN & _).
  rewrite He. split; [exact HN|]. split.
  - intro H0. destruct Hb as [-> | ->]; [lra|].
    destruct (Q.max_spec 0 (Monitor.batteryLevel st - 1)) as [[? E]|[? E]];
      rewrite E; lra.
  - intro H1. destruct Hs as [-> | ->]; [lra|].
    destruct (Q.min_spec 100 (Monitor.storageUsed st + 1)) as [[? E]|[? E]];
      rewrite E; lra.
Qed.

End MonitorFacts.

(** X11: one firing of the monitor's interval while connected advances the
    recording time by one second and leaves every electrode, whatever the
    random draws and whatever it held before, with an impedance in
    [5, 40], a signal in [50, 100] and the status the threshold table gives
    for its impedance; names and order are kept, the battery level does
    not rise and loses at most one point without going below zero, and the
    storage level does not fall and gains at most one point without
    passing 100.  With draws in [0, 1) and electrodes already in range, no
    impedance moves by more than 0.25 and no signal by more than 1. *)
Theorem periodic_update_keeps_electrodes_consistent :
  forall random st k,
    Monitor.connected st = true ->
    let st' := fst (Monitor.update random st k) in
    Monitor.recordingTime st' = (Monitor.recordingTime st + 1)%Z /\
    Forall Monitor.fluctuated (Monitor.electrodes st') /\
    map BCI.name (Monitor.electrodes st') = map BCI.name (Monitor.electrodes st) /\
    (0 <= Monitor.batteryLevel st ->
     0 <= Monitor.batteryLevel st' /\
     Monitor.batteryLevel st - 1 <= Monitor.batteryLevel st' /\
     Monitor.batteryLevel st' <= Monitor.batteryLevel st) /\
    (Monitor.storageUsed st <= 100 ->
     Monitor.storageUsed st' <= 100 /\
     Monitor.storageUsed st <= Monitor.storageUsed st' /\
     Monitor.storageUsed st' <= Monitor.storageUsed st + 1) /\
    ((forall n, 0 <= random n < 1) ->
     Forall (fun e => 5 <= BCI.impedance e <= 40 /\ 50 <= BCI.signal e <= 100)
            (Monitor.electrodes st) ->
     Forall2 Monitor.small_move (Monitor.electrodes st) (Monitor.electrodes st')).
Proof.
  intros random st k Hc st'.
  destruct (update_connected random st k Hc) as (_ & Ht & _ & He & _).
  destruct (periodic_update_keeps_electrodes_parts random st k Hc)
    as (HN & Hb & Hs).
  fold st' in Ht, He, HN, Hb, Hs.
  destruct (fluctuateAll_spec random (Monitor.electrodes st) (S (S k)))
    as (HF & _).
  split; [exact Ht|]. split; [rewrite He; exact HF|]. split; [exact HN|].
  split; [exact Hb|]. split; [exact Hs|].
  intros Hr Hes. rewrite He. now apply fluctuateAll_small_moves.
Qed.

Lemma periodic_update_keeps_electrodes_consistent_witness :
  let st' := fst (Monitor.update (fun _ => 3#10) Monitor.bciStatus 0) in
  Monitor.connected Monitor.bciStatus = true /\
  Monitor.recordingTime st' = 1%Z /\
  Forall Monitor.fluctuated (Monitor.electrodes st').
Proof.
  intro st'. split; [reflexivity|].
  destruct (periodic_update_keeps_electrodes_consistent
              (fun _ => 3#10) Monitor.bciStatus 0%nat eq_refl)
    as (Ht & Hf & _).
  split; [exact Ht|exact Hf].
Defined.

(** The table [bciStatus] is loaded with does not follow the thresholds:
    F3 at 15.2 is listed as good and O1 at 18.5 as poor. *)
Example initial_statuses_are_stale :
  filter (fun e => negb (match BCI.e_status e, BCI.statusOf (BCI.impedance e) with
                         | BCI.good, BCI.good | BCI.moderate, BCI.moderate
                         | BCI.poor, BCI.poor => true
                         | _, _ => false
                         end))
         BCI.initialElectrodes
  = [BCI.mkElectrode "F3" (152#10) 92 BCI.good;
     BCI.mkElectrode "O1" (185#10) 85 BCI.poor;
     BCI.mkElectrode "T5" (193#10) 82 BCI.poor].
Proof. vm_compute. reflexivity. Qed.

Section MonitorRuns.

Variable random : nat -> Q.

Lemma monitor_step_facts a s :
  let s' := Monitor.step random a s in
  Monitor.recordingTime (fst s')
  = (Monitor.recordingTime (fst s)
     + Monitor.connectedFirings (Monitor.connected (fst s)) [a])%Z /\
  Monitor.connected (fst s')
  = match a with
    | Monitor.Fire => Monitor.connected (fst s)
    | Monitor.ToggleConnection => negb (Monitor.connected (fst s))
    end /\
  map BCI.name (Monitor.electrodes (fst s'))
  = map BCI.name (Monitor.electrodes (fst s)) /\
  (0 <= Monitor.batteryLevel (fst s) ->
   0 <= Monitor.batteryLevel (fst s') /\
   Monitor.batteryLevel (fst s') <= Monitor.batteryLevel (fst s)) /\
  (Monitor.storageUsed (fst s) <= 100 ->
   Monitor.storageUsed (fst s') <= 100 /\
   Monitor.storageUsed (fst s) <= Monitor.storageUsed (fst s')).
Proof.
  destruct s as [st k]. destruct a; cbn [Monitor.step fst snd].
  - destruct (Monitor.connected st) eqn:Hc.
    + destruct (update_connected random st k Hc) as (Hc' & Ht & _).
      destruct (periodic_update_keeps_electrodes_parts random st k Hc)
        as (Hn & Hb & Hs).
      cbn [Monitor.connectedFirings]. rewrite Hc', Ht.
      split; [lia|]. split; [reflexivity|]. split; [exact Hn|].
      split; intro H; [destruct (Hb H)|destruct (Hs H)]; tauto.
    + rewrite (update_disconnected random st k Hc). cbn [fst].
      cbn [Monitor.connectedFirings]. rewrite Hc.
      split; [lia|]. repeat split; auto; lra.
  - cbn [Monitor.toggleConnection fst Monitor.recordingTime Monitor.connected
         Monitor.electrodes Monitor.batteryLevel Monitor.storageUsed
         Monitor.connectedFirings].
    split; [lia|]. repeat split; auto; lra.
Qed.

End MonitorRuns.

Lemma monitor_run_facts random acts s :
  let s' := Monitor.run random acts s in
  Monitor.recordingTime (fst s')
  = (Monitor.recordingTime (fst s)
     + Monitor.connectedFirings (Monitor.connected (fst s)) acts)%Z /\
  map BCI.name (Monitor.electrodes (fst s'))
  = map BCI.name (Monitor.electrodes (fst s)) /\
  (0 <= Monitor.batteryLevel (fst s) ->
   0 <= Monitor.batteryLevel (fst s') /\
   Monitor.batteryLevel (fst s') <= Monitor.batteryLevel (fst s)) /\
  (Monitor.storageUsed (fst s) <= 100 ->
   Monitor.storageUsed (fst s') <= 100 /\
   Monitor.storageUsed (fst s) <= Monitor.storageUsed (fst s')).
Proof.
  cbv zeta. revert s. induction acts as [|a acts IH]; intro s.
  - cbn. split; [lia|]. repeat split; auto; lra.
  - cbn [Monitor.run fold_left].
    change (fold_left _ acts ?x) with (Monitor.run random acts x).
    destruct (monitor_step_facts random a s) as (Ht & Hc & Hn & Hb & Hs).
    destruct (IH (Monitor.step random a s)) as (Ht' & Hn' & Hb' & Hs').
    split; [|split; [|split]].
    + rewrite Ht', Ht, Hc. destruct a; cbn [Monitor.connectedFirings]; lia.
    + now rewrite Hn', Hn.
    + intro H. destruct (Hb H) as [B0 B1]. destruct (Hb' B0). split; lra.
    + intro H. destruct (Hs H) as [S0 S1]. destruct (Hs' S0). split; lra.
Qed.

(** X12: over any sequence of interval firings and connection toggles, the
    recording time advances by exactly the number of firings that found
    the device connected: firings while disconnected change nothing and
    consume no random draw, and counting resumes on reconnection.  Along
    the way a battery level that started at or above zero never rises, a
    storage level that started at or below 100 never falls, and the
    electrodes keep their names and order. *)
Theorem recording_time_counts_connected_firings :
  forall random acts st k,
    0 <= Monitor.batteryLevel st ->
    Monitor.storageUsed st <= 100 ->
    let s' := Monitor.run random acts (st, k) in
    Monitor.recordingTime (fst s')
    = (Monitor.recordingTime st
       + Monitor.connectedFirings (Monitor.connected st) acts)%Z /\
    (Monitor.connected st = false ->
     Monitor.update random st k = (st, k)) /\
    0 <= Monitor.batteryLevel (fst s') /\
    Monitor.batteryLevel (fst s') <= Monitor.batteryLevel st /\
    Monitor.storageUsed st <= Monitor.storageUsed (fst s') /\
    Monitor.storageUsed (fst s') <= 100 /\
    map BCI.name (Monitor.electrodes (fst s'))
    = map BCI.name (Monitor.electrodes st).
Proof.
  intros random acts st k Hb Hs s'.
  destruct (monitor_run_facts random acts (st, k)) as (Ht & Hn & Hb' & Hs').
  cbn [fst] in Ht, Hn, Hb', Hs'. fold s' in Ht, Hn, Hb', Hs'.
  destruct (Hb' Hb). destruct (Hs' Hs).
  split; [exact Ht|]. split; [apply update_disconnected|].
  repeat split; assumption.
Qed.

Lemma recording_time_counts_connected_firings_witness :
  let acts := [Monitor.Fire; Monitor.ToggleConnection; Monitor.Fire;
               Monitor.Fire; Monitor.ToggleConnection; Monitor.Fire] in
  0 <= Monitor.batteryLevel Monitor.bciStatus /\
  Monitor.storageUsed Monitor.bciStatus <= 100 /\
  Monitor.recordingTime
    (fst (Monitor.run (fun _ => 1#20) acts (Monitor.bciStatus, 0%nat))) = 2%Z.
Proof.
  intro acts.
  assert (Hb : 0 <= Monitor.batteryLevel Monitor.bciStatus) by (cbn; discriminate).
  assert (Hs : Monitor.storageUsed Monitor.bciStatus <= 100) by (cbn; discriminate).
  split; [exact Hb|]. split; [exact Hs|].
  exact (proj1 (recording_time_counts_connected_firings
                  (fun _ => 1#20) acts Monitor.bciStatus 0%nat Hb Hs)).
Defined.

(** ** Recording clock *)

Lemma string_length_append (s1 s2 : string) :
  String.length (String.append s1 s2)
  = (String.length s1 + String.length s2)%nat.
Proof. induction s1 as [|c s1 IH]; cbn; [reflexivity|now rewrite IH]. Qed.

Lemma pad2_two_digits (n : Z) :
  (0 <= n < 100)%Z -> String.length (Monitor.pad2 n) = 2%nat.
Proof.
  intro H.
  assert (A : forallb (fun m => Nat.eqb (String.length (Monitor.pad2 (Z.of_nat m))) 2)
                      (seq 0 100) = true) by (vm_compute; reflexivity).
  rewrite forallb_forall in A.
  specialize (A (Z.to_nat n)). rewrite Z2Nat.id in A by lia.
  apply Nat.eqb_eq, A, in_seq. lia.
Qed.

(** X13: for a recording time that is not negative, the hours, minutes and
    seconds shown by [updateRecordingTime] add up to the recording time,
    with minutes and seconds below 60; below one hundred hours the text is
    eight characters long, and while the device is disconnected the text
    is the placeholder whatever the recording time. *)
Theorem recording_clock_decomposes_time :
  forall st,
    (0 <= Monitor.recordingTime st)%Z ->
    let '(hours, minutes, seconds) :=
      Monitor.recordingClock (Monitor.recordingTime st) in
    (hours * 3600 + minutes * 60 + seconds = Monitor.recordingTime st)%Z /\
    (0 <= hours)%Z /\ (0 <= minutes < 60)%Z /\ (0 <= seconds < 60)%Z /\
    (Monitor.connected st = false ->
     Monitor.recordingText st = "--:--:--"%string) /\
    (Monitor.connected st = true ->
     (Monitor.recordingTime st < 360000)%Z ->
     String.length (Monitor.recordingText st) = 8%nat).
Proof.
  intros st Ht. unfold Monitor.recordingText, Monitor.recordingClock.
  remember (Monitor.recordingTime st) as t eqn:Et. clear Et.
  rewrite (Z.rem_mod_nonneg t 3600), (Z.rem_mod_nonneg t 60) by lia.
  pose proof (Z.div_mod t 3600 ltac:(lia)) as D1.
  pose proof (Z.mod_pos_bound t 3600 ltac:(lia)) as B1.
  pose proof (Z.div_mod (t mod 3600) 60 ltac:(lia)) as D2.
  pose proof (Z.mod_pos_bound (t mod 3600) 60 ltac:(lia)) as B2.
  pose proof (Z.mod_pos_bound t 60 ltac:(lia)) as B3.
  assert (E : ((t mod 3600) mod 60 = t mod 60)%Z).
  { transitivity ((t mod 3600 + 60 * (t / 3600) * 60) mod 60)%Z;
      [symmetry; apply Z.mod_add; lia|f_equal; lia]. }
  assert (H0 : (0 <= t / 3600)%Z) by (apply Z.div_pos; lia).
  assert (H1 : (0 <= (t mod 3600) / 60 < 60)%Z).
  { split; [apply Z.div_pos; lia|]. apply Z.div_lt_upper_bound; lia. }
  split; [rewrite <- E; lia|]. split; [exact H0|]. split; [exact H1|].
  split; [exact B3|]. split.
  - intros ->. reflexivity.
  - intros -> Hlt.
    assert (H2 : (0 <= t / 3600 < 100)%Z).
    { split; [exact H0|]. apply Z.div_lt_upper_bound; lia. }
    rewrite !string_length_append, !pad2_two_digits by lia. reflexivity.
Qed.

Lemma recording_clock_decomposes_time_witness :
  let st := Monitor.mkStatus true 3725 1000 [] 87 42 in
  (0 <= Monitor.recordingTime st)%Z /\
  Monitor.recordingClock (Monitor.recordingTime st) = (1, 2, 5)%Z /\
  Monitor.recordingText st = "01:02:05"%string /\
  (1 * 3600 + 2 * 60 + 5 = Monitor.recordingTime st)%Z.
Proof.
  intro st.
  assert (H : (0 <= Monitor.recordingTime st)%Z) by (cbn; lia).
  split; [exact H|]. split; [reflexivity|]. split; [reflexivity|].
  exact (proj1 (recording_clock_decomposes_time st H)).
Defined.

(** ** Decoder visualization: interface *)

(** X14: [updateDecoderData] never regenerates the trajectory: it compares
    the requested type with the stored one only after it has stored the
    request, so for every update of accuracy, metrics and trajectory type
    (the keys the dashboard passes) and every generator the five arrays
    and [targets] are left as they were, while a given type is stored as
    it is, known or not.  [setTrajectoryType] does regenerate, stores
    "circular" for a type it does not know, and returns its argument. *)
Theorem updateDecoderData_never_regenerates :
  forall demoArrays data st type,
    let st' := DecoderAPI.updateDecoderData demoArrays data st in
    DecoderAPI.buffers st' = DecoderAPI.buffers st /\
    DecoderAPI.hasTargets st' = DecoderAPI.hasTargets st /\
    (forall d t, data = Some d -> DecoderAPI.up_trajectoryType d = Some t ->
                 DecoderAPI.trajectoryType st' = t) /\
    DecoderAPI.buffers (fst (DecoderAPI.setTrajectoryType demoArrays type st))
    = demoArrays (DecoderAPI.generatedType type) /\
    DecoderAPI.trajectoryType
      (fst (DecoderAPI.setTrajectoryType demoArrays type st))
    = DecoderAPI.generatedType type /\
    snd (DecoderAPI.setTrajectoryType demoArrays type st) = type /\
    (DecoderAPI.generatedType type = "reaching"%string ->
     DecoderAPI.hasTargets
       (fst (DecoderAPI.setTrajectoryType demoArrays type st)) = true).
Proof.
  intros demoArrays data st type st'.
  assert (E : st' = match data with
                    | Some d => DecoderAPI.spread d st
                    | None => st
                    end).
  { subst st'. unfold DecoderAPI.updateDecoderData.
    destruct data as [d|]; [|reflexivity].
    destruct (DecoderAPI.up_trajectoryType d) as [t|] eqn:Et; [|reflexivity].
    replace (String.eqb t (DecoderAPI.trajectoryType (DecoderAPI.spread d st)))
      with true; [now rewrite andb_false_r|].
    unfold DecoderAPI.spread. cbn [DecoderAPI.trajectoryType].
    rewrite Et. cbn [DecoderAPI.orElse]. symmetry. apply String.eqb_refl. }
  rewrite E.
  split; [destruct data; reflexivity|]. split; [destruct data; reflexivity|].
  split.
  { intros d t -> Et. unfold DecoderAPI.spread.
    cbn [DecoderAPI.trajectoryType]. now rewrite Et. }
  unfold DecoderAPI.setTrajectoryType, DecoderAPI.generateDemoDecoderData.
  cbn [fst snd DecoderAPI.buffers DecoderAPI.trajectoryType
       DecoderAPI.hasTargets].
  repeat (split; [reflexivity|]). intros ->. reflexivity.
Qed.

(** X15: the metrics derived from a processor confidence between 0 and 1
    stay in the ranges the code announces (accuracy 85 to 95 percent, mean
    squared error 0.01 to 0.05, r2 0.7 to 0.9, correlation 0.8 to 0.95, bit
    rate 80 to 180) and move the right way: a higher confidence never
    lowers accuracy, r2, correlation or bit rate and never raises the
    error.  A missing or zero confidence, or missing movement parameters,
    leaves the display alone. *)
Theorem confidence_metrics_ranges :
  forall c c',
    0 <= c -> c <= c' -> c' <= 1 ->
    let s := DecoderAPI.updateDecoderMetricsWithConfidence c in
    let s' := DecoderAPI.updateDecoderMetricsWithConfidence c' in
    (85 <= DecoderAPI.s_accuracy s /\ DecoderAPI.s_accuracy s <= 95) /\
    (1#100 <= DecoderAPI.s_mse s /\ DecoderAPI.s_mse s <= 5#100) /\
    (7#10 <= DecoderAPI.s_r2 s /\ DecoderAPI.s_r2 s <= 9#10) /\
    (8#10 <= DecoderAPI.s_correlation s /\
     DecoderAPI.s_correlation s <= 95#100) /\
    (80 <= DecoderAPI.s_bitRate s /\ DecoderAPI.s_bitRate s <= 180) /\
    DecoderAPI.s_accuracy s <= DecoderAPI.s_accuracy s' /\
    DecoderAPI.s_mse s' <= DecoderAPI.s_mse s /\
    DecoderAPI.s_r2 s <= DecoderAPI.s_r2 s' /\
    DecoderAPI.s_correlation s <= DecoderAPI.s_correlation s' /\
    DecoderAPI.s_bitRate s <= DecoderAPI.s_bitRate s' /\
    DecoderAPI.updateDecoderWithProcessorData true (Some 0) = None /\
    DecoderAPI.updateDecoderWithProcessorData true None = None /\
    DecoderAPI.updateDecoderWithProcessorData false (Some c) = None /\
    (0 < c ->
     DecoderAPI.updateDecoderWithProcessorData true (Some c) = Some s).
Proof.
  intros c c' H0 Hcc H1 s s'. subst s s'.
  unfold DecoderAPI.updateDecoderMetricsWithConfidence.
  cbn [DecoderAPI.s_accuracy DecoderAPI.s_mse DecoderAPI.s_r2
       DecoderAPI.s_correlation DecoderAPI.s_bitRate].
  assert (Hsq : 0 <= c * c /\ c * c <= 1 /\ c * c <= c' * c') by nra.
  repeat (split; [lra|]).
  repeat (split; [reflexivity|]).
  intro Hpos. unfold DecoderAPI.updateDecoderWithProcessorData.
  destruct (Qeq_bool c 0) eqn:E; [|reflexivity].
  apply Qeq_bool_iff in E. lra.
Qed.

Lemma confidence_metrics_ranges_witness :
  let s := DecoderAPI.updateDecoderMetricsWithConfidence (1#2) in
  0 <= 1#2 /\ 1#2 <= 1 /\
  DecoderAPI.s_accuracy s == 90 /\
  (85 <= DecoderAPI.s_accuracy s /\ DecoderAPI.s_accuracy s <= 95).
Proof.
  intro s.
  assert (H0 : 0 <= 1#2) by discriminate.
  assert (H1 : 1#2 <= 1) by discriminate.
  split; [exact H0|]. split; [exact H1|]. split; [reflexivity|].
  exact (proj1 (confidence_metrics_ranges (1#2) 1 H0 H1 (Qle_refl 1))).
Defined.

(** ** Decoder visualization: derived velocities *)

Lemma trim_pushed (c : Decoder.Call) (d : Decoder.DecoderData) va vp :
  Decoder.aligned d ->
  Decoder.trim
    (Decoder.mkData (Decoder.push (Decoder.c_actual c) (Decoder.actual d))
                    (Decoder.push (Decoder.c_predicted c) (Decoder.predicted d))
                    (Decoder.push (Decoder.c_timestamp c) (Decoder.timestamps d))
                    (Decoder.push va (Decoder.velocities_actual d))
                    (Decoder.push vp (Decoder.velocities_predicted d)))
  = Decoder.mkData
      (Decoder.keep100 (Decoder.actual d ++ [Decoder.c_actual c]))
      (Decoder.keep100 (Decoder.predicted d ++ [Decoder.c_predicted c]))
      (Decoder.keep100 (Decoder.timestamps d ++ [Decoder.c_timestamp c]))
      (Decoder.keep100 (Decoder.velocities_actual d ++ [va]))
      (Decoder.keep100 (Decoder.velocities_predicted d ++ [vp])).
Proof.
  intros (Hp & Ht & Hva & Hvp).
  unfold Decoder.trim, Decoder.keep100, Decoder.push. cbn [Decoder.actual].
  rewrite !length_app, Hp, Ht, Hva, Hvp.
  destruct (100 <? _)%nat; reflexivity.
Qed.

Lemma nth_error_before_last {A} (l : list A) (x y : A) :
  nth_error ((l ++ [x]) ++ [y]) (length ((l ++ [x]) ++ [y]) - 2) = Some x.
Proof.
  rewrite !length_app. cbn [length].
  replace (length l + 1 + 1 - 2)%nat with (length l) by lia.
  rewrite <- app_assoc. rewrite nth_error_app2 by lia.
  rewrite Nat.sub_diag. reflexivity.
Qed.

Lemma velocityBetween_spec (p prev : Decoder.point) (t t0 : Q) :
  let v := Decoder.velocityBetween p prev (Some ((t - t0) / 1000)) in
  (t == t0 -> v = (None, None)) /\
  (~ t == t0 ->
   exists vx vy, v = (Some vx, Some vy) /\
     fst prev + vx * ((t - t0) / 1000) == fst p /\
     snd prev + vy * ((t - t0) / 1000) == snd p).
Proof.
  cbv zeta. unfold Decoder.velocityBetween, JS.div.
  destruct (Qeq_bool ((t - t0) / 1000) 0) eqn:E.
  - apply Qeq_bool_iff in E. split; [reflexivity|].
    intro Hne. exfalso. apply Hne.
    assert (H : t - t0 == (t - t0) / 1000 * 1000) by (field; discriminate).
    rewrite E in H. lra.
  - apply Qeq_bool_neq in E. split.
    + intro Heq. exfalso. apply E. rewrite Heq. field.
    + intro Hne. eexists. eexists. split; [reflexivity|].
      assert (Hd : ~ t - t0 == 0) by (intro H; apply Hne; lra).
      split; field; exact Hd.
Qed.

(** X16: a call of [addDecodedPosition] that does not supply both
    velocities, on arrays in lockstep whose last point is [pa], [pp] at
    time [t0], returns and records velocities derived from that point.
    When the new timestamp differs from [t0] the recorded velocity is the
    one that carries the previous position to the new one in the elapsed
    time (milliseconds converted to seconds); when the timestamps are
    equal the division is by zero and no component is a finite number. *)
Theorem derived_velocity_reaches_new_position :
  forall c d la pa lp pp lt t0,
    Decoder.aligned d ->
    Decoder.actual d = la ++ [pa] ->
    Decoder.predicted d = lp ++ [pp] ->
    Decoder.timestamps d = lt ++ [t0] ->
    Decoder.c_actualVelocity c = None \/
    Decoder.c_predictedVelocity c = None ->
    let t := Decoder.c_timestamp c in
    exists va vp,
      Decoder.addDecodedPosition c d
      = Decoder.Returned
          (Decoder.mkData
             (Decoder.keep100 (Decoder.actual d ++ [Decoder.c_actual c]))
             (Decoder.keep100 (Decoder.predicted d ++ [Decoder.c_predicted c]))
             (Decoder.keep100 (Decoder.timestamps d ++ [t]))
             (Decoder.keep100 (Decoder.velocities_actual d ++ [va]))
             (Decoder.keep100 (Decoder.velocities_predicted d ++ [vp]))) /\
      (t == t0 -> va = (None, None) /\ vp = (None, None)) /\
      (~ t == t0 ->
       exists ax ay px py,
         va = (Some ax, Some ay) /\ vp = (Some px, Some py) /\
         fst pa + ax * ((t - t0) / 1000) == fst (Decoder.c_actual c) /\
         snd pa + ay * ((t - t0) / 1000) == snd (Decoder.c_actual c) /\
         fst pp + px * ((t - t0) / 1000) == fst (Decoder.c_predicted c) /\
         snd pp + py * ((t - t0) / 1000) == snd (Decoder.c_predicted c)).
Proof.
  intros c d la pa lp pp lt t0 Hal Ea Ep Et Hnone t.
  exists (Decoder.velocityBetween (Decoder.c_actual c) pa
            (Some ((t - t0) / 1000))),
         (Decoder.velocityBetween (Decoder.c_predicted c) pp
            (Some ((t - t0) / 1000))).
  split.
  - rewrite <- (trim_pushed c d _ _ Hal).
    unfold Decoder.addDecodedPosition.
    cbn [Decoder.actual Decoder.predicted Decoder.timestamps
         Decoder.velocities_actual Decoder.velocities_predicted].
    assert (L : (1 <? length (Decoder.push (Decoder.c_actual c)
                                           (Decoder.actual d)))%nat = true).
    { apply Nat.ltb_lt. unfold Decoder.push. rewrite Ea, !length_app.
      cbn [length]. lia. }
    assert (Na : nth_error (Decoder.push (Decoder.c_actual c) (Decoder.actual d))
                   (length (Decoder.push (Decoder.c_actual c)
                                         (Decoder.actual d)) - 2) = Some pa).
    { unfold Decoder.push. rewrite Ea. apply nth_error_before_last. }
    assert (Np : nth_error (Decoder.push (Decoder.c_predicted c)
                                         (Decoder.predicted d))
                   (length (Decoder.push (Decoder.c_predicted c)
                                         (Decoder.predicted d)) - 2) = Some pp).
    { unfold Decoder.push. rewrite Ep. apply nth_error_before_last. }
    assert (Nt : nth_error (Decoder.push (Decoder.c_timestamp c)
                                         (Decoder.timestamps d))
                   (length (Decoder.push (Decoder.c_timestamp c)
                                         (Decoder.timestamps d)) - 2) = Some t0).
    { unfold Decoder.push. rewrite Et. apply nth_error_before_last. }
    destruct Hnone as [Hn|Hn]; rewrite Hn.
    + rewrite L, Na, Np, Nt. reflexivity.
    + destruct (Decoder.c_actualVelocity c); rewrite L, Na, Np, Nt;
        reflexivity.
  - destruct (velocityBetween_spec (Decoder.c_actual c) pa t t0) as [Za Sa].
    destruct (velocityBetween_spec (Decoder.c_predicted c) pp t t0) as [Zp Sp].
    split.
    + intro Heq. split; [exact (Za Heq)|exact (Zp Heq)].
    + intro Hne.
      destruct (Sa Hne) as (ax & ay & Eva & Hax & Hay).
      destruct (Sp Hne) as (px & py & Evp & Hpx & Hpy).
      exists ax, ay, px, py. repeat (split; [assumption|]). assumption.
Qed.

Lemma derived_velocity_reaches_new_position_witness :
  let d := Decoder.mkData [(0, 0)] [(0, 0)] [0] [(Some 0, Some 0)]
                          [(Some 0, Some 0)] in
  let c := Decoder.mkCall (1, 2) (1, 1) 500 None None in
  Decoder.aligned d /\
  exists va vp,
    Decoder.velocities_actual
      (Decoder.data_of (Decoder.addDecodedPosition c d))
    = [(Some 0, Some 0); va] /\
    Decoder.velocities_predicted
      (Decoder.data_of (Decoder.addDecodedPosition c d))
    = [(Some 0, Some 0); vp].
Proof.
  intros d c.
  assert (Hal : Decoder.aligned d) by (repeat split).
  split; [exact Hal|].
  destruct (derived_velocity_reaches_new_position c d [] (0, 0) [] (0, 0) [] 0
              Hal eq_refl eq_refl eq_refl (or_introl eq_refl))
    as (va & vp & E & _).
  exists va, vp. rewrite E. split; reflexivity.
Defined.

(** ** Signal processor: decoded output history *)

Section OutputHistory.

Variable random : nat -> Q.

Lemma removeOld_times h :
  map SignalProcessor.time (SignalProcessor.removeOld h)
  = SignalProcessor.removeOldTimes (map SignalProcessor.time h).
Proof.
  induction h as [|p h IH]; [reflexivity|].
  cbn [SignalProcessor.removeOld SignalProcessor.removeOldTimes map].
  destruct (JS.gt (SignalProcessor.time p) 0); [exact IH|reflexivity].
Qed.

Lemma mapGen_fst_map {A B C} (f : A -> Processor.Gen B) (g : A -> C)
      (proj : B -> C) (l : list A) (k : nat) :
  (forall a n, proj (fst (f a n)) = g a) ->
  map proj (fst (SignalProcessor.mapGen f l k)) = map g l.
Proof.
  intro H. revert k. induction l as [|a l IH]; intro k; [reflexivity|].
  cbn [SignalProcessor.mapGen map].
  pose proof (H a k) as Ha. destruct (f a k) as [b k1]. cbn [fst] in Ha.
  pose proof (IH k1) as Hl.
  destruct (SignalProcessor.mapGen f l k1) as [bs k2]. cbn [fst] in Hl |- *.
  cbn [map]. now rewrite Ha, Hl.
Qed.

Lemma updateDecodedOutputHistory_times c h k :
  map SignalProcessor.time
      (fst (SignalProcessor.updateDecodedOutputHistory random c h k))
  = SignalProcessor.stepTimes (map SignalProcessor.time h).
Proof.
  unfold SignalProcessor.updateDecodedOutputHistory,
         SignalProcessor.stepTimes.
  destruct (SignalProcessor.mapGen _ _ k) as [newValues k'].
  cbn [fst]. rewrite map_app, removeOld_times, !map_map.
  cbn [map SignalProcessor.time]. reflexivity.
Qed.

Lemma initDecodedOutputChart_times k :
  map SignalProcessor.time
      (fst (SignalProcessor.initDecodedOutputChart random k))
  = SignalProcessor.initialTimes.
Proof.
  unfold SignalProcessor.initDecodedOutputChart, SignalProcessor.initialTimes.
  apply mapGen_fst_map. intros i n.
  destruct (SignalProcessor.mapGen _ SignalProcessor.classLabels n).
  reflexivity.
Qed.

Lemma updates_times cs : forall h k,
  map SignalProcessor.time (fst (SignalProcessor.updates random cs h k))
  = Nat.iter (length cs) SignalProcessor.stepTimes
             (map SignalProcessor.time h).
Proof.
  induction cs as [|c cs IH]; intros h k; [reflexivity|].
  cbn [SignalProcessor.updates length].
  pose proof (updateDecodedOutputHistory_times c h k) as E.
  destruct (SignalProcessor.updateDecodedOutputHistory random c h k)
    as [h' k'].
  cbn [fst] in E. rewrite IH, E. symmetry. apply Nat.iter_succ_r.
Qed.

End OutputHistory.

Lemma history_first_fifty_updates :
  forallb (fun n => SignalProcessor.fifty_with_future n
                      (Nat.iter n SignalProcessor.stepTimes
                                SignalProcessor.initialTimes))
          (seq 0 50) = true.
Proof. vm_compute. reflexivity. Qed.

Lemma history_after_fifty_updates :
  map Qred (Nat.iter 50 SignalProcessor.stepTimes SignalProcessor.initialTimes)
  = [0; - (1#2)].
Proof. vm_compute. reflexivity. Qed.

Lemma stepTimes_keeps_two ts :
  map Qred ts = [0; - (1#2)] ->
  map Qred (SignalProcessor.stepTimes ts) = [0; - (1#2)].
Proof.
  intro H. destruct ts as [|a [|b [|c ts]]]; try discriminate.
  cbn [map] in H. injection H as Ha Hb.
  assert (Ea : a == 0) by (rewrite <- (Qred_correct a), Ha; reflexivity).
  assert (Eb : b == - (1#2)) by (rewrite <- (Qred_correct b), Hb; reflexivity).
  unfold SignalProcessor.stepTimes, SignalProcessor.updateInterval.
  cbn [map SignalProcessor.removeOldTimes].
  assert (Ga : JS.gt (a + 500 / 1000) 0 = true).
  { unfold JS.gt. destruct (Qle_bool (a + 500 / 1000) 0) eqn:E;
      [|reflexivity].
    apply Qle_bool_iff in E. exfalso.
    assert (H5 : 500 / 1000 == 1#2) by reflexivity. lra. }
  assert (Gb : JS.gt (b + 500 / 1000) 0 = false).
  { unfold JS.gt. destruct (Qle_bool (b + 500 / 1000) 0) eqn:E;
      [reflexivity|].
    exfalso. assert (L : b + 500 / 1000 <= 0).
    { assert (H5 : 500 / 1000 == 1#2) by reflexivity. lra. }
    apply Qle_bool_iff in L. congruence. }
  rewrite Ga, Gb. cbn [app map]. f_equal; try reflexivity.
  change 0 with (Qred 0). apply Qred_complete.
  assert (H5 : 500 / 1000 == 1#2) by reflexivity. lra.
Qed.

Lemma history_from_fifty_updates n :
  (50 <= n)%nat ->
  map Qred (Nat.iter n SignalProcessor.stepTimes SignalProcessor.initialTimes)
  = [0; - (1#2)].
Proof.
  induction 1 as [|n Hn IH]; [exact history_after_fifty_updates|].
  cbn [Nat.iter nat_rect]. now apply stepTimes_keeps_two.
Qed.

(** X17: the decoded output history set up by [initDecodedOutputChart]
    and then advanced by [updateDecodedOutputHistory], whatever the
    random draws and the classes.  Only points at the head of the array
    are ever removed, and a new point is appended behind older ones: for
    the first 49 updates the history keeps 50 points and, after [n]
    updates, holds a point dated [(n - 2) / 2] seconds, in the future
    once [n] exceeds 2.  From the fiftieth update on the history has
    exactly two points, at 0 and at half a second ago. *)
Theorem output_history_collapses_to_two_points :
  forall random k classes,
    let start := SignalProcessor.initDecodedOutputChart random k in
    let h := fst (SignalProcessor.updates random classes
                    (fst start) (snd start)) in
    let n := length classes in
    ((n < 50)%nat ->
     length h = 50%nat /\
     exists p, In p h /\
       SignalProcessor.time p == (inject_Z (Z.of_nat n) - 2) / 2) /\
    ((50 <= n)%nat ->
     map Qred (map SignalProcessor.time h) = [0; - (1#2)]).
Proof.
  intros random k classes start h n.
  assert (E : map SignalProcessor.time h
              = Nat.iter n SignalProcessor.stepTimes
                         SignalProcessor.initialTimes).
  { subst h n. rewrite updates_times. subst start.
    now rewrite initDecodedOutputChart_times. }
  split.
  - intro Hn.
    pose proof history_first_fifty_updates as F.
    rewrite forallb_forall in F.
    specialize (F n ltac:(apply in_seq; lia)). rewrite <- E in F.
    unfold SignalProcessor.fifty_with_future in F.
    apply andb_true_iff in F. destruct F as [L X].
    apply Nat.eqb_eq in L. rewrite length_map in L. split; [exact L|].
    apply existsb_exists in X. destruct X as (t & Ht & Q).
    apply in_map_iff in Ht. destruct Ht as (p & <- & Hp).
    exists p. split; [exact Hp|]. apply Qeq_bool_iff in Q. now rewrite Q.
  - intro Hn. rewrite E. now apply history_from_fifty_updates.
Qed.

Lemma output_history_collapses_to_two_points_witness :
  let random := fun _ : nat => 1#2 in
  let classes := repeat (Some "Feet"%string) 50 in
  let start := SignalProcessor.initDecodedOutputChart random 0%nat in
  (50 <= length classes)%nat /\
  map Qred (map SignalProcessor.time
              (fst (SignalProcessor.updates random classes
                      (fst start) (snd start))))
  = [0; - (1#2)].
Proof.
  intros random classes start.
  assert (H : (50 <= length classes)%nat) by (vm_compute; lia).
  split; [exact H|].
  exact (proj2 (output_history_collapses_to_two_points random 0%nat classes)
               H).
Defined.

(** ** Signal processor: simulated classification *)

Lemma labelAt_in_range r :
  0 <= r -> r < 1 ->
  exists label,
    SignalProcessor.labelAt (Qfloor (r * 5)) = Some label /\
    In label SignalProcessor.classLabels.
Proof.
  intros H0 H1.
  assert (L : (0 <= Qfloor (r * 5))%Z).
  { change 0%Z with (Qfloor 0). apply Qfloor_resp_le. lra. }
  assert (U : (Qfloor (r * 5) < 5)%Z).
  { rewrite Zlt_Qlt. apply Qle_lt_trans with (r * 5); [apply Qfloor_le|].
    change (inject_Z 5) with 5. lra. }
  assert (C : (Qfloor (r * 5) = 0 \/ Qfloor (r * 5) = 1 \/ Qfloor (r * 5) = 2
               \/ Qfloor (r * 5) = 3 \/ Qfloor (r * 5) = 4)%Z) by lia.
  destruct C as [E|[E|[E|[E|E]]]]; rewrite E;
    eexists; (split; [reflexivity|]); cbn; tauto.
Qed.

(** X19: one call of [simulateClassification] with draws in [0, 1).  The
    confidence it leaves is between one half and 1.  When the first draw
    is below 0.1 the class becomes one of the five labels (never
    undefined), the confidence is one half plus half the third draw, so
    below 1, and exactly one event is published, carrying that class and
    confidence.  Otherwise nothing is published and the class stays; a
    confidence already in range moves by at most 0.05, and one at or
    below 0.45 (the initial 0 in particular) is set to one half. *)
Theorem classification_draw_publishes_a_label :
  forall random cls conf k,
    (forall n, 0 <= random n /\ random n < 1) ->
    let r := SignalProcessor.simulateClassification random cls conf k in
    let cls' := fst (fst (fst r)) in
    let conf' := snd (fst (fst r)) in
    let published := snd (fst r) in
    (1#2 <= conf' /\ conf' <= 1) /\
    (random k < 1#10 ->
     (exists label,
        In label SignalProcessor.classLabels /\ cls' = Some label) /\
     conf' == (1#2) + random (S (S k)) / 2 /\
     conf' < 1 /\
     published = [SignalProcessor.ClassificationUpdated cls' conf']) /\
    (1#10 <= random k ->
     cls' = cls /\ published = [] /\
     (1#2 <= conf -> conf <= 1 -> Qabs (conf' - conf) <= 1#20) /\
     (conf <= 45#100 -> conf' == 1#2)).
Proof.
  intros random cls conf k Hr r cls' conf' published.
  subst cls' conf' published r.
  unfold SignalProcessor.simulateClassification.
  pose proof (Hr (S k)) as [A0 A1]. pose proof (Hr (S (S k))) as [B0 B1].
  destruct (JS.lt (random k) (1#10)) eqn:E; cbn [fst snd].
  - apply lt_true_iff in E.
    split; [split; lra|]. split; [|intro; lra].
    intros _. split.
    + destruct (labelAt_in_range (random (S k)) A0 A1) as (label & -> & Hin).
      exists label. auto.
    + split; [field|]. split; [lra|reflexivity].
  - apply lt_false_iff in E.
    set (moved := conf + (random (S k) - (1#2)) * (1#10)).
    destruct (Q.max_spec (1#2) moved) as [[M1 M2]|[M1 M2]];
      destruct (Q.min_spec 1 (Qmax (1#2) moved)) as [[N1 N2]|[N1 N2]].
    all: split; [split; lra|]; split; [intro; lra|].
    all: intros _; split; [reflexivity|]; split; [reflexivity|].
    all: split; [intros C0 C1; apply Qabs_Qle_condition; subst moved;
                 split; lra
                |intro C; subst moved; lra].
Qed.

Lemma classification_draw_publishes_a_label_witness :
  let random := fun n : nat =>
                  match n with
                  | 0%nat => 5#100
                  | 1%nat => 3#10
                  | _ => 8#10
                  end in
  (forall n, 0 <= random n /\ random n < 1) /\
  snd (fst (SignalProcessor.simulateClassification
              random (Some "Idle"%string) 0 0%nat))
  = [SignalProcessor.ClassificationUpdated
       (Some "Right Hand"%string) ((1#2) + (8#10) * (1#2))].
Proof.
  intro random.
  assert (Hr : forall n, 0 <= random n /\ random n < 1).
  { intros [|[|n]]; cbn; split; lra. }
  split; [exact Hr|].
  destruct (classification_draw_publishes_a_label
              random (Some "Idle"%string) 0 0%nat Hr) as (_ & P & _).
  assert (Hd : random 0%nat < 1#10) by (cbn; lra).
  destruct (P Hd) as (_ & _ & _ & E). exact E.
Defined.

(** ** Signal processor: movement table *)

Lemma lookup_store_same c v v' m :
  SignalProcessor.lookup c m = Some v ->
  SignalProcessor.lookup c (SignalProcessor.store c v' m) = Some v'.
Proof.
  induction m as [|[k w] m IH]; [discriminate|].
  cbn [SignalProcessor.lookup SignalProcessor.store].
  destruct (String.eqb c k) eqn:E; cbn [SignalProcessor.lookup]; rewrite E.
  - reflexivity.
  - exact IH.
Qed.

Lemma lookup_store_other c c' v m :
  String.eqb c' c = false ->
  SignalProcessor.lookup c' (SignalProcessor.store c v m)
  = SignalProcessor.lookup c' m.
Proof.
  intro Hne. induction m as [|[k w] m IH]; [reflexivity|].
  cbn [SignalProcessor.lookup SignalProcessor.store].
  destruct (String.eqb c k) eqn:E; cbn [SignalProcessor.lookup].
  - apply String.eqb_eq in E. subst k. now rewrite Hne.
  - now rewrite IH.
Qed.

Lemma lookup_In c m mv :
  SignalProcessor.lookup c m = Some mv -> exists k, In (k, mv) m.
Proof.
  induction m as [|[k w] m IH]; [discriminate|].
  cbn [SignalProcessor.lookup]. destruct (String.eqb c k).
  - intro H. injection H as ->. exists k. now left.
  - intro H. destruct (IH H) as (k' & Hin). exists k'. now right.
Qed.

Lemma store_Forall (P : SignalProcessor.Movement -> Prop) c v m :
  Forall (fun kv => P (snd kv)) m -> P v ->
  Forall (fun kv => P (snd kv)) (SignalProcessor.store c v m).
Proof.
  intros Hm Hv. induction Hm as [|[k w] m Hw Hm IH]; [constructor|].
  cbn [SignalProcessor.store]. destruct (String.eqb c k).
  - constructor; [exact Hv|exact Hm].
  - constructor; [exact Hw|exact IH].
Qed.

(** *** Rounding *)

Lemma rounding_respects fl a b :
  Float.rounding fl -> a == b -> fl a == fl b.
Proof.
  intros (Hm & _) E.
  apply Qle_antisym; apply Hm; rewrite E; apply Qle_refl.
Qed.

Lemma rounding_small_integers fl :
  Float.rounding fl -> fl 0 == 0 /\ fl 1 == 1 /\ fl (-1) == -1.
Proof.
  intros (_ & Hz & _).
  split; [|split].
  - apply (Hz 0%Z). cbn. lia.
  - apply (Hz 1%Z). cbn. lia.
  - apply (Hz (-1)%Z). cbn. lia.
Qed.

Lemma shrunk_refl a : Float.shrunk a a.
Proof. split; intro; split; lra. Qed.

Lemma shrunk_trans a b c :
  Float.shrunk a b -> Float.shrunk b c -> Float.shrunk a c.
Proof.
  intros [P1 N1] [P2 N2]. split; intro H.
  - destruct (P1 H) as [B0 B1]. destruct (P2 B0). split; lra.
  - destruct (N1 H) as [B0 B1]. destruct (N2 B1). split; lra.
Qed.

Lemma shrunk_zero a b : a == 0 -> Float.shrunk a b -> b == 0.
Proof. intros E [P _]. destruct P; lra. Qed.

Lemma shrunk_within_unit a b :
  SignalProcessor.within_unit a -> Float.shrunk a b ->
  SignalProcessor.within_unit b.
Proof.
  intros [A0 A1] [P N]. unfold SignalProcessor.within_unit.
  destruct (Qlt_le_dec a 0) as [H|H].
  - destruct N; lra.
  - destruct P; lra.
Qed.

(** A stored coordinate scaled by a confidence between 0 and 1 and
    rounded lies between zero and what it was, and is a double. *)
Lemma scaled_shrunk fl v q :
  Float.rounding fl -> fl v == v -> 0 <= q -> q <= 1 ->
  Float.shrunk v (fl (v * q)) /\ fl (fl (v * q)) == fl (v * q).
Proof.
  intros R Ev Q0 Q1.
  destruct (rounding_small_integers fl R) as (Z0 & _).
  destruct R as (Hm & _ & Hi).
  split; [|apply Hi]. split; intro H.
  - assert (L : fl 0 <= fl (v * q)) by (apply Hm; nra).
    assert (U : fl (v * q) <= fl v) by (apply Hm; nra).
    split; lra.
  - assert (L : fl v <= fl (v * q)) by (apply Hm; nra).
    assert (U : fl (v * q) <= fl 0) by (apply Hm; nra).
    split; lra.
Qed.

(** *** The table over a run of updates *)

Lemma scaleAll_snoc fl hypot ticks t m :
  SignalProcessor.scaleAll fl hypot (ticks ++ [t]) m
  = fst (SignalProcessor.updateMovementParameters
           fl hypot (fst t) (snd t) (SignalProcessor.scaleAll fl hypot ticks m)).
Proof. unfold SignalProcessor.scaleAll. now rewrite fold_left_app. Qed.

Lemma shrink_snoc c ticks t :
  SignalProcessor.shrink c (ticks ++ [t])
  = match fst t with
    | Some c' => if String.eqb c' c
                 then SignalProcessor.shrink c ticks * snd t
                 else SignalProcessor.shrink c ticks
    | None => SignalProcessor.shrink c ticks
    end.
Proof. unfold SignalProcessor.shrink. now rewrite fold_left_app. Qed.

(** What one update does to the entry of a class. *)
Lemma updateMovementParameters_entry fl hypot cls q m c mv :
  SignalProcessor.lookup c m = Some mv ->
  let m' := fst (SignalProcessor.updateMovementParameters fl hypot cls q m) in
  (cls = Some c /\
   SignalProcessor.lookup c m'
   = Some (SignalProcessor.mkMovement (fl (SignalProcessor.x mv * q))
                                      (fl (SignalProcessor.y mv * q)))) \/
  (cls <> Some c /\ SignalProcessor.lookup c m' = Some mv).
Proof.
  intro L. cbv zeta. unfold SignalProcessor.updateMovementParameters.
  destruct cls as [c'|]; [|right; split; [discriminate|exact L]].
  destruct (String.eqb c' c) eqn:E.
  - apply String.eqb_eq in E. subst c'. rewrite L. cbn [fst]. left.
    split; [reflexivity|]. eapply lookup_store_same. exact L.
  - assert (Hne : Some c' <> Some c).
    { intro H. injection H as ->. rewrite String.eqb_refl in E.
      discriminate. }
    right. split; [exact Hne|].
    destruct (SignalProcessor.lookup c' m); cbn [fst]; [|exact L].
    rewrite lookup_store_other; [exact L|].
    rewrite String.eqb_sym. exact E.
Qed.

(** After any run of updates with confidences between 0 and 1, an entry
    lies between zero and its first value and holds doubles. *)
Lemma scaleAll_entry fl hypot ticks c mv m :
  Float.rounding fl ->
  Forall (fun t => 0 <= snd t /\ snd t <= 1) ticks ->
  SignalProcessor.lookup c m = Some mv ->
  SignalProcessor.stored fl mv ->
  exists mv',
    SignalProcessor.lookup c (SignalProcessor.scaleAll fl hypot ticks m)
    = Some mv' /\
    Float.shrunk (SignalProcessor.x mv) (SignalProcessor.x mv') /\
    Float.shrunk (SignalProcessor.y mv) (SignalProcessor.y mv') /\
    SignalProcessor.stored fl mv'.
Proof.
  intros R Ht L St. induction ticks as [|[cls q] ticks IH] using rev_ind.
  - exists mv. split; [exact L|].
    split; [apply shrunk_refl|]. split; [apply shrunk_refl|exact St].
  - apply Forall_app in Ht. destruct Ht as [Ht Hq].
    inversion Hq as [|? ? [Q0 Q1] _]; subst. cbn [snd] in Q0, Q1.
    destruct (IH Ht) as (mv1 & L1 & X1 & Y1 & [Sx Sy]).
    rewrite scaleAll_snoc. cbn [fst snd].
    destruct (updateMovementParameters_entry fl hypot cls q _ c mv1 L1)
      as [[_ E]|[_ E]]; cbv zeta in E; rewrite E.
    + destruct (scaled_shrunk fl _ q R Sx Q0 Q1) as [Hx Hx'].
      destruct (scaled_shrunk fl _ q R Sy Q0 Q1) as [Hy Hy'].
      eexists. split; [reflexivity|].
      cbn [SignalProcessor.x SignalProcessor.y].
      split; [exact (shrunk_trans _ _ _ X1 Hx)|].
      split; [exact (shrunk_trans _ _ _ Y1 Hy)|]. split; assumption.
    + exists mv1. split; [reflexivity|]. split; [exact X1|].
      split; [exact Y1|]. split; assumption.
Qed.

(** In exact arithmetic the entry is its first value times the product
    of the confidences of the updates made under its class. *)
Lemma scaleAll_entry_exact fl hypot ticks c mv m :
  (forall a, fl a == a) ->
  SignalProcessor.lookup c m = Some mv ->
  exists mv',
    SignalProcessor.lookup c (SignalProcessor.scaleAll fl hypot ticks m)
    = Some mv' /\
    SignalProcessor.x mv'
    == SignalProcessor.x mv * SignalProcessor.shrink c ticks /\
    SignalProcessor.y mv'
    == SignalProcessor.y mv * SignalProcessor.shrink c ticks.
Proof.
  intros Hfl L. induction ticks as [|[cls q] ticks IH] using rev_ind.
  - exists mv. split; [exact L|]. unfold SignalProcessor.shrink.
    cbn [fold_left]. split; ring.
  - destruct IH as (mv1 & L1 & X1 & Y1).
    rewrite scaleAll_snoc, shrink_snoc. cbn [fst snd].
    destruct (updateMovementParameters_entry fl hypot cls q _ c mv1 L1)
      as [[-> E]|[Hne E]]; cbv zeta in E; rewrite E.
    + rewrite String.eqb_refl. eexists. split; [reflexivity|].
      cbn [SignalProcessor.x SignalProcessor.y].
      rewrite !Hfl, X1, Y1. split; ring.
    + exists mv1. split; [reflexivity|].
      destruct cls as [c'|]; [|auto].
      destruct (String.eqb c' c) eqn:Ec; [|auto].
      apply String.eqb_eq in Ec. subst c'. now contradiction Hne.
Qed.

Lemma classToMovementMap_entries c mv :
  SignalProcessor.lookup c SignalProcessor.classToMovementMap = Some mv ->
  (SignalProcessor.x mv = 0 \/ SignalProcessor.x mv = 1
   \/ SignalProcessor.x mv = -1) /\
  (SignalProcessor.y mv = 0 \/ SignalProcessor.y mv = 1
   \/ SignalProcessor.y mv = -1) /\
  SignalProcessor.axis mv.
Proof.
  unfold SignalProcessor.classToMovementMap. cbn [SignalProcessor.lookup].
  repeat match goal with
         | |- context [String.eqb c ?s] => destruct (String.eqb c s)
         end;
    intro H; inversion H; subst; unfold SignalProcessor.axis;
    cbn [SignalProcessor.x SignalProcessor.y];
    (split; [tauto|]); (split; [tauto|]);
    first [left; reflexivity | right; reflexivity].
Qed.

Lemma classToMovementMap_stored fl c mv :
  Float.rounding fl ->
  SignalProcessor.lookup c SignalProcessor.classToMovementMap = Some mv ->
  SignalProcessor.stored fl mv.
Proof.
  intros R L. destruct (rounding_small_integers fl R) as (Z0 & Z1 & Zm).
  destruct (classToMovementMap_entries c mv L) as (Hx & Hy & _).
  split.
  - destruct Hx as [-> |[-> | ->]]; assumption.
  - destruct Hy as [-> |[-> | ->]]; assumption.
Qed.

(** X18: [updateMovementParameters] scales the vector object of the
    table itself, so the table keeps every scaling and never returns to
    its configured directions.  With products rounded by any [fl] that is
    monotone and exact on small integers, after any run of updates with
    confidences between 0 and 1 the entry of a class lies between zero
    and its configured vector, coordinate by coordinate; the next update
    under that class with confidence [q] publishes that entry scaled by
    [q] (not the configured vector scaled by [q]), with the velocity
    computed from the scaled coordinates, stores what it publishes as the
    new entry, which again lies between zero and the old one, and leaves
    the entries of the other classes alone. *)
Theorem movement_table_is_scaled_in_place :
  forall fl hypot ticks c mv q,
    Float.rounding fl ->
    Forall (fun t => 0 <= snd t /\ snd t <= 1) ticks ->
    0 <= q -> q <= 1 ->
    SignalProcessor.lookup c SignalProcessor.classToMovementMap = Some mv ->
    let table := SignalProcessor.scaleAll fl hypot ticks
                   SignalProcessor.classToMovementMap in
    let r := SignalProcessor.updateMovementParameters
               fl hypot (Some c) q table in
    let px := SignalProcessor.p_x (snd r) in
    let py := SignalProcessor.p_y (snd r) in
    exists mv',
      SignalProcessor.lookup c table = Some mv' /\
      Float.shrunk (SignalProcessor.x mv) (SignalProcessor.x mv') /\
      Float.shrunk (SignalProcessor.y mv) (SignalProcessor.y mv') /\
      px = fl (SignalProcessor.x mv' * q) /\
      py = fl (SignalProcessor.y mv' * q) /\
      SignalProcessor.velocity (snd r) = Some (hypot px py) /\
      SignalProcessor.lookup c (fst r)
      = Some (SignalProcessor.mkMovement px py) /\
      Float.shrunk (SignalProcessor.x mv') px /\
      Float.shrunk (SignalProcessor.y mv') py /\
      (forall c', String.eqb c' c = false ->
                  SignalProcessor.lookup c' (fst r)
                  = SignalProcessor.lookup c' table).
Proof.
  intros fl hypot ticks c mv q R Ht Q0 Q1 L table r px py.
  destruct (scaleAll_entry fl hypot ticks c mv _ R Ht L
              (classToMovementMap_stored fl c mv R L))
    as (mv' & L' & X & Y & [Sx Sy]).
  fold table in L'. exists mv'.
  split; [exact L'|]. split; [exact X|]. split; [exact Y|].
  subst px py r. unfold SignalProcessor.updateMovementParameters.
  rewrite L'.
  cbn [fst snd SignalProcessor.p_x SignalProcessor.p_y
       SignalProcessor.velocity SignalProcessor.x SignalProcessor.y].
  split; [reflexivity|]. split; [reflexivity|]. split; [reflexivity|].
  split; [eapply lookup_store_same; exact L'|].
  split; [exact (proj1 (scaled_shrunk fl _ q R Sx Q0 Q1))|].
  split; [exact (proj1 (scaled_shrunk fl _ q R Sy Q0 Q1))|].
  intros c' Hne. now apply lookup_store_other.
Qed.

Lemma exact_arithmetic_is_rounding : Float.rounding (fun a => a).
Proof.
  split; [intros a b H; exact H|].
  split; [intros z _; reflexivity|intro a; reflexivity].
Qed.

Lemma movement_table_is_scaled_in_place_witness :
  let fl := fun a : Q => a in
  let hypot := fun a b : Q => Qabs a + Qabs b in
  let ticks := [(Some "Right Hand"%string, 1#2);
                (Some "Feet"%string, 9#10);
                (Some "Right Hand"%string, 1#2)] in
  Float.rounding fl /\
  Forall (fun t => 0 <= snd t /\ snd t <= 1) ticks /\
  SignalProcessor.lookup "Right Hand" SignalProcessor.classToMovementMap
  = Some (SignalProcessor.mkMovement 1 0) /\
  exists mv',
    SignalProcessor.lookup "Right Hand"
      (SignalProcessor.scaleAll fl hypot ticks
         SignalProcessor.classToMovementMap) = Some mv' /\
    Float.shrunk 1 (SignalProcessor.x mv').
Proof.
  intros fl hypot ticks.
  assert (R : Float.rounding fl) by exact exact_arithmetic_is_rounding.
  assert (Ht : Forall (fun t => 0 <= snd t /\ snd t <= 1) ticks).
  { repeat (apply Forall_cons; [split; discriminate|]). apply Forall_nil. }
  assert (L : SignalProcessor.lookup "Right Hand"
                SignalProcessor.classToMovementMap
              = Some (SignalProcessor.mkMovement 1 0)) by reflexivity.
  split; [exact R|]. split; [exact Ht|]. split; [exact L|].
  assert (Q0 : 0 <= 1) by discriminate.
  destruct (movement_table_is_scaled_in_place
              fl hypot ticks "Right Hand" _ 1 R Ht Q0 (Qle_refl 1) L)
    as (mv' & L' & X & _).
  exists mv'. split; [exact L'|exact X].
Defined.

(** ** Signal processor: one tick *)

Section Tick.

Variable random : nat -> Q.
Hypothesis random_range : forall n, 0 <= random n /\ random n < 1.

Lemma mapGen_fluctuate l : forall k,
  length (fst (SignalProcessor.mapGen (SignalProcessor.fluctuate random) l k))
  = length l /\
  Forall SignalProcessor.percent
         (fst (SignalProcessor.mapGen (SignalProcessor.fluctuate random) l k)).
Proof.
  induction l as [|v l IH]; intro k; [split; [reflexivity|constructor]|].
  cbn [SignalProcessor.mapGen]. unfold SignalProcessor.fluctuate at 1 3.
  destruct (IH (S k)) as [L F].
  destruct (SignalProcessor.mapGen _ l (S k)) as [bs k2].
  cbn [fst length] in *. split; [now rewrite L|].
  constructor; [|exact F]. unfold SignalProcessor.percent.
  set (moved := v + (random k - (1#2)) * 10).
  destruct (Q.min_spec 100 moved) as [[M1 M2]|[M1 M2]];
    destruct (Q.max_spec 0 (Qmin 100 moved)) as [[N1 N2]|[N1 N2]];
    split; lra.
Qed.

Lemma mapGen_fluctuate_ten l k :
  SignalProcessor.ten_percent l ->
  SignalProcessor.ten_percent
    (fst (SignalProcessor.mapGen (SignalProcessor.fluctuate random) l k)).
Proof.
  intros [L _]. destruct (mapGen_fluctuate l k) as [L' F].
  split; [now rewrite L'|exact F].
Qed.

Lemma updateFrequencyBands_ok b k :
  SignalProcessor.bands_ok b ->
  SignalProcessor.bands_ok
    (fst (SignalProcessor.updateFrequencyBands random b k)).
Proof.
  intros (D & T & A & B & G). unfold SignalProcessor.updateFrequencyBands.
  pose proof (mapGen_fluctuate_ten (SignalProcessor.delta b) k D) as D'.
  destruct (SignalProcessor.mapGen _ (SignalProcessor.delta b) k) as [d k1].
  pose proof (mapGen_fluctuate_ten (SignalProcessor.theta b) k1 T) as T'.
  destruct (SignalProcessor.mapGen _ (SignalProcessor.theta b) k1) as [t k2].
  pose proof (mapGen_fluctuate_ten (SignalProcessor.alpha b) k2 A) as A'.
  destruct (SignalProcessor.mapGen _ (SignalProcessor.alpha b) k2) as [a k3].
  pose proof (mapGen_fluctuate_ten (SignalProcessor.beta b) k3 B) as B'.
  destruct (SignalProcessor.mapGen _ (SignalProcessor.beta b) k3) as [be k4].
  pose proof (mapGen_fluctuate_ten (SignalProcessor.gamma b) k4 G) as G'.
  destruct (SignalProcessor.mapGen _ (SignalProcessor.gamma b) k4) as [g k5].
  cbn [fst] in *. exact (conj D' (conj T' (conj A' (conj B' G')))).
Qed.

Lemma generateRandomBandPowers_ok k :
  SignalProcessor.ten_percent
    (fst (SignalProcessor.generateRandomBandPowers random k)).
Proof.
  unfold SignalProcessor.generateRandomBandPowers.
  cbn [Processor.fillMap fst]. split; [reflexivity|].
  repeat (apply Forall_cons;
          [match goal with
           | |- SignalProcessor.percent (20 + random ?n * 60) =>
               destruct (random_range n); split; lra
           end|]).
  apply Forall_nil.
Qed.

Lemma generateBands_ok k :
  SignalProcessor.bands_ok (fst (SignalProcessor.generateBands random k)).
Proof.
  unfold SignalProcessor.generateBands.
  pose proof (generateRandomBandPowers_ok k) as D.
  destruct (SignalProcessor.generateRandomBandPowers random k) as [d k1].
  pose proof (generateRandomBandPowers_ok k1) as T.
  destruct (SignalProcessor.generateRandomBandPowers random k1) as [t k2].
  pose proof (generateRandomBandPowers_ok k2) as A.
  destruct (SignalProcessor.generateRandomBandPowers random k2) as [a k3].
  pose proof (generateRandomBandPowers_ok k3) as B.
  destruct (SignalProcessor.generateRandomBandPowers random k3) as [b k4].
  pose proof (generateRandomBandPowers_ok k4) as G.
  destruct (SignalProcessor.generateRandomBandPowers random k4) as [g k5].
  cbn [fst] in *. exact (conj D (conj T (conj A (conj B G)))).
Qed.

End Tick.

Lemma sum_percent l :
  Forall SignalProcessor.percent l ->
  0 <= JS.sum l /\ JS.sum l <= 100 * inject_Z (Z.of_nat (length l)).
Proof.
  induction 1 as [|v l [V0 V1] _ [I0 I1]].
  - unfold JS.sum. cbn [fold_left length].
    change (inject_Z (Z.of_nat 0)) with 0. split; lra.
  - rewrite sum_cons. cbn [length]. rewrite Nat2Z.inj_succ, <- Z.add_1_r.
    rewrite inject_Z_plus. change (inject_Z 1) with 1. split; lra.
Qed.

Lemma average_percent l :
  SignalProcessor.ten_percent l ->
  exists a, SignalProcessor.average l = Some a /\ SignalProcessor.percent a.
Proof.
  intros [L F]. destruct (sum_percent l F) as [S0 S1].
  unfold SignalProcessor.average. rewrite L in *.
  change (inject_Z (Z.of_nat 10)) with 10 in *.
  rewrite div_by_nonzero by discriminate.
  eexists. split; [reflexivity|]. unfold SignalProcessor.percent.
  split.
  - apply Qle_shift_div_l; lra.
  - apply Qle_shift_div_r; lra.
Qed.

(** A movement update with a confidence between 0 and 1 keeps the table
    on its axes and within the unit, and so is what it stores. *)
Lemma updateMovementParameters_ok fl hypot cls q m :
  Float.rounding fl ->
  SignalProcessor.table_ok m -> 0 <= q -> q <= 1 ->
  let r := SignalProcessor.updateMovementParameters fl hypot cls q m in
  SignalProcessor.table_ok (fst r) /\
  SignalProcessor.vector_ok
    (SignalProcessor.mkMovement (SignalProcessor.p_x (snd r))
                                (SignalProcessor.p_y (snd r))).
Proof.
  intros R Hm Q0 Q1.
  destruct (rounding_small_integers fl R) as (Z0 & Z1 & Zm).
  pose proof R as (Mono & _).
  assert (S : forall v,
            SignalProcessor.within_unit v ->
            SignalProcessor.within_unit (fl (v * q)) /\
            (v == 0 -> fl (v * q) == 0)).
  { intros v [V0 V1]. split.
    - assert (L : fl (-1) <= fl (v * q)) by (apply Mono; nra).
      assert (U : fl (v * q) <= fl 1) by (apply Mono; nra).
      split; lra.
    - intro E. rewrite <- Z0. apply (rounding_respects fl _ _ R).
      rewrite E. ring. }
  assert (V : forall mv,
            SignalProcessor.vector_ok mv ->
            SignalProcessor.vector_ok
              (SignalProcessor.mkMovement (fl (SignalProcessor.x mv * q))
                                          (fl (SignalProcessor.y mv * q)))).
  { intros mv (A & X & Y). destruct (S _ X) as [X' X0].
    destruct (S _ Y) as [Y' Y0].
    split; [|split; assumption]. unfold SignalProcessor.axis in *.
    cbn [SignalProcessor.x SignalProcessor.y]. tauto. }
  assert (O : SignalProcessor.vector_ok (SignalProcessor.mkMovement 0 0)).
  { split; [left; reflexivity|]. split; split; discriminate. }
  cbv zeta. unfold SignalProcessor.updateMovementParameters.
  destruct cls as [c|];
    [|cbn [fst snd SignalProcessor.p_x SignalProcessor.p_y];
      split; [exact Hm|exact (V _ O)]].
  destruct (SignalProcessor.lookup c m) as [mv|] eqn:L;
    cbn [fst snd SignalProcessor.p_x SignalProcessor.p_y];
    [|split; [exact Hm|exact (V _ O)]].
  destruct (lookup_In c m mv L) as (k & Hin).
  unfold SignalProcessor.table_ok in Hm.
  pose proof (proj1 (Forall_forall _ _) Hm _ Hin) as Hv. cbn [snd] in Hv.
  split; [|exact (V _ Hv)].
  apply (store_Forall SignalProcessor.vector_ok); [exact Hm|exact (V _ Hv)].
Qed.

Ltac sp_simpl :=
  cbn [fst snd SignalProcessor.set_active SignalProcessor.set_classification
       SignalProcessor.set_frequencyBands SignalProcessor.set_history
       SignalProcessor.set_attentionWeights SignalProcessor.set_enabled
       SignalProcessor.set_decoder
       SignalProcessor.processorActive SignalProcessor.timers
       SignalProcessor.classificationResult SignalProcessor.confidence
       SignalProcessor.frequencyBands SignalProcessor.decodedOutputHistory
       SignalProcessor.attentionWeights SignalProcessor.decoderFeatures
       SignalProcessor.movementParameters SignalProcessor.enabled
       SignalProcessor.featureExtractionMethod SignalProcessor.movementMap
       SignalProcessor.after SignalProcessor.published SignalProcessor.thrown]
    in *.

Section TickStages.

Variable random : nat -> Q.
Hypothesis random_range : forall n, 0 <= random n /\ random n < 1.

(** The two ways [simulateClassification] can go. *)
Lemma simulateClassification_shape cls conf k :
  let r := SignalProcessor.simulateClassification random cls conf k in
  let cls' := fst (fst (fst r)) in
  let conf' := snd (fst (fst r)) in
  (1#2 <= conf' /\ conf' <= 1) /\
  ((snd (fst r) = [] /\ cls' = cls) \/
   (snd (fst r) = [SignalProcessor.ClassificationUpdated cls' conf'] /\
    (exists label, In label SignalProcessor.classLabels /\ cls' = Some label)
    /\ conf' < 1)).
Proof.
  cbv zeta. unfold SignalProcessor.simulateClassification.
  pose proof (random_range (S k)) as [A0 A1].
  pose proof (random_range (S (S k))) as [B0 B1].
  destruct (JS.lt (random k) (1#10)); cbn [fst snd].
  - split; [split; lra|]. right. split; [reflexivity|]. split; [|lra].
    destruct (labelAt_in_range (random (S k)) A0 A1) as (label & -> & Hin).
    exists label. auto.
  - split; [|left; auto].
    set (moved := conf + (random (S k) - (1#2)) * (1#10)).
    destruct (Q.max_spec (1#2) moved) as [[M1 M2]|[M1 M2]];
      destruct (Q.min_spec 1 (Qmax (1#2) moved)) as [[N1 N2]|[N1 N2]];
      split; lra.
Qed.

End TickStages.



(** What [sendFeaturesToDecoder] leaves alone, and that it publishes
    exactly one feature bundle, that of the current state, when the
    bridge is enabled. *)
Lemma sendFeaturesToDecoder_shape fl hypot st :
  let r := SignalProcessor.sendFeaturesToDecoder fl hypot st in
  SignalProcessor.frequencyBands (fst r) = SignalProcessor.frequencyBands st /\
  SignalProcessor.confidence (fst r) = SignalProcessor.confidence st /\
  SignalProcessor.classificationResult (fst r)
  = SignalProcessor.classificationResult st /\
  SignalProcessor.processorActive (fst r) = SignalProcessor.processorActive st /\
  SignalProcessor.timers (fst r) = SignalProcessor.timers st /\
  SignalProcessor.enabled (fst r) = SignalProcessor.enabled st /\
  (SignalProcessor.enabled st = false -> r = (st, [])) /\
  (SignalProcessor.enabled st = true ->
   snd r = [SignalProcessor.FeaturesExtracted
              (SignalProcessor.extractFeatures st)
              (SignalProcessor.movementParameters (fst r))] /\
   SignalProcessor.decoderFeatures (fst r)
   = Some (SignalProcessor.extractFeatures st) /\
   (SignalProcessor.movementMap (fst r),
    SignalProcessor.movementParameters (fst r))
   = SignalProcessor.updateMovementParameters
       fl hypot (SignalProcessor.classificationResult st)
       (SignalProcessor.confidence st) (SignalProcessor.movementMap st)).
Proof.
  cbv zeta.
  unfold SignalProcessor.sendFeaturesToDecoder,
         SignalProcessor.extractFeaturesForDecoder.
  destruct (SignalProcessor.enabled st) eqn:En; cbn [negb].
  - destruct (SignalProcessor.updateMovementParameters _ _ _ _ _) as [m p].
    sp_simpl. do 5 (split; [reflexivity|]). split; [exact En|].
    split; [discriminate|]. intros _. repeat split.
  - cbn [fst snd]. do 5 (split; [reflexivity|]). split; [exact En|].
    split; [reflexivity|discriminate].
Qed.

(** On bands of ten powers between 0 and 100, a table within the unit
    and a confidence between one half and 1, what [sendFeaturesToDecoder]
    publishes is well formed and the table stays within the unit. *)
Lemma sendFeaturesToDecoder_ok fl hypot st :
  Float.rounding fl ->
  SignalProcessor.bands_ok (SignalProcessor.frequencyBands st) ->
  SignalProcessor.table_ok (SignalProcessor.movementMap st) ->
  1#2 <= SignalProcessor.confidence st ->
  SignalProcessor.confidence st <= 1 ->
  let r := SignalProcessor.sendFeaturesToDecoder fl hypot st in
  Forall SignalProcessor.event_ok (snd r) /\
  SignalProcessor.table_ok (SignalProcessor.movementMap (fst r)).
Proof.
  intros R Hb Hm C0 C1. cbv zeta.
  destruct (sendFeaturesToDecoder_shape fl hypot st)
    as (_ & _ & _ & _ & _ & _ & Off & On).
  destruct (SignalProcessor.enabled st) eqn:En.
  - destruct (On eq_refl) as (E1 & _ & E3). clear On Off.
    pose proof (updateMovementParameters_ok
                  fl hypot (SignalProcessor.classificationResult st)
                  (SignalProcessor.confidence st)
                  (SignalProcessor.movementMap st) R Hm ltac:(lra) C1) as U.
    cbv zeta in U. rewrite <- E3 in U. cbn [fst snd] in U.
    destruct U as [Um Uv]. split; [|exact Um].
    rewrite E1. constructor; [|constructor].
    cbn [SignalProcessor.event_ok].
    destruct Hb as (_ & _ & A & B & _).
    destruct (average_percent _ A) as (a & Ea & Pa).
    destruct (average_percent _ B) as (b & Eb & Pb).
    unfold SignalProcessor.extractFeatures.
    destruct (String.eqb _ "transformer");
      cbn [SignalProcessor.features_confidence SignalProcessor.features_alpha
           SignalProcessor.features_beta];
      (split; [split; assumption|]);
      (split; [exists a; auto|]); (split; [exists b; auto|exact Uv]).
  - rewrite (Off eq_refl). cbn [fst snd]. split; [apply Forall_nil|exact Hm].
Qed.

(** What the first three steps of a tick change: the bands, the class and
    confidence, and the history. *)
Lemma simulateSignals_spec random st k :
  let s := SignalProcessor.simulateSignals random st k in
  let st1 := fst (fst s) in
  let b := SignalProcessor.updateFrequencyBands
             random (SignalProcessor.frequencyBands st) k in
  let c := SignalProcessor.simulateClassification
             random (SignalProcessor.classificationResult st)
             (SignalProcessor.confidence st) (snd b) in
  SignalProcessor.frequencyBands st1 = fst b /\
  SignalProcessor.classificationResult st1 = fst (fst (fst c)) /\
  SignalProcessor.confidence st1 = snd (fst (fst c)) /\
  snd (fst s) = snd (fst c) /\
  SignalProcessor.movementMap st1 = SignalProcessor.movementMap st /\
  SignalProcessor.processorActive st1 = SignalProcessor.processorActive st /\
  SignalProcessor.timers st1 = SignalProcessor.timers st /\
  SignalProcessor.enabled st1 = SignalProcessor.enabled st /\
  SignalProcessor.decoderFeatures st1 = SignalProcessor.decoderFeatures st /\
  SignalProcessor.attentionWeights st1 = SignalProcessor.attentionWeights st.
Proof.
  cbv zeta. unfold SignalProcessor.simulateSignals.
  destruct (SignalProcessor.updateFrequencyBands random
              (SignalProcessor.frequencyBands st) k) as [bands k1].
  sp_simpl.
  destruct (SignalProcessor.simulateClassification random
              (SignalProcessor.classificationResult st)
              (SignalProcessor.confidence st) k1) as [[[cls conf] pub] k2].
  sp_simpl.
  destruct (SignalProcessor.updateDecodedOutputHistory random cls
              (SignalProcessor.decodedOutputHistory st) k2) as [h k3].
  sp_simpl. repeat split.
Qed.

Lemma headAt_redrawn random numHeads currentLayer k n :
  numHeads = Some n ->
  (exists head,
     SignalProcessor.headAt
       (fst (Processor.generateRandomAttentionMatrix random n k))
       currentLayer = Some head) <->
  SignalProcessor.headShown numHeads currentLayer = true.
Proof.
  intros ->. unfold SignalProcessor.headAt, SignalProcessor.headShown.
  destruct (generateRandomAttentionMatrix_rows random n k) as [Hlen _].
  set (w := fst (Processor.generateRandomAttentionMatrix random n k)) in *.
  destruct currentLayer as [l|].
  - rewrite Nat.ltb_lt. split.
    + intros (head & H). rewrite <- Hlen. apply nth_error_Some. congruence.
    + intro H. rewrite <- Hlen in H. apply nth_error_Some in H.
      destruct (nth_error w l) as [head|]; [now exists head|contradiction].
  - split; [intros (head & H); discriminate|discriminate].
Qed.

(** The ways [simulateSignalProcessing] can end: it sends the features,
    with or without a redraw of the weights, or it throws after an
    attempted redraw. *)
Lemma simulateSignalProcessing_cases random fl hypot numHeads currentLayer
      st k :
  let s := SignalProcessor.simulateSignals random st k in
  let st1 := fst (fst s) in
  let r := fst (SignalProcessor.simulateSignalProcessing
                  random fl hypot numHeads currentLayer st k) in
  let redraw := JS.lt (random (snd s)) (3#10) in
  SignalProcessor.thrown r
  = redraw && negb (SignalProcessor.headShown numHeads currentLayer) /\
  (SignalProcessor.thrown r = true ->
   SignalProcessor.published r = snd (fst s) /\
   (SignalProcessor.after r = st1 \/
    exists w, SignalProcessor.after r
              = SignalProcessor.set_attentionWeights w st1)) /\
  (SignalProcessor.thrown r = false ->
   exists st2,
     (st2 = st1 \/
      exists w, st2 = SignalProcessor.set_attentionWeights w st1) /\
     SignalProcessor.after r
     = fst (SignalProcessor.sendFeaturesToDecoder fl hypot st2) /\
     SignalProcessor.published r
     = snd (fst s)
       ++ snd (SignalProcessor.sendFeaturesToDecoder fl hypot st2)).
Proof.
  cbv zeta. unfold SignalProcessor.simulateSignalProcessing.
  destruct (SignalProcessor.simulateSignals random st k)
    as [[st1 pub] k3].
  cbn [fst snd].
  destruct (JS.lt (random k3) (3#10)); cbn [andb].
  - destruct numHeads as [n|].
    + pose proof (headAt_redrawn random (Some n) currentLayer (S k3) n
                    eq_refl) as Hs.
      destruct (Processor.generateRandomAttentionMatrix random n (S k3))
        as [w k4].
      cbn [fst] in Hs.
      destruct (SignalProcessor.headAt w currentLayer) as [head|].
      * assert (E : SignalProcessor.headShown (Some n) currentLayer = true)
          by (apply Hs; now exists head).
        rewrite E. cbn [negb].
        destruct (SignalProcessor.sendFeaturesToDecoder fl hypot _)
          as [st3 sent] eqn:Es.
        sp_simpl. split; [reflexivity|]. split; [discriminate|].
        intros _. eexists. split; [right; exists w; reflexivity|].
        rewrite Es. split; reflexivity.
      * assert (E : SignalProcessor.headShown (Some n) currentLayer = false).
        { destruct (SignalProcessor.headShown (Some n) currentLayer);
            [|reflexivity].
          destruct (proj2 Hs eq_refl) as (head & H). discriminate. }
        rewrite E. sp_simpl. split; [reflexivity|].
        split; [|discriminate]. intros _. split; [reflexivity|].
        right. exists w. reflexivity.
    + sp_simpl. split; [reflexivity|]. split; [|discriminate].
      intros _. split; [reflexivity|]. left. reflexivity.
  - destruct (SignalProcessor.sendFeaturesToDecoder fl hypot st1)
      as [st3 sent] eqn:Es.
    sp_simpl. split; [reflexivity|]. split; [discriminate|].
    intros _. exists st1. split; [left; reflexivity|].
    rewrite Es. split; reflexivity.
Qed.

(** The state and the classification part of a tick, after its first
    three steps. *)
Lemma simulateSignals_ok random st k :
  (forall i, 0 <= random i /\ random i < 1) ->
  SignalProcessor.bands_ok (SignalProcessor.frequencyBands st) ->
  let s := SignalProcessor.simulateSignals random st k in
  let st1 := fst (fst s) in
  SignalProcessor.bands_ok (SignalProcessor.frequencyBands st1) /\
  (1#2 <= SignalProcessor.confidence st1 /\
   SignalProcessor.confidence st1 <= 1) /\
  (snd (fst s) = [] \/
   snd (fst s) = [SignalProcessor.ClassificationUpdated
                    (SignalProcessor.classificationResult st1)
                    (SignalProcessor.confidence st1)]) /\
  Forall SignalProcessor.event_ok (snd (fst s)).
Proof.
  intros Hr Hb. cbv zeta.
  destruct (simulateSignals_spec random st k)
    as (Eb & Ec & Eq & Ep & _). cbv zeta in Eb, Ec, Eq, Ep.
  pose proof (updateFrequencyBands_ok random
                (SignalProcessor.frequencyBands st) k Hb) as Hb'.
  rewrite <- Eb in Hb'.
  pose proof (simulateClassification_shape random Hr
                (SignalProcessor.classificationResult st)
                (SignalProcessor.confidence st)
                (snd (SignalProcessor.updateFrequencyBands random
                        (SignalProcessor.frequencyBands st) k)))
    as [C Sh].
  cbv zeta in C, Sh. rewrite <- Ec, <- Eq, <- Ep in *.
  split; [exact Hb'|]. split; [exact C|].
  destruct Sh as [[-> _]|[-> [L Q1]]].
  - split; [left; reflexivity|apply Forall_nil].
  - split; [right; reflexivity|].
    constructor; [|constructor]. cbn [SignalProcessor.event_ok].
    split; [exact L|]. split; [apply C|lra].
Qed.



(** ** Signal processor and engine: one tick end to end *)

(** What an active processor with the bridge enabled publishes in one
    firing: at most one classification, then a feature bundle unless the
    firing ended by an exception. *)
Lemma processorTick_events random fl hypot numHeads currentLayer st k :
  (forall i, 0 <= random i /\ random i < 1) ->
  SignalProcessor.processorActive st = true ->
  SignalProcessor.enabled st = true ->
  let r := fst (SignalProcessor.processorTick
                  random fl hypot numHeads currentLayer st k) in
  exists classified bundle,
    SignalProcessor.published r = classified ++ bundle /\
    (classified = [] \/
     exists c q,
       classified = [SignalProcessor.ClassificationUpdated c q] /\
       1#2 <= q /\ q < 1) /\
    (SignalProcessor.thrown r = true -> bundle = []) /\
    (SignalProcessor.thrown r = false ->
     exists f p, bundle = [SignalProcessor.FeaturesExtracted f p]).
Proof.
  intros Hr Ha En. cbv zeta. unfold SignalProcessor.processorTick.
  rewrite Ha. cbn [negb].
  destruct (simulateSignalProcessing_cases
              random fl hypot numHeads currentLayer st k)
    as (_ & Thrown & Sent).
  cbv zeta in Thrown, Sent.
  destruct (simulateSignals_spec random st k)
    as (_ & _ & Eq & Ep & _ & _ & _ & En1 & _).
  cbv zeta in Eq, Ep, En1.
  pose proof (simulateClassification_shape random Hr
                (SignalProcessor.classificationResult st)
                (SignalProcessor.confidence st)
                (snd (SignalProcessor.updateFrequencyBands random
                        (SignalProcessor.frequencyBands st) k)))
    as [C Sh].
  cbv zeta in C, Sh. rewrite <- Ep in Sh.
  set (r := fst (SignalProcessor.simulateSignalProcessing
                   random fl hypot numHeads currentLayer st k)) in *.
  assert (Cl : snd (fst (SignalProcessor.simulateSignals random st k)) = [] \/
               exists c q,
                 snd (fst (SignalProcessor.simulateSignals random st k))
                 = [SignalProcessor.ClassificationUpdated c q] /\
                 1#2 <= q /\ q < 1).
  { destruct Sh as [[-> _]|[-> [_ Q1]]]; [left; reflexivity|].
    right. eexists. eexists. split; [reflexivity|].
    split; [apply C|exact Q1]. }
  exists (snd (fst (SignalProcessor.simulateSignals random st k))).
  destruct (SignalProcessor.thrown r) eqn:T.
  - destruct (Thrown eq_refl) as (Epub & _).
    exists []. rewrite app_nil_r.
    split; [exact Epub|]. split; [exact Cl|].
    split; [reflexivity|discriminate].
  - destruct (Sent eq_refl) as (st2 & Hst2 & _ & Epub).
    assert (Fe : SignalProcessor.enabled st2 = true).
    { destruct Hst2 as [->|(w & ->)]; sp_simpl; now rewrite En1. }
    destruct (sendFeaturesToDecoder_shape fl hypot st2)
      as (_ & _ & _ & _ & _ & _ & _ & On).
    destruct (On Fe) as (O1 & _).
    exists (snd (SignalProcessor.sendFeaturesToDecoder fl hypot st2)).
    split; [exact Epub|]. split; [exact Cl|].
    split; [discriminate|]. intros _. rewrite O1.
    eexists. eexists. reflexivity.
Qed.

Lemma considerTriggeringAction_status now st :
  nl_active (considerTriggeringAction now st) = nl_active st /\
  neuralConnected (considerTriggeringAction now st) = neuralConnected st /\
  lastNeuralUpdate (considerTriggeringAction now st) = lastNeuralUpdate st.
Proof.
  unfold considerTriggeringAction.
  destruct (selectAction (verbs st)); [|auto].
  destruct (_ >? 2000)%Z; auto.
Qed.

Lemma engine_features_step now fb st :
  nl_active st = true ->
  step (Features now (Some (mkFeaturesDetail (Some fb)))) st
  = mkState true true now (Some fb)
            (updateActionStates None 0 (verbs st)) (fired st).
Proof.
  intro H. cbn [step]. unfold handleNeuralFeatures. rewrite H. reflexivity.
Qed.

Lemma engine_classification_step now c q st :
  nl_active st = true -> Trace.unit_range (verbs st) -> q <= 1 ->
  let st' := step (Classification now
                     (Some (mkClassification c (Some q)))) st in
  nl_active st' = true /\ Trace.unit_range (verbs st') /\
  (length (fired st') <= S (length (fired st)))%nat.
Proof.
  intros Ha Hu Hq st'.
  assert (U : Trace.unit_range (verbs st')).
  { apply step_unit_range; [exact Hu|exact Hq]. }
  split; [|split; [exact U|]]; subst st'; cbn [step].
  - destruct (handleNeuralClassification_cases
                now (Some (mkClassification c (Some q))) st)
      as [[F _]|[(_ & _ & ->)|(_ & dd & cls & _ & _ & [[_ ->]|[_ ->]])]];
      try congruence; try reflexivity.
    now rewrite (proj1 (considerTriggeringAction_status now _)).
  - destruct (handleNeuralClassification_cases
                now (Some (mkClassification c (Some q))) st)
      as [[_ ->]|[(_ & _ & ->)|(_ & dd & cls & _ & _ & [[_ ->]|[_ ->]])]];
      cbn [fired]; try lia.
    match goal with
    | |- context [considerTriggeringAction now ?u] =>
        destruct (considerTriggeringAction_fired now u)
          as [->|(a & _ & -> & _)]
    end; cbn [fired]; [lia|]. rewrite length_app. cbn [length]. lia.
Qed.

(** X21: the events of one firing of an active processor (bridge
    enabled, draws in [0, 1)), handled in order by an active engine whose
    confidences are between 0 and 1.  The engine stays active, at most
    one action is triggered, and every confidence stays between 0 and 1.
    When the firing did not end by an exception its feature bundle comes
    last: the engine marks the connection at the clock reading and every
    confidence ends at 0.9 or below, at exactly nine tenths of what it
    was when the firing published no classification.  When the firing
    ended by an exception (the attention panel could not be redrawn) and
    published no classification, the engine is as it was. *)
Theorem processor_tick_decays_engine :
  forall random fl hypot numHeads currentLayer st k seen now est a,
    (forall i, 0 <= random i /\ random i < 1) ->
    SignalProcessor.processorActive st = true ->
    SignalProcessor.enabled st = true ->
    nl_active est = true ->
    Trace.unit_range (verbs est) ->
    let r := fst (SignalProcessor.processorTick
                    random fl hypot numHeads currentLayer st k) in
    let published := SignalProcessor.published r in
    let est' := run (map (SignalProcessor.toEngine seen now) published) est in
    nl_active est' = true /\
    (length (fired est') <= S (length (fired est)))%nat /\
    (0 <= confidence (get a (verbs est')) /\
     confidence (get a (verbs est')) <= 1) /\
    (SignalProcessor.thrown r = false ->
     neuralConnected est' = true /\ lastNeuralUpdate est' = now /\
     confidence (get a (verbs est')) <= 9#10 /\
     ((forall c q,
         ~ In (SignalProcessor.ClassificationUpdated c q) published) ->
      confidence (get a (verbs est'))
      == confidence (get a (verbs est)) * (9#10))) /\
    (SignalProcessor.thrown r = true ->
     (forall c q,
         ~ In (SignalProcessor.ClassificationUpdated c q) published) ->
     est' = est).
Proof.
  intros random fl hypot numHeads currentLayer st k seen now est a
         Hr Ha En Hact Hu r published est'.
  destruct (processorTick_events
              random fl hypot numHeads currentLayer st k Hr Ha En)
    as (classified & bundle & E & Cl & Th & Sent).
  fold r in E, Th, Sent. subst est' published. rewrite E.
  destruct (SignalProcessor.thrown r) eqn:T.
  - rewrite (Th eq_refl), app_nil_r.
    destruct Cl as [->|(c & q & -> & Q0 & Q1)];
      cbn [map SignalProcessor.toEngine run fold_left].
    + split; [exact Hact|]. split; [lia|]. split; [exact (Hu a)|].
      split; [discriminate|]. intros _ _. reflexivity.
    + destruct (engine_classification_step now c q est Hact Hu)
        as (A1 & U1 & F1); [lra|].
      split; [exact A1|]. split; [exact F1|]. split; [exact (U1 a)|].
      split; [discriminate|]. intros _ Hno. exfalso.
      apply (Hno c q). now left.
  - destruct (Sent eq_refl) as (f & p & ->).
    destruct Cl as [->|(c & q & -> & Q0 & Q1)];
      cbn [app map SignalProcessor.toEngine run fold_left].
    + rewrite engine_features_step by exact Hact.
      cbn [nl_active neuralConnected lastNeuralUpdate fired verbs].
      rewrite updateActionStates_no_class. cbn [confidence].
      destruct (Hu a) as [U0 U1].
      split; [reflexivity|]. split; [lia|]. split; [split; lra|].
      split; [|discriminate]. intros _.
      split; [reflexivity|]. split; [reflexivity|]. split; [lra|].
      intros _. reflexivity.
    + destruct (engine_classification_step now c q est Hact Hu)
        as (A1 & U1 & F1); [lra|].
      rewrite engine_features_step by exact A1.
      cbn [nl_active neuralConnected lastNeuralUpdate fired verbs].
      rewrite updateActionStates_no_class. cbn [confidence].
      destruct (U1 a) as [V0 V1].
      split; [reflexivity|]. split; [exact F1|]. split; [split; lra|].
      split; [|discriminate]. intros _.
      split; [reflexivity|]. split; [reflexivity|]. split; [lra|].
      intro Hno. exfalso. apply (Hno c q). now left.
Qed.

Lemma processor_tick_decays_engine_witness :
  let random := fun _ : nat => 1#2 in
  let fl := fun a : Q => a in
  let hypot := fun a b : Q => Qabs a + Qabs b in
  let ten := repeat 50 10 in
  let st := SignalProcessor.mkState
              true 1 (Some "Feet"%string) (8#10)
              (SignalProcessor.mkBands ten ten ten ten ten) [] [] None
              (SignalProcessor.mkParameters 0 0 (Some 0)) true "transformer"
              SignalProcessor.classToMovementMap in
  let est := step Toggle init in
  (forall i, 0 <= random i /\ random i < 1) /\
  nl_active est = true /\ Trace.unit_range (verbs est) /\
  nl_active
    (run (map (SignalProcessor.toEngine (fun _ => mkFeatures None) 5000)
              (SignalProcessor.published
                 (fst (SignalProcessor.processorTick
                         random fl hypot (Some 1%nat) (Some 0%nat)
                         st 0%nat))))
         est) = true.
Proof.
  intros random fl hypot ten st est.
  assert (Hr : forall i, 0 <= random i /\ random i < 1).
  { intro i. unfold random. split; lra. }
  assert (Hu : Trace.unit_range (verbs est)).
  { intro b. destruct b; cbn; split; discriminate. }
  split; [exact Hr|]. split; [reflexivity|]. split; [exact Hu|].
  exact (proj1 (processor_tick_decays_engine
                  random fl hypot (Some 1%nat) (Some 0%nat) st 0%nat
                  (fun _ => mkFeatures None) 5000%Z est
                  navigate Hr eq_refl eq_refl eq_refl Hu)).
Defined.

(** ** Signal processor: states of a running page *)

Lemma classToMovementMap_ok :
  SignalProcessor.table_ok SignalProcessor.classToMovementMap.
Proof.
  repeat (apply Forall_cons;
          [split; [first [left; reflexivity|right; reflexivity]
                  |split; split; discriminate]|]).
  apply Forall_nil.
Qed.

Section RunningProcessor.

Variable random : nat -> Q.
Variable fl : Q -> Q.
Variable hypot : Q -> Q -> Q.
Hypothesis random_range : forall n, 0 <= random n /\ random n < 1.
Hypothesis fl_rounding : Float.rounding fl.

Lemma load_ok : SignalProcessor.page_ok (SignalProcessor.load random).
Proof.
  unfold SignalProcessor.load, SignalProcessor.processorData.
  pose proof (generateBands_ok random random_range 0%nat) as Hb.
  destruct (SignalProcessor.generateBands random 0%nat) as [bands k1].
  destruct (Processor.generateRandomAttentionMatrix random 8%nat k1) as [w k2].
  destruct (SignalProcessor.initDecodedOutputChart random k2) as [h k3].
  split; [|apply Forall_nil]. cbn [fst snd] in *.
  split; [reflexivity|]. split; [exact Hb|].
  split; [exact classToMovementMap_ok|]. left. reflexivity.
Qed.

Lemma simulateSignalProcessing_ok numHeads currentLayer st k :
  SignalProcessor.state_ok st ->
  let r := fst (SignalProcessor.simulateSignalProcessing
                  random fl hypot numHeads currentLayer st k) in
  SignalProcessor.state_ok (SignalProcessor.after r) /\
  Forall SignalProcessor.event_ok (SignalProcessor.published r).
Proof.
  intros (Ht & Hb & Hm & _). cbv zeta.
  destruct (simulateSignalProcessing_cases
              random fl hypot numHeads currentLayer st k)
    as (_ & Thrown & Sent).
  cbv zeta in Thrown, Sent.
  destruct (simulateSignals_ok random st k random_range Hb)
    as (Hb1 & C1 & _ & Ok1).
  cbv zeta in Hb1, C1, Ok1.
  destruct (simulateSignals_spec random st k)
    as (_ & _ & _ & _ & Em & Ea & Et & _).
  cbv zeta in Em, Ea, Et.
  set (r := fst (SignalProcessor.simulateSignalProcessing
                   random fl hypot numHeads currentLayer st k)) in *.
  set (st1 := fst (fst (SignalProcessor.simulateSignals random st k))) in *.
  assert (Ok : forall st2,
             st2 = st1 \/
             (exists w, st2 = SignalProcessor.set_attentionWeights w st1) ->
             SignalProcessor.frequencyBands st2
             = SignalProcessor.frequencyBands st1 /\
             SignalProcessor.confidence st2 = SignalProcessor.confidence st1 /\
             SignalProcessor.movementMap st2 = SignalProcessor.movementMap st /\
             SignalProcessor.processorActive st2
             = SignalProcessor.processorActive st /\
             SignalProcessor.timers st2 = SignalProcessor.timers st).
  { intros st2 [->|(w & ->)]; sp_simpl; auto. }
  destruct (SignalProcessor.thrown r) eqn:T.
  - destruct (Thrown eq_refl) as (Ep & Hafter).
    destruct (Ok _ Hafter) as (Fb & Fq & Fm & Fa & Ft).
    rewrite Ep. split; [|exact Ok1].
    split; [unfold SignalProcessor.one_timer in *; now rewrite Fa, Ft|].
    split; [rewrite Fb; exact Hb1|]. split; [rewrite Fm; exact Hm|].
    right. rewrite Fq. exact C1.
  - destruct (Sent eq_refl) as (st2 & Hst2 & Eafter & Ep).
    destruct (Ok _ Hst2) as (Fb & Fq & Fm & Fa & Ft).
    destruct (sendFeaturesToDecoder_shape fl hypot st2)
      as (Sb & Sq & _ & Sa & St & _).
    cbv zeta in Sb, Sq, Sa, St.
    destruct (sendFeaturesToDecoder_ok fl hypot st2 fl_rounding)
      as (O1 & O2);
      [rewrite Fb; exact Hb1|rewrite Fm; exact Hm
      |rewrite Fq; apply C1|rewrite Fq; apply C1|].
    cbv zeta in O1, O2.
    rewrite Eafter, Ep.
    split; [|apply Forall_app; split; assumption].
    split; [unfold SignalProcessor.one_timer in *;
            now rewrite Sa, St, Fa, Ft|].
    split; [rewrite Sb, Fb; exact Hb1|]. split; [exact O2|].
    right. rewrite Sq, Fq. exact C1.
Qed.

Lemma step_ok a p :
  SignalProcessor.page_ok p ->
  SignalProcessor.page_ok (SignalProcessor.step random fl hypot a p).
Proof.
  destruct p as [[st k] log]. intros [Hst Hlog]. cbn [fst snd] in Hst, Hlog.
  pose proof Hst as (Ht & Hb & Hm & Hc).
  unfold SignalProcessor.one_timer in Ht.
  destruct a as [| | |checked|numHeads currentLayer];
    cbn [SignalProcessor.step].
  - split; [|exact Hlog]. cbn [fst snd].
    unfold SignalProcessor.startProcessor.
    destruct (SignalProcessor.processorActive st) eqn:Ea; cbn [negb];
      [exact Hst|].
    split; [|split; [exact Hb|split; [exact Hm|exact Hc]]].
    unfold SignalProcessor.one_timer. sp_simpl. now rewrite Ht.
  - split; [|exact Hlog]. cbn [fst snd].
    unfold SignalProcessor.stopProcessor.
    destruct (SignalProcessor.processorActive st) eqn:Ea; [|exact Hst].
    split; [|split; [exact Hb|split; [exact Hm|exact Hc]]].
    unfold SignalProcessor.one_timer. sp_simpl. now rewrite Ht.
  - unfold SignalProcessor.resetProcessor.
    pose proof (generateBands_ok random random_range k) as Hb'.
    destruct (SignalProcessor.generateBands random k) as [bands k'].
    split; [|exact Hlog]. cbn [fst snd] in *.
    split.
    + unfold SignalProcessor.one_timer, SignalProcessor.stopProcessor.
      destruct (SignalProcessor.processorActive st) eqn:Ea; sp_simpl;
        rewrite ?Ea; sp_simpl; rewrite ?Ea, Ht; reflexivity.
    + split; [exact Hb'|]. split.
      * unfold SignalProcessor.stopProcessor.
        destruct (SignalProcessor.processorActive st) eqn:Ea; sp_simpl;
          rewrite ?Ea; sp_simpl; exact Hm.
      * left. sp_simpl. reflexivity.
  - split; [|exact Hlog]. cbn [fst snd].
    split; [exact Ht|]. split; [exact Hb|]. split; [exact Hm|exact Hc].
  - destruct (0 <? SignalProcessor.timers st)%nat eqn:E0;
      [|split; assumption].
    unfold SignalProcessor.processorTick.
    destruct (SignalProcessor.processorActive st) eqn:Ea;
      [|rewrite Ht in E0; discriminate].
    cbn [negb].
    assert (Hst' : SignalProcessor.state_ok st).
    { split; [unfold SignalProcessor.one_timer; now rewrite Ea|].
      split; [exact Hb|]. split; [exact Hm|exact Hc]. }
    pose proof (simulateSignalProcessing_ok numHeads currentLayer st k Hst')
      as [S1 S2].
    destruct (SignalProcessor.simulateSignalProcessing
                random fl hypot numHeads currentLayer st k) as [r k'].
    cbn [fst snd] in *. split; [exact S1|].
    apply Forall_app. split; assumption.
Qed.

Lemma run_ok acts :
  SignalProcessor.page_ok
    (SignalProcessor.run random fl hypot acts (SignalProcessor.load random)).
Proof.
  induction acts as [|a acts IH] using rev_ind; [exact load_ok|].
  unfold SignalProcessor.run in *. rewrite fold_left_app. cbn [fold_left].
  now apply step_ok.
Qed.

End RunningProcessor.

(** X22: whatever the user does with the start, stop and reset buttons
    and the bridge checkbox, and however often the interval fires and
    with whatever the attention panel holds at each firing, also when a
    firing ends by an exception, with draws in [0, 1) and the products of
    the movement scaling rounded: exactly one interval is live while the
    processor is active and none otherwise; every band holds ten powers
    between 0 and 100; every vector of the movement table stays on its
    axis with coordinates between -1 and 1; the confidence is 0 or
    between one half and 1; and every event published so far is well
    formed (a classification names one of the five labels with a
    confidence between one half and 1, a bundle carries alpha and beta
    powers between 0 and 100 and a movement along an axis with
    coordinates between -1 and 1). *)
Theorem running_processor_stays_well_formed :
  forall random fl hypot acts,
    (forall n, 0 <= random n /\ random n < 1) ->
    Float.rounding fl ->
    let page := SignalProcessor.run random fl hypot acts
                                    (SignalProcessor.load random) in
    let st := fst (fst page) in
    SignalProcessor.timers st
    = (if SignalProcessor.processorActive st then 1%nat else 0%nat) /\
    SignalProcessor.bands_ok (SignalProcessor.frequencyBands st) /\
    SignalProcessor.table_ok (SignalProcessor.movementMap st) /\
    (SignalProcessor.confidence st == 0 \/
     (1#2 <= SignalProcessor.confidence st /\
      SignalProcessor.confidence st <= 1)) /\
    Forall SignalProcessor.event_ok (snd page).
Proof.
  intros random fl hypot acts Hr R page st.
  destruct (run_ok random fl hypot Hr R acts) as [(Ht & Hb & Hm & Hc) Hlog].
  fold page in Ht, Hb, Hm, Hc, Hlog. fold st in Ht, Hb, Hm, Hc.
  auto.
Qed.

Lemma running_processor_stays_well_formed_witness :
  let random := fun _ : nat => 1#2 in
  let fl := fun a : Q => a in
  let hypot := fun a b : Q => Qabs a + Qabs b in
  let acts := [SignalProcessor.Start;
               SignalProcessor.Tick (Some 1%nat) (Some 0%nat);
               SignalProcessor.Tick (Some 1%nat) (Some 3%nat);
               SignalProcessor.Start; SignalProcessor.Reset] in
  (forall n, 0 <= random n /\ random n < 1) /\
  Float.rounding fl /\
  Forall SignalProcessor.event_ok
         (snd (SignalProcessor.run random fl hypot acts
                                   (SignalProcessor.load random))).
Proof.
  intros random fl hypot acts.
  assert (Hr : forall n, 0 <= random n /\ random n < 1).
  { intro i. unfold random. split; lra. }
  split; [exact Hr|]. split; [exact exact_arithmetic_is_rounding|].
  exact (proj2 (proj2 (proj2 (proj2
           (running_processor_stays_well_formed
              random fl hypot acts Hr exact_arithmetic_is_rounding))))).
Defined.

(** ** Processor events at the decoder *)

(** X24: what the decoder visualization shows for a feature bundle
    published by a running processor (draws in [0, 1), the products of
    the movement scaling rounded, firings that end by an exception
    included), when it is set to use processor input.  The confidence of
    such a bundle is at least one half, so the metrics are always
    refreshed, and they lie in the upper half of their ranges: accuracy
    between 90 and 95 percent, mean squared error between 0.01 and 0.03,
    r2 between 0.8 and 0.9, correlation between 0.875 and 0.95 and bit
    rate between 105 and 180.  Without processor input nothing is
    shown. *)
Theorem decoder_shows_upper_half_metrics :
  forall random fl hypot acts f p,
    (forall n, 0 <= random n /\ random n < 1) ->
    Float.rounding fl ->
    In (SignalProcessor.FeaturesExtracted f p)
       (snd (SignalProcessor.run random fl hypot acts
                                 (SignalProcessor.load random))) ->
    Bridge.handleProcessorFeatures
      false (SignalProcessor.FeaturesExtracted f p) = None /\
    exists s,
      Bridge.handleProcessorFeatures
        true (SignalProcessor.FeaturesExtracted f p) = Some s /\
      (90 <= DecoderAPI.s_accuracy s /\ DecoderAPI.s_accuracy s <= 95) /\
      (1#100 <= DecoderAPI.s_mse s /\ DecoderAPI.s_mse s <= 3#100) /\
      (8#10 <= DecoderAPI.s_r2 s /\ DecoderAPI.s_r2 s <= 9#10) /\
      (875#1000 <= DecoderAPI.s_correlation s /\
       DecoderAPI.s_correlation s <= 95#100) /\
      (105 <= DecoderAPI.s_bitRate s /\ DecoderAPI.s_bitRate s <= 180).
Proof.
  intros random fl hypot acts f p Hr R Hin. split; [reflexivity|].
  destruct (run_ok random fl hypot Hr R acts) as [_ Hlog].
  pose proof (proj1 (Forall_forall _ _) Hlog _ Hin) as [[C0 C1] _].
  cbn [Bridge.handleProcessorFeatures].
  unfold DecoderAPI.updateDecoderWithProcessorData.
  destruct (Qeq_bool (SignalProcessor.features_confidence f) 0) eqn:E.
  { apply Qeq_bool_iff in E. lra. }
  eexists. split; [reflexivity|].
  unfold DecoderAPI.updateDecoderMetricsWithConfidence.
  cbn [DecoderAPI.s_accuracy DecoderAPI.s_mse DecoderAPI.s_r2
       DecoderAPI.s_correlation DecoderAPI.s_bitRate].
  set (c := SignalProcessor.features_confidence f) in *.
  assert (Hsq : 1#4 <= c * c /\ c * c <= 1) by nra.
  repeat split; lra.
Qed.

Lemma decoder_shows_upper_half_metrics_witness :
  let random := fun _ : nat => 1#2 in
  let fl := fun a : Q => a in
  let hypot := fun a b : Q => Qabs a + Qabs b in
  let acts := [SignalProcessor.Start;
               SignalProcessor.Tick (Some 8%nat) (Some 0%nat)] in
  (forall n, 0 <= random n /\ random n < 1) /\
  Float.rounding fl /\
  exists f p,
    In (SignalProcessor.FeaturesExtracted f p)
       (snd (SignalProcessor.run random fl hypot acts
                                 (SignalProcessor.load random))) /\
    Bridge.handleProcessorFeatures
      false (SignalProcessor.FeaturesExtracted f p) = None.
Proof.
  intros random fl hypot acts.
  assert (Hr : forall n, 0 <= random n /\ random n < 1).
  { intro i. unfold random. split; lra. }
  split; [exact Hr|]. split; [exact exact_arithmetic_is_rounding|].
  assert (E : exists f p,
             snd (SignalProcessor.run random fl hypot acts
                    (SignalProcessor.load random))
             = [SignalProcessor.FeaturesExtracted f p]).
  { eexists. eexists. vm_compute. reflexivity. }
  destruct E as (f & p & E). exists f, p.
  assert (Hin : In (SignalProcessor.FeaturesExtracted f p)
                   (snd (SignalProcessor.run random fl hypot acts
                           (SignalProcessor.load random)))).
  { rewrite E. now left. }
  split; [exact Hin|].
  exact (proj1 (decoder_shows_upper_half_metrics
                  random fl hypot acts f p Hr
                  exact_arithmetic_is_rounding Hin)).
Defined.

(** ** Resource panel *)

(** A reading [Math.floor(r * a + b)] lies between [b] and [a + b], the
    upper end included: the rounded sum can reach it. *)
Lemma reading_range fl (a b : Z) r :
  Float.rounding fl ->
  (0 <= a <= 2 ^ 53)%Z -> (0 <= b)%Z -> (a + b <= 2 ^ 53)%Z ->
  0 <= r -> r <= 1 ->
  (b <= Resources.reading fl a b r <= a + b)%Z.
Proof.
  intros (Mono & Exact & _) Ha Hb Hab R0 R1.
  assert (A0 : 0 <= inject_Z a).
  { change 0 with (inject_Z 0). rewrite <- Zle_Qle. lia. }
  assert (E0 : fl (inject_Z 0) == inject_Z 0) by (apply Exact; cbn; lia).
  assert (Ea : fl (inject_Z a) == inject_Z a) by (apply Exact; lia).
  assert (Eb : fl (inject_Z b) == inject_Z b) by (apply Exact; lia).
  assert (Eab : fl (inject_Z (a + b)) == inject_Z (a + b))
    by (apply Exact; lia).
  assert (P0 : fl (inject_Z 0) <= fl (r * inject_Z a)).
  { apply Mono. change (inject_Z 0) with 0. nra. }
  assert (P1 : fl (r * inject_Z a) <= fl (inject_Z a)).
  { apply Mono. nra. }
  change (inject_Z 0) with 0 in E0, P0.
  assert (S0 : fl (inject_Z b) <= fl (fl (r * inject_Z a) + inject_Z b)).
  { apply Mono. lra. }
  assert (S1 : fl (fl (r * inject_Z a) + inject_Z b)
               <= fl (inject_Z (a + b))).
  { apply Mono. rewrite inject_Z_plus. lra. }
  unfold Resources.reading. split.
  - rewrite <- (Qfloor_Z b) at 1. apply Qfloor_resp_le. lra.
  - rewrite <- (Qfloor_Z (a + b)). apply Qfloor_resp_le. lra.
Qed.

(** A reading is at least [c + b] once [r * a] is at least the integer
    [c], and at most [c + b] while [r * a] is at most [c]. *)
Lemma reading_threshold fl (a b c : Z) r :
  Float.rounding fl ->
  (0 <= c <= 2 ^ 53)%Z -> (0 <= b)%Z -> (c + b <= 2 ^ 53)%Z ->
  (inject_Z c <= r * inject_Z a ->
   (c + b <= Resources.reading fl a b r)%Z) /\
  (r * inject_Z a <= inject_Z c ->
   (Resources.reading fl a b r <= c + b)%Z).
Proof.
  intros (Mono & Exact & _) Hc Hb Hcb. unfold Resources.reading.
  assert (Ec : fl (inject_Z c) == inject_Z c) by (apply Exact; lia).
  assert (Ecb : fl (inject_Z (c + b)) == inject_Z (c + b))
    by (apply Exact; lia).
  split.
  - intro H.
    assert (P : fl (inject_Z c) <= fl (r * inject_Z a)) by now apply Mono.
    assert (S : fl (inject_Z (c + b))
                <= fl (fl (r * inject_Z a) + inject_Z b)).
    { apply Mono. rewrite inject_Z_plus. lra. }
    rewrite <- (Qfloor_Z (c + b)). apply Qfloor_resp_le. lra.
  - intro H.
    assert (P : fl (r * inject_Z a) <= fl (inject_Z c)) by now apply Mono.
    assert (S : fl (fl (r * inject_Z a) + inject_Z b)
                <= fl (inject_Z (c + b))).
    { apply Mono. rewrite inject_Z_plus. lra. }
    rewrite <- (Qfloor_Z (c + b)). apply Qfloor_resp_le. lra.
Qed.

(** X25: the readings [updateResourceMetrics] derives from draws in
    [0, 1), with the product and the sum rounded.  The processor load is
    between 30 and 60 percent, the GPU utilisation between 75 and 95
    percent and a GPU temperature between 60 and 70 degrees, the upper
    ends included; a temperature is therefore never shown in the error
    colour.  It is shown in the warning colour whenever its draw is at
    least 0.6, and in the info colour whenever its draw is at most
    0.5. *)
Theorem gpu_temperature_is_never_an_error :
  forall fl r,
    Float.rounding fl ->
    0 <= r -> r < 1 ->
    (30 <= Resources.cpuUsage fl r <= 60)%Z /\
    (75 <= Resources.gpuUtil fl r <= 95)%Z /\
    (60 <= Resources.gpuTemp fl r <= 70)%Z /\
    Resources.tempColour (Resources.gpuTemp fl r) <> Resources.error /\
    (6#10 <= r ->
     Resources.tempColour (Resources.gpuTemp fl r) = Resources.warning) /\
    (r <= 1#2 ->
     Resources.tempColour (Resources.gpuTemp fl r) = Resources.info).
Proof.
  intros fl r R R0 R1.
  assert (R1' : r <= 1) by lra.
  assert (B1 := reading_range fl 30 30 r R).
  assert (B2 := reading_range fl 20 75 r R).
  assert (B3 := reading_range fl 10 60 r R).
  assert (T1 := reading_threshold fl 10 60 6 r R).
  assert (T2 := reading_threshold fl 10 60 5 r R).
  unfold Resources.cpuUsage, Resources.gpuUtil, Resources.gpuTemp.
  split; [apply B1; first [lia|assumption]|].
  split; [apply B2; first [lia|assumption]|].
  assert (B : (60 <= Resources.reading fl 10 60 r <= 70)%Z)
    by (apply B3; first [lia|assumption]).
  split; [exact B|].
  unfold Resources.tempColour.
  destruct (Resources.reading fl 10 60 r >? 75)%Z eqn:E1;
    [apply Z.gtb_lt in E1; lia|].
  split; [destruct (_ >? 65)%Z; discriminate|]. split.
  - intro H.
    assert (L : (6 + 60 <= Resources.reading fl 10 60 r)%Z).
    { apply T1; try lia. change (inject_Z 6) with 6.
      change (inject_Z 10) with 10. lra. }
    assert (G : (Resources.reading fl 10 60 r >? 65)%Z = true)
      by (apply Z.gtb_lt; lia).
    now rewrite G.
  - intro H.
    assert (L : (Resources.reading fl 10 60 r <= 5 + 60)%Z).
    { apply T2; try lia. change (inject_Z 5) with 5.
      change (inject_Z 10) with 10. lra. }
    destruct (Resources.reading fl 10 60 r >? 65)%Z eqn:G;
      [apply Z.gtb_lt in G; lia|reflexivity].
Qed.

Lemma gpu_temperature_is_never_an_error_witness :
  Float.rounding (fun a => a) /\ 0 <= 7#10 /\ 7#10 < 1 /\
  Resources.tempColour (Resources.gpuTemp (fun a => a) (7#10))
  <> Resources.error.
Proof.
  assert (R0 : 0 <= 7#10) by discriminate.
  assert (R1 : 7#10 < 1) by reflexivity.
  split; [exact exact_arithmetic_is_rounding|].
  split; [exact R0|]. split; [exact R1|].
  exact (proj1 (proj2 (proj2 (proj2
           (gpu_temperature_is_never_an_error
              (fun a => a) (7#10) exact_arithmetic_is_rounding R0 R1))))).
Defined.

(** ** What a triggered action does *)

Section Directed.

Import Trace.

Lemma updateActionStates_directed cls c v :
  Actions.directed v -> Actions.directed (updateActionStates cls c v).
Proof.
  intros [Hn Hm]. cbn [get] in Hn, Hm. unfold Actions.directed.
  split; unfold updateActionStates; rewrite !get_for_in;
    (destruct cls as [s|];
     [repeat match goal with
             | |- context [String.eqb s ?x] => destruct (String.eqb s x)
             end|]);
    cbn [confidence direction set_active set_confidence set_direction
         get update put for_in fold_left action_names
         v_navigate v_select v_modify v_create v_delete];
    intro H; first [now left | now right | apply Hn; lra | apply Hm; lra].
Qed.

Lemma step_directed i st :
  Actions.directed (verbs st) -> Actions.directed (verbs (step i st)).
Proof.
  intro Hd. destruct i as [now d|now d| |b]; cbn [step].
  - destruct (handleNeuralClassification_cases now d st)
      as [[_ ->]|[(_ & _ & ->)|(_ & dd & cls & _ & _ & [[_ ->]|[_ ->]])]];
      try assumption.
    + now apply updateActionStates_directed.
    + set (u := mkState _ _ _ _ _ _).
      assert (Hu : Actions.directed (verbs u))
        by now apply updateActionStates_directed.
      unfold Actions.directed.
      destruct (considerTriggeringAction_keeps now u navigate) as (-> & -> & _).
      destruct (considerTriggeringAction_keeps now u modify) as (-> & -> & _).
      exact Hu.
  - unfold handleNeuralFeatures.
    destruct (nl_active st); cbn [negb]; [|assumption].
    destruct d as [d|]; [|assumption].
    destruct (features d); [|assumption].
    now apply updateActionStates_directed.
  - unfold toggleNeuralIntegration, Actions.directed. cbn [verbs].
    rewrite !get_for_in.
    cbn [confidence direction set_triggered set_active set_confidence].
    split; intro H; exfalso; lra.
  - destruct Hd as [Hn Hm].
    unfold clearTriggered, with_verbs, Actions.directed. cbn [verbs].
    destruct b; split; assumption.
Qed.

Lemma run_directed ins : Actions.directed (verbs (run ins init)).
Proof.
  induction ins as [|i ins IH] using rev_ind.
  - split; cbn; intro H; exfalso; lra.
  - rewrite run_snoc. now apply step_directed.
Qed.

Lemma adjustTemperature_range delta t :
  1#10 <= t -> t <= 15#10 -> Qabs delta <= 2#10 ->
  let t' := Actions.adjustTemperature delta t in
  1#10 <= t' /\ t' <= 15#10 /\ Qabs (t' - t) <= 2#10.
Proof.
  intros T0 T1 Hd. apply Qabs_Qle_condition in Hd. destruct Hd as [D0 D1].
  cbv zeta. unfold Actions.adjustTemperature.
  destruct (Q.max_spec (t + delta) (1#10)) as [[M1 M2]|[M1 M2]];
    destruct (Q.min_spec (Qmax (t + delta) (1#10)) (15#10))
      as [[N1 N2]|[N1 N2]];
    (split; [lra|]); (split; [lra|]); apply Qabs_Qle_condition; split; lra.
Qed.

End Directed.

(** X23: what [triggerAction] does when [considerTriggeringAction] calls
    it from [handleNeuralClassification], that is on the table [v] that
    [updateActionStates] has just produced in a state of a running page.
    The selected action is navigate, select or modify, and it always
    does something: the conversation is never cleared and no creative
    prompt is ever suggested; select sends the prompt or suggests one;
    modify moves the temperature by 0.2 either way; navigate moves it by
    0.1 either way when there is a prompt, and otherwise suggests a
    prompt or drops the last exchange.  A temperature between 0.1 and 1.5
    stays there and moves by at most 0.2. *)
Theorem every_trigger_acts :
  forall ins cls c a promptEmpty t,
    let v := updateActionStates (Some cls) c (verbs (run ins init)) in
    selectAction v = Some a ->
    1#10 <= t -> t <= 15#10 ->
    let e := Actions.triggerAction a (get a v) promptEmpty in
    let t' := Actions.applyEffect e t in
    Trace.routable a /\
    e <> Actions.NoEffect /\ e <> Actions.ClearConversation /\
    e <> Actions.SuggestPrompt (Some "creative"%string) /\
    (a = select ->
     e = if promptEmpty then Actions.SuggestPrompt None
         else Actions.SendPromptToLLaMA) /\
    (a = modify ->
     e = Actions.AdjustTemperature (2#10) \/
     e = Actions.AdjustTemperature (- (2#10))) /\
    (a = navigate ->
     if promptEmpty
     then e = Actions.SuggestPrompt None \/ e = Actions.ClearRecentHistory
     else e = Actions.AdjustTemperature (1#10) \/
          e = Actions.AdjustTemperature (- (1#10))) /\
    1#10 <= t' /\ t' <= 15#10 /\ Qabs (t' - t) <= 2#10.
Proof.
  intros ins cls c a promptEmpty t v Hsel T0 T1 e t'.
  assert (Hidle : Trace.idle v).
  { apply updateActionStates_idle.
    apply (reachable_idle (run ins init)). now exists ins. }
  assert (Hdir : Actions.directed v).
  { apply updateActionStates_directed. apply run_directed. }
  pose proof (idle_selects_routable v a Hidle Hsel) as Hr.
  destruct (proj1 (selectAction_spec v) a Hsel) as [Hthr _].
  assert (Hpos : 0 < confidence (get a v)).
  { assert (0 < threshold) by reflexivity. lra. }
  split; [exact Hr|].
  assert (Keep : forall x, 1#10 <= x -> x <= 15#10 ->
                           1#10 <= x /\ x <= 15#10 /\ Qabs (x - x) <= 2#10).
  { intros x X0 X1. split; [exact X0|]. split; [exact X1|].
    apply Qabs_Qle_condition. split; lra. }
  assert (Adj : forall delta, Qabs delta <= 2#10 ->
            1#10 <= Actions.adjustTemperature delta t /\
            Actions.adjustTemperature delta t <= 15#10 /\
            Qabs (Actions.adjustTemperature delta t - t) <= 2#10).
  { intros delta Hd. now apply adjustTemperature_range. }
  destruct Hdir as [Dn Dm].
  subst t' e. destruct Hr as [ -> | [ -> | -> ] ]; cbn [Actions.triggerAction].
  - destruct (Dn Hpos) as [ -> | -> ]; destruct promptEmpty;
      cbn [String.eqb Ascii.eqb Bool.eqb negb Actions.applyEffect];
      (split; [discriminate|]); (split; [discriminate|]);
      (split; [discriminate|]); (split; [discriminate|]);
      (split; [discriminate|]);
      (split; [intros _; first [left; reflexivity|right; reflexivity]|]);
      first [now apply Keep | apply Adj; apply Qabs_Qle_condition; split; lra].
  - destruct promptEmpty; cbn [negb Actions.applyEffect];
      (split; [discriminate|]); (split; [discriminate|]);
      (split; [discriminate|]); (split; [reflexivity|]);
      (split; [discriminate|]); (split; [discriminate|]); now apply Keep.
  - destruct (Dm Hpos) as [ -> | -> ];
      cbn [String.eqb Ascii.eqb Bool.eqb negb Actions.applyEffect];
      (split; [discriminate|]); (split; [discriminate|]);
      (split; [discriminate|]); (split; [discriminate|]);
      (split; [intros _; first [left; reflexivity|right; reflexivity]|]);
      (split; [discriminate|]);
      apply Adj; apply Qabs_Qle_condition; split; lra.
Qed.

Lemma every_trigger_acts_witness :
  let v := updateActionStates (Some "Left Hand"%string) (9#10)
             (verbs (run [Toggle] init)) in
  selectAction v = Some navigate /\
  Actions.triggerAction navigate (get navigate v) false
  <> Actions.NoEffect.
Proof.
  intro v.
  assert (Hsel : selectAction v = Some navigate) by reflexivity.
  split; [exact Hsel|].
  assert (T0 : 1#10 <= 7#10) by discriminate.
  assert (T1 : 7#10 <= 15#10) by discriminate.
  exact (proj1 (proj2 (every_trigger_acts [Toggle] "Left Hand" (9#10)
                         navigate false (7#10) Hsel T0 T1))).
Defined.

(** ** Conversation history *)

Lemma displayed_no_response ps p r :
  ~ In (p, Some r) (Conversation.displayed ps []).
Proof.
  induction ps as [|q ps IH]; cbn [Conversation.displayed]; [tauto|].
  intros [H|H]; [discriminate|contradiction].
Qed.

Lemma displayed_aligned (respond : string -> string) ps :
  forall rs ts p r,
    rs ++ ts = map respond ps ->
    In (p, Some r) (Conversation.displayed ps rs) -> r = respond p.
Proof.
  induction ps as [|q ps IH]; intros rs ts p r E Hin; [contradiction|].
  cbn [Conversation.displayed] in Hin. destruct rs as [|r0 rs].
  - destruct Hin as [H|H]; [discriminate|].
    now apply displayed_no_response in H.
  - cbn [app map] in E. injection E as E0 E.
    destruct Hin as [H|H].
    + injection H as <- <-. exact E0.
    + exact (IH rs ts p r E H).
Qed.

Section ConversationRuns.

Variable trim : string -> string.
Variable respond : string -> string.

Lemma conversation_run_snoc acts a st :
  Conversation.run trim respond (acts ++ [a]) st
  = Conversation.step trim respond a (Conversation.run trim respond acts st).
Proof. unfold Conversation.run. now rewrite fold_left_app. Qed.

Lemma in_order_step a st :
  Conversation.in_order a ->
  Conversation.aligned respond st /\
  (Conversation.thinking st = true -> Conversation.typing st <> []) ->
  Conversation.aligned respond (Conversation.step trim respond a st) /\
  (Conversation.thinking (Conversation.step trim respond a st) = true ->
   Conversation.typing (Conversation.step trim respond a st) <> []).
Proof.
  intros Ha [Hal Hth]. unfold Conversation.aligned in *.
  destruct a as [s| |[|i]| |]; try contradiction; cbn [Conversation.step].
  - split; assumption.
  - unfold Conversation.sendPromptToLLaMA.
    destruct (String.eqb _ EmptyString); [split; assumption|].
    cbn [Conversation.responseHistory Conversation.typing
         Conversation.promptHistory Conversation.thinking].
    split.
    + now rewrite app_assoc, Hal, map_app.
    + intros _ H. apply app_eq_nil in H. destruct H as [_ H]. discriminate.
  - unfold Conversation.typingDone.
    destruct (Conversation.typing st) as [|t rest] eqn:Et;
      cbn [nth_error]; [rewrite Et; split; assumption|].
    cbn [Conversation.responseHistory Conversation.typing
         Conversation.promptHistory Conversation.thinking
         Conversation.removeAt].
    split; [now rewrite <- app_assoc|discriminate].
Qed.

Lemma in_order_run acts :
  Forall Conversation.in_order acts ->
  Conversation.aligned
    respond (Conversation.run trim respond acts Conversation.init) /\
  (Conversation.thinking
     (Conversation.run trim respond acts Conversation.init) = true ->
   Conversation.typing
     (Conversation.run trim respond acts Conversation.init) <> []).
Proof.
  induction acts as [|a acts IH] using rev_ind; intro H.
  - split; [reflexivity|discriminate].
  - apply Forall_app in H. destruct H as [H Ha]. inversion Ha; subst.
    rewrite conversation_run_snoc. apply in_order_step; auto.
Qed.

End ConversationRuns.

(** X26: as long as nothing is cleared and the typing effects end in the
    order they were started, the two histories stay aligned: every
    response started is stored or still being typed, in the order of the
    prompts, so every response the conversation display shows stands
    under the prompt it answers; the stored and running responses are as
    many as the prompts; and the thinking flag is set only while a
    response is being typed. *)
Theorem in_order_typing_keeps_conversation_aligned :
  forall trim respond acts,
    Forall Conversation.in_order acts ->
    let st := Conversation.run trim respond acts Conversation.init in
    Conversation.responseHistory st ++ Conversation.typing st
    = map respond (Conversation.promptHistory st) /\
    (forall p r,
       In (p, Some r)
          (Conversation.displayed (Conversation.promptHistory st)
                                  (Conversation.responseHistory st)) ->
       r = respond p) /\
    (length (Conversation.responseHistory st)
     + length (Conversation.typing st)
     = length (Conversation.promptHistory st))%nat /\
    (Conversation.thinking st = true -> Conversation.typing st <> []).
Proof.
  intros trim respond acts H st.
  destruct (in_order_run trim respond acts H) as [Hal Hth].
  fold st in Hal, Hth. unfold Conversation.aligned in Hal.
  split; [exact Hal|]. split.
  - intros p r. apply (displayed_aligned respond _ _ _ p r Hal).
  - split; [|exact Hth].
    rewrite <- length_app, Hal. apply length_map.
Qed.

Lemma in_order_typing_keeps_conversation_aligned_witness :
  let trim := fun s : string => s in
  let respond := fun s : string => String.append "re: " s in
  let acts := [Conversation.Input "one"; Conversation.Submit;
               Conversation.Input "two"; Conversation.Submit;
               Conversation.Typed 0; Conversation.Typed 0] in
  Forall Conversation.in_order acts /\
  Conversation.responseHistory
    (Conversation.run trim respond acts Conversation.init)
  ++ Conversation.typing
       (Conversation.run trim respond acts Conversation.init)
  = map respond ["one"; "two"]%string.
Proof.
  intros trim respond acts.
  assert (H : Forall Conversation.in_order acts).
  { repeat constructor. }
  split; [exact H|].
  exact (proj1 (in_order_typing_keeps_conversation_aligned
                  trim respond acts H)).
Defined.

(** X27: how the histories lose their alignment.  From a state with
    aligned histories and no response being typed, a prompt is sent.
    If the last exchange is dropped before the response has been typed,
    the prompt just sent is the one removed together with the response
    of the exchange before it, and the response typed afterwards takes
    that place: the prompts are as before, the last of them now paired
    with the answer to a prompt that is gone.  If the conversation is
    cleared instead, the response still arrives: it is stored with no
    prompt, so the display stays empty.  If a second prompt is sent and
    its response is typed first, the two responses are stored in the
    order of completion, under each other's prompt, and the thinking
    flag is dropped while the first response is still being typed. *)
Theorem clearing_during_typing_misaligns :
  forall trim respond st s s2,
    Conversation.typing st = [] ->
    Conversation.responseHistory st
    = map respond (Conversation.promptHistory st) ->
    trim s <> EmptyString -> trim s2 <> EmptyString ->
    let run := Conversation.run trim respond in
    let dropped := run [Conversation.Input s; Conversation.Submit;
                        Conversation.ClearRecent; Conversation.Typed 0] st in
    let cleared := run [Conversation.Input s; Conversation.Submit;
                        Conversation.Clear; Conversation.Typed 0] st in
    let halfway := run [Conversation.Input s; Conversation.Submit;
                        Conversation.Input s2; Conversation.Submit;
                        Conversation.Typed 1] st in
    let swapped := Conversation.typingDone 0 halfway in
    (Conversation.promptHistory dropped = Conversation.promptHistory st /\
     Conversation.responseHistory dropped
     = Conversation.pop (Conversation.responseHistory st)
       ++ [respond (trim s)]) /\
    (Conversation.promptHistory cleared = [] /\
     Conversation.responseHistory cleared = [respond (trim s)] /\
     Conversation.lastResponse cleared = respond (trim s) /\
     Conversation.displayed (Conversation.promptHistory cleared)
                            (Conversation.responseHistory cleared) = []) /\
    (Conversation.thinking halfway = false /\
     Conversation.typing halfway = [respond (trim s)] /\
     Conversation.promptHistory swapped
     = Conversation.promptHistory st ++ [trim s; trim s2] /\
     Conversation.responseHistory swapped
     = Conversation.responseHistory st
       ++ [respond (trim s2); respond (trim s)]).
Proof.
  intros trim respond st s s2 Ht Hal Hs Hs2 run dropped cleared halfway
         swapped.
  apply String.eqb_neq in Hs. apply String.eqb_neq in Hs2.
  subst swapped halfway cleared dropped run.
  unfold Conversation.run. cbn [fold_left Conversation.step].
  unfold Conversation.sendPromptToLLaMA.
  cbn [Conversation.promptInput]. rewrite Hs, Hs2.
  cbn [Conversation.promptHistory Conversation.responseHistory
       Conversation.typing Conversation.promptInput].
  rewrite Ht. cbn [app].
  split; [|split].
  - unfold Conversation.clearRecentHistory.
    cbn [Conversation.promptHistory].
    destruct (Conversation.promptHistory st ++ [trim s]) as [|p ps] eqn:E;
      [apply app_eq_nil in E; destruct E; discriminate|].
    rewrite <- E. unfold Conversation.pop at 1. rewrite removelast_last.
    unfold Conversation.typingDone.
    cbn [Conversation.typing nth_error Conversation.promptHistory
         Conversation.responseHistory Conversation.removeAt].
    split; reflexivity.
  - unfold Conversation.clearConversation, Conversation.typingDone.
    cbn [Conversation.typing nth_error Conversation.promptHistory
         Conversation.responseHistory Conversation.lastResponse
         Conversation.removeAt app Conversation.displayed].
    repeat split.
  - unfold Conversation.typingDone.
    cbn [Conversation.typing nth_error Conversation.promptHistory
         Conversation.responseHistory Conversation.thinking
         Conversation.removeAt app].
    split; [reflexivity|]. split; [reflexivity|].
    rewrite <- !app_assoc. cbn [app]. split; reflexivity.
Qed.

Lemma clearing_during_typing_misaligns_witness :
  let trim := fun s : string => s in
  let respond := fun s : string => String.append "re: " s in
  let st := Conversation.mkState ["one"%string] ["re: one"%string]
              "one" "re: one" false false EmptyString [] in
  Conversation.typing st = [] /\
  Conversation.responseHistory st
  = map respond (Conversation.promptHistory st) /\
  Conversation.responseHistory
    (Conversation.run trim respond
       [Conversation.Input "two"; Conversation.Submit;
        Conversation.ClearRecent; Conversation.Typed 0] st)
  = Conversation.pop (Conversation.responseHistory st) ++ [respond "two"%string].
Proof.
  intros trim respond st.
  assert (Ht : Conversation.typing st = []) by reflexivity.
  assert (Hal : Conversation.responseHistory st
                = map respond (Conversation.promptHistory st))
    by reflexivity.
  split; [exact Ht|]. split; [exact Hal|].
  assert (Hs : trim "two"%string <> EmptyString) by discriminate.
  exact (proj2 (proj1 (clearing_during_typing_misaligns
                         trim respond st "two" "two" Ht Hal Hs Hs))).
Defined.
